(** * godash: a terminal dashboard launcher

    Shallow embedding of the Go sources of the repository and the properties
    of its specification. The definitions come first, one module for each
    program of the repository; the properties follow, one module of facts
    for each.

    - [GoStrings]  : the functions of Go's [strings] package the sources call
                     ([strings.SplitN] with a one-byte separator and limit 2,
                     [strings.TrimSpace]); Go strings are byte strings, and so
                     are Rocq's.
    - [Dash]       : [main.go], the three-panel bubbletea dashboard.
    - [Tabs]       : the two-panel bubbletea list (navigation / grocery list).
    - [ShellHelper]: [launchInDir], the environment-gated shell helper.
    - [Sys], [Gocui]: files, child processes, errors and the gocui event
                     loop, as far as the launchers use them.
    - [Launcher]   : the gocui launcher that restarts its UI loop around a
                     child process, with the add-entry form.
    - [LauncherV1] : the older gocui launcher, which runs the child inside the
                     key handler.
    - [Sample]     : instances of the library interfaces, to evaluate the
                     launchers on examples.
    - [GoText]     : slices of strings, [strings.Repeat], [strings.Split]
                     and [strings.Join], with their run-time panics and the
                     memory [strings.Repeat] asks for.
    - [DashView]   : the rendering of the dashboard ([View] of [main.go],
                     ui_left.go, ui_right.go).
    - [TabsView]   : the rendering of the two-panel list.
    - [Machine]    : the restarting launcher read one key at a time. *)

From Stdlib Require Import ZArith Lia Bool Ascii String List.
From stdpp Require Import base option list strings gmap.

Open Scope Z_scope.

(* ===================================================================== *)
(** ** Go's [strings] package, on byte strings *)
(* ===================================================================== *)

Module GoStrings.

(** The line feed, written [\n] in the Go sources. *)
Definition LF : string := String "010"%char EmptyString.

Definition byte (a : ascii) : N := N_of_ascii a.

(** [strings.SplitN(s, sep, 2)] for a one-byte separator: cut [s] at the
    first occurrence of [sep]. *)
Fixpoint cutByte (sep : ascii) (s : string) : option (string * string) :=
  match s with
  | EmptyString => None
  | String a r =>
      if Ascii.eqb a sep then Some (EmptyString, r)
      else match cutByte sep r with
           | Some (p, q) => Some (String a p, q)
           | None => None
           end
  end.

Definition SplitN2 (s : string) (sep : ascii) : list string :=
  match cutByte sep s with
  | Some (p, q) => [p; q]
  | None => [s]
  end.

(** White space as [unicode.IsSpace] defines it, in UTF-8: the six ASCII
    spaces, U+0085 and U+00A0 (two bytes), U+1680, U+2000..U+200A, U+2028,
    U+2029, U+202F, U+205F and U+3000 (three bytes). *)
Definition asciiSpace (x : N) : bool :=
  ((9 <=? x) && (x <=? 13) || (x =? 32))%N.

Definition space2 (x y : N) : bool :=
  ((x =? 194) && ((y =? 133) || (y =? 160)))%N.

Definition space3 (x y z : N) : bool :=
  ((x =? 225) && (y =? 154) && (z =? 128)
   || (x =? 226) && (y =? 128)
      && ((128 <=? z) && (z <=? 138) || (z =? 168) || (z =? 169) || (z =? 175))
   || (x =? 226) && (y =? 129) && (z =? 159)
   || (x =? 227) && (y =? 128) && (z =? 128))%N.

(** Number of bytes of the white-space rune [s] starts with, 0 when it
    starts with none. *)
Definition spaceWidth (s : string) : nat :=
  match s with
  | EmptyString => 0
  | String a r =>
      if asciiSpace (byte a) then 1
      else match r with
           | EmptyString => 0
           | String b r' =>
               if space2 (byte a) (byte b) then 2
               else match r' with
                    | EmptyString => 0
                    | String c _ =>
                        if space3 (byte a) (byte b) (byte c) then 3 else 0
                    end
           end
  end%nat.

(** The same for the rune a string ends with, read on the reversed string
    (last byte first), as [utf8.DecodeLastRuneInString] finds it. *)
Definition spaceWidthRev (s : string) : nat :=
  match s with
  | EmptyString => 0
  | String c r =>
      if asciiSpace (byte c) then 1
      else match r with
           | EmptyString => 0
           | String b r' =>
               if space2 (byte b) (byte c) then 2
               else match r' with
                    | EmptyString => 0
                    | String a _ =>
                        if space3 (byte a) (byte b) (byte c) then 3 else 0
                    end
           end
  end%nat.

Fixpoint dropBytes (n : nat) (s : string) : string :=
  match n, s with
  | O, _ => s
  | S n', String _ r => dropBytes n' r
  | S _, EmptyString => EmptyString
  end.

(** Drop leading runes while [width] finds one; [fuel] bounds the number of
    runes, and the length of the string is always enough. *)
Fixpoint trimWith (width : string -> nat) (fuel : nat) (s : string) : string :=
  match fuel with
  | O => s
  | S fuel' =>
      match width s with
      | O => s
      | S k => trimWith width fuel' (dropBytes (S k) s)
      end
  end.

Fixpoint revString (acc s : string) : string :=
  match s with
  | EmptyString => acc
  | String a r => revString (String a acc) r
  end.

Definition TrimLeftSpace (s : string) : string :=
  trimWith spaceWidth (String.length s) s.

Definition TrimRightSpace (s : string) : string :=
  let r := revString EmptyString s in
  revString EmptyString (trimWith spaceWidthRev (String.length r) r).

(** [strings.TrimSpace]. *)
Definition TrimSpace (s : string) : string :=
  TrimRightSpace (TrimLeftSpace s).

(** [s] holds the byte [sep]. *)
Fixpoint hasByte (sep : ascii) (s : string) : bool :=
  match s with
  | EmptyString => false
  | String a r => Ascii.eqb a sep || hasByte sep r
  end.

End GoStrings.

(* ===================================================================== *)
(** ** main.go: the three-panel dashboard *)
(* ===================================================================== *)

Module Dash.
Import GoStrings.

(** [type Panel int] with its three constants. *)
Definition Panel := Z.
Definition PanelTUI : Panel := 0.
Definition PanelDirs : Panel := 1.
Definition PanelShortcuts : Panel := 2.

Record Item := mkItem {
  Title : string;
  Description : string;
  Path : string
}.

Record Model := mkModel {
  focus : Panel;
  width : Z;
  height : Z;
  topItems : list Item;
  midItems : list Item;
  bottomItems : list Item;
  topCursor : Z;
  midCursor : Z;
  bottomCursor : Z;
  rightTitle : string;
  rightBody : string
}.

Definition initialModel : Model :=
  {| focus := PanelTUI;
     width := 0;
     height := 0;
     topItems :=
       [ mkItem "TUI Apps: Clock" "A terminal clock widget" "";
         mkItem "TUI Apps: Calendar" "Calendar in terminal" "";
         mkItem "TUI Apps: Notes" "Notes app in terminal" "";
         mkItem "TUI Apps: Todo" "Tiny todo app" "" ];
     midItems :=
       [ mkItem "Dev Projects" "" "/home/you/projects";
         mkItem "Work" "" "/home/you/work";
         mkItem "Docs" "" "/home/you/docs" ];
     bottomItems :=
       [ mkItem "Home" "" "/home/you";
         mkItem "Downloads" "" "/home/you/Downloads";
         mkItem "Configs" "" "/home/you/.config" ];
     topCursor := 0;
     midCursor := 0;
     bottomCursor := 0;
     rightTitle := "";
     rightBody := "" |}.

(** Field updates of the struct behind [*Model]. *)
Definition set_focus (p : Panel) (m : Model) : Model :=
  mkModel p (width m) (height m) (topItems m) (midItems m) (bottomItems m)
          (topCursor m) (midCursor m) (bottomCursor m) (rightTitle m) (rightBody m).
Definition set_size (w h : Z) (m : Model) : Model :=
  mkModel (focus m) w h (topItems m) (midItems m) (bottomItems m)
          (topCursor m) (midCursor m) (bottomCursor m) (rightTitle m) (rightBody m).
Definition set_topCursor (c : Z) (m : Model) : Model :=
  mkModel (focus m) (width m) (height m) (topItems m) (midItems m) (bottomItems m)
          c (midCursor m) (bottomCursor m) (rightTitle m) (rightBody m).
Definition set_midCursor (c : Z) (m : Model) : Model :=
  mkModel (focus m) (width m) (height m) (topItems m) (midItems m) (bottomItems m)
          (topCursor m) c (bottomCursor m) (rightTitle m) (rightBody m).
Definition set_bottomCursor (c : Z) (m : Model) : Model :=
  mkModel (focus m) (width m) (height m) (topItems m) (midItems m) (bottomItems m)
          (topCursor m) (midCursor m) c (rightTitle m) (rightBody m).
Definition set_right (t b : string) (m : Model) : Model :=
  mkModel (focus m) (width m) (height m) (topItems m) (midItems m) (bottomItems m)
          (topCursor m) (midCursor m) (bottomCursor m) t b.

(** Go's [int] is 64 bits wide here; [+] wraps around. *)
Definition wrapInt (x : Z) : Z := (x + 2 ^ 63) mod 2 ^ 64 - 2 ^ 63.

(** [len(s)] of a slice, as an [int]. *)
Definition len {A} (l : list A) : Z := Z.of_nat (length l).

(** [m.focus = (m.focus + 1) % 3]; Go's [%] truncates toward zero. *)
Definition cycleFocus (m : Model) : Model :=
  set_focus (Z.rem (wrapInt (focus m + 1)) 3) m.

(** The cursor decrements and increments below are guarded by
    [cursor > 0] and [cursor < len - 1], which keep them inside [int]. *)
Definition navigateUp (m : Model) : Model :=
  if focus m =? PanelTUI then
    if topCursor m >? 0 then set_topCursor (topCursor m - 1) m else m
  else if focus m =? PanelDirs then
    if midCursor m >? 0 then set_midCursor (midCursor m - 1) m else m
  else if focus m =? PanelShortcuts then
    if bottomCursor m >? 0 then set_bottomCursor (bottomCursor m - 1) m else m
  else m.

Definition navigateDown (m : Model) : Model :=
  if focus m =? PanelTUI then
    if topCursor m <? len (topItems m) - 1
    then set_topCursor (topCursor m + 1) m else m
  else if focus m =? PanelDirs then
    if midCursor m <? len (midItems m) - 1
    then set_midCursor (midCursor m + 1) m else m
  else if focus m =? PanelShortcuts then
    if bottomCursor m <? len (bottomItems m) - 1
    then set_bottomCursor (bottomCursor m + 1) m else m
  else m.

Definition halfName (title : string) : string :=
  match SplitN2 title ":"%char with
  | [_; rest] => TrimSpace rest
  | _ => TrimSpace title
  end.

(** [fmt.Sprintf] of the static preview block: [%s] is [name], [%%] is a
    percent sign. *)
Definition renderHTOPPreview (name : string) : string :=
  "Preview: " +:+ name +:+ LF +:+
  "CPU  12%  [||        ]" +:+ LF +:+
  "Mem  47%  [||||      ]" +:+ LF +:+
  "Tasks 42 (threads: 6)" +:+ LF +:+
  "Up 1d 2h".

(** [items[i]]: an index outside [0, len) is a run-time panic, [None]. *)
Definition index {A} (items : list A) (i : Z) : option A :=
  if i <? 0 then None else items !! Z.to_nat i.

Definition preview (it : Item) (m : Model) : Model :=
  let name := halfName (Title it) in
  set_right ("HTOP Preview: " +:+ name) (renderHTOPPreview name) m.

(** [None] is the panic of an index out of range. *)
Definition activateCurrent (m : Model) : option Model :=
  if focus m =? PanelTUI then
    if topCursor m <? len (topItems m) then
      it ← index (topItems m) (topCursor m); Some (preview it m)
    else Some m
  else if focus m =? PanelDirs then
    if midCursor m <? len (midItems m) then
      it ← index (midItems m) (midCursor m); Some (preview it m)
    else Some m
  else if focus m =? PanelShortcuts then
    if bottomCursor m <? len (bottomItems m) then
      it ← index (bottomItems m) (bottomCursor m); Some (preview it m)
    else Some m
  else Some m.

(** The messages [Update] distinguishes: a key, by its [String()], a window
    size, anything else. *)
Inductive Msg :=
| KeyMsg (key : string)
| WindowSizeMsg (w h : Z)
| OtherMsg.

Inductive Cmd := CmdNil | CmdQuit.

Definition keyIs (key : string) (names : list string) : bool :=
  existsb (String.eqb key) names.

Definition Update (msg : Msg) (m : Model) : option (Model * Cmd) :=
  match msg with
  | KeyMsg key =>
      if keyIs key ["ctrl+c"; "q"] then Some (m, CmdQuit)
      else if keyIs key ["tab"] then Some (cycleFocus m, CmdNil)
      else if keyIs key ["up"; "k"] then Some (navigateUp m, CmdNil)
      else if keyIs key ["down"; "j"] then Some (navigateDown m, CmdNil)
      else if keyIs key ["enter"; " "] then
        m' ← activateCurrent m; Some (m', CmdNil)
      else Some (m, CmdNil)
  | WindowSizeMsg w h => Some (set_size w h m, CmdNil)
  | OtherMsg => Some (m, CmdNil)
  end.

(** *** Vocabulary of the properties *)

(** The state [initialModel] builds, for any three lists of entries: the
    first panel focused, every cursor on 0, nothing activated. *)
Definition startModel (top mid bottom : list Item) : Model :=
  mkModel PanelTUI 0 0 top mid bottom 0 0 0 "" "".

(** The entries and the cursor of a panel. *)
Definition itemsOf (p : Panel) (m : Model) : list Item :=
  if p =? PanelTUI then topItems m
  else if p =? PanelDirs then midItems m
  else if p =? PanelShortcuts then bottomItems m
  else [].

Definition cursorOf (p : Panel) (m : Model) : Z :=
  if p =? PanelTUI then topCursor m
  else if p =? PanelDirs then midCursor m
  else if p =? PanelShortcuts then bottomCursor m
  else 0.

(** The input operations, and a sequence of them applied from a state;
    [None] when one of them panics. *)
Inductive Op := CycleFocus | MoveUp | MoveDown | Activate.

Definition apply (op : Op) (m : Model) : option Model :=
  match op with
  | CycleFocus => Some (cycleFocus m)
  | MoveUp => Some (navigateUp m)
  | MoveDown => Some (navigateDown m)
  | Activate => activateCurrent m
  end.

Fixpoint applyAll (ops : list Op) (m : Model) : option Model :=
  match ops with
  | [] => Some m
  | op :: ops' => m' ← apply op m; applyAll ops' m'
  end.

(** The invariant of a cursor: an index of the entries when there are some,
    0 when there are none. *)
Definition cursorOk (items : list Item) (c : Z) : Prop :=
  (items <> [] -> 0 <= c < len items) /\ (items = [] -> c = 0).

Definition cursorsOk (m : Model) : Prop :=
  cursorOk (topItems m) (topCursor m)
  /\ cursorOk (midItems m) (midCursor m)
  /\ cursorOk (bottomItems m) (bottomCursor m).

End Dash.

(* ===================================================================== *)
(** ** The two-panel list: navigation and grocery list *)
(* ===================================================================== *)

Module Tabs.

Definition Panel := Z.
Definition NavigationPanel : Panel := 0.
Definition MainPanel : Panel := 1.
Definition StatusPanel : Panel := 2.

Record model := mkmodel {
  panel : Panel;
  navItems : list string;
  navCursor : Z;
  choices : list string;
  mainCursor : Z;
  selected : gset Z;
  width : Z;
  height : Z
}.

Definition initialModel : model :=
  {| panel := MainPanel;
     navItems := ["Groceries"; "Tasks"; "Notes"; "Settings"];
     navCursor := 0;
     choices := ["Buy carrots"; "Buy celery"; "Buy kohlrabi"; "Buy cheese";
                 "Buy burgers"];
     mainCursor := 0;
     selected := ∅;
     width := 0;
     height := 0 |}.

Definition set_panel (p : Panel) (m : model) : model :=
  mkmodel p (navItems m) (navCursor m) (choices m) (mainCursor m)
          (selected m) (width m) (height m).
Definition set_navCursor (c : Z) (m : model) : model :=
  mkmodel (panel m) (navItems m) c (choices m) (mainCursor m)
          (selected m) (width m) (height m).
Definition set_mainCursor (c : Z) (m : model) : model :=
  mkmodel (panel m) (navItems m) (navCursor m) (choices m) c
          (selected m) (width m) (height m).
Definition set_selected (s : gset Z) (m : model) : model :=
  mkmodel (panel m) (navItems m) (navCursor m) (choices m) (mainCursor m)
          s (width m) (height m).
Definition set_size (w h : Z) (m : model) : model :=
  mkmodel (panel m) (navItems m) (navCursor m) (choices m) (mainCursor m)
          (selected m) w h.

Definition len {A} (l : list A) : Z := Z.of_nat (length l).

(** The [tab] case of [Update]. *)
Definition switchPanel (m : model) : model :=
  if panel m =? NavigationPanel then
    let m := set_panel MainPanel m in
    if (mainCursor m >=? len (choices m)) && (len (choices m) >? 0)
    then set_mainCursor (len (choices m) - 1) m else m
  else if panel m =? MainPanel then
    let m := set_panel NavigationPanel m in
    if (navCursor m >=? len (navItems m)) && (len (navItems m) >? 0)
    then set_navCursor (len (navItems m) - 1) m else m
  else m.

(** The [up], [k] case. *)
Definition moveUp (m : model) : model :=
  if panel m =? NavigationPanel then
    if navCursor m >? 0 then set_navCursor (navCursor m - 1) m else m
  else if panel m =? MainPanel then
    if mainCursor m >? 0 then set_mainCursor (mainCursor m - 1) m else m
  else m.

(** The [down], [j] case. *)
Definition moveDown (m : model) : model :=
  if panel m =? NavigationPanel then
    if navCursor m <? len (navItems m) - 1
    then set_navCursor (navCursor m + 1) m else m
  else if panel m =? MainPanel then
    if mainCursor m <? len (choices m) - 1
    then set_mainCursor (mainCursor m + 1) m else m
  else m.

(** The [enter], space case: toggle the entry under the cursor. *)
Definition toggle (m : model) : model :=
  if panel m =? MainPanel then
    if decide (mainCursor m ∈ selected m)
    then set_selected (selected m ∖ {[mainCursor m]}) m
    else set_selected ({[mainCursor m]} ∪ selected m) m
  else m.

Definition Update (msg : Dash.Msg) (m : model) : model * Dash.Cmd :=
  match msg with
  | Dash.KeyMsg key =>
      if Dash.keyIs key ["ctrl+c"; "q"] then (m, Dash.CmdQuit)
      else if Dash.keyIs key ["tab"] then (switchPanel m, Dash.CmdNil)
      else if Dash.keyIs key ["up"; "k"] then (moveUp m, Dash.CmdNil)
      else if Dash.keyIs key ["down"; "j"] then (moveDown m, Dash.CmdNil)
      else if Dash.keyIs key ["enter"; " "] then (toggle m, Dash.CmdNil)
      else (m, Dash.CmdNil)
  | Dash.WindowSizeMsg w h => (set_size w h m, Dash.CmdNil)
  | Dash.OtherMsg => (m, Dash.CmdNil)
  end.

(** The cursors stay on entries: what [initialModel] starts from and every
    key keeps. *)
Definition inRange (m : model) : Prop :=
  0 <= navCursor m < len (navItems m) /\ 0 <= mainCursor m < len (choices m).

End Tabs.

(* ===================================================================== *)
(** ** launchInDir: the shell helper behind GO_DASH_LAUNCH_IN_DIR *)
(* ===================================================================== *)

Module ShellHelper.
Import GoStrings.

(** What the helper does to the outside: a child process run to completion
    with the terminal's standard streams, or a line on standard output. *)
Record Command := mkCommand {
  cmdName : string;
  cmdDir : string
}.

Inductive Effect :=
| Run (c : Command)
| Printed (text : string).

(** The outside the helper reads: the environment variables, what [os.Stat]
    finds at a path ([None] for an error, [Some d] for a file that exists,
    [d] telling a directory), and what [cmd.Run] returns for a command. *)
Record World := mkWorld {
  environ : gmap string string;
  stat : string -> option bool;
  runResult : Command -> option string
}.

(** [os.Getenv]: the value, or the empty string when the variable is unset. *)
Definition Getenv (w : World) (key : string) : string :=
  default "" (environ w !! key).

Definition launchInDir (w : World) (dir : string) : list Effect * option string :=
  let v := Getenv w "GO_DASH_LAUNCH_IN_DIR" in
  if negb (String.eqb (TrimSpace v) "") then
    match stat w dir with
    | Some true =>
        let cmd := mkCommand "bash" dir in
        ([Run cmd], runResult w cmd)
    | _ => ([], Some ("directory does not exist: " +:+ dir))
    end
  else
    ([Printed ("Would launch shell in: " +:+ dir +:+ LF)], None).

End ShellHelper.

(* ===================================================================== *)
(** ** The operating system and gocui, as far as the launchers use them *)
(* ===================================================================== *)

Module Sys.

(** [syscall.WaitStatus] of a terminated child and its [Signal()], which is
    -1 unless the child was killed by a signal. *)
Inductive WaitStatus :=
| Exited (code : Z)
| Signaled (sig : Z).

Definition SIGINT : Z := 2.
Definition SIGTERM : Z := 15.

Definition Signal (status : WaitStatus) : Z :=
  match status with
  | Signaled sig => sig
  | Exited _ => -1
  end.

(** The error values the launchers tell apart: their own [ErrRestart],
    gocui's [ErrQuit] and [ErrUnknownView], an [*exec.ExitError] with the
    wait status of the child, and every other error, by its text. *)
Inductive error :=
| ErrRestart
| ErrQuit
| ErrUnknownView
| ExitError (status : WaitStatus)
| ErrOther (text : string).

(** [err == ErrRestart], [err != gocui.ErrQuit]: comparison with a sentinel. *)
Definition isRestart (e : error) : bool :=
  match e with ErrRestart => true | _ => false end.
Definition isQuit (e : error) : bool :=
  match e with ErrQuit => true | _ => false end.

(** The files [ioutil] reads and writes; writing fails when [readOnly].
    [torn] tells what a write that fails leaves of the file: [None], the
    file could not be opened and is as before; [Some n], the file was
    opened, which truncates it, and the write or the closing failed with
    the first [n] bytes of the data in the file. *)
Record FS := mkDisk {
  files : gmap string string;
  readOnly : bool;
  torn : option nat
}.

(** Files that a write that fails leaves as they are. *)
Definition mkFS (files : gmap string string) (readOnly : bool) : FS :=
  mkDisk files readOnly None.

(** [os.Stat] finds the file. *)
Definition fileExists (fs : FS) (path : string) : bool :=
  match files fs !! path with Some _ => true | None => false end.

Definition ReadFile (fs : FS) (path : string) : string * option error :=
  match files fs !! path with
  | Some data => (data, None)
  | None => ("", Some (ErrOther "no such file or directory"))
  end.

(** [ioutil.WriteFile]: the file is opened, which creates or truncates it,
    the data is written and the file is closed; the first error is
    returned. *)
Definition WriteFile (fs : FS) (path data : string) : FS * option error :=
  if readOnly fs then
    match torn fs with
    | None => (fs, Some (ErrOther "read-only file system"))
    | Some n =>
        (mkDisk (<[path := substring 0 n data]> (files fs)) (readOnly fs)
                (torn fs),
         Some (ErrOther "no space left on device"))
    end
  else (mkFS (<[path := data]> (files fs)) (readOnly fs), None).

(** The outcome of a child: [cmd.Start] fails, or the child runs and
    [cmd.Wait] returns [nil] or an error. *)
Inductive ChildResult :=
| StartFailed (e : error)
| Waited (e : option error).

(** The outside: whether the n-th [gocui.NewGui] succeeds (or the text of its
    error), and how the n-th child, started with a given shell command,
    ends. *)
Record Env := mkEnv {
  newGui : nat -> option string;
  child : nat -> string -> ChildResult
}.

(** What can be observed of a run, in the order it happens. *)
Inductive Event :=
| GuiOpened
| GuiClosed
| ChildStarted (command : string)
| ChildDone
| Logged (text : string) (e : error)
| Panicked (text : string) (e : error).

(** *** Vocabulary of the properties *)

(** Who owns the terminal after an event: the UI from [GuiOpened] to
    [GuiClosed]. Before the first event the UI does not. *)
Definition ownsAfter (owned : bool) (e : Event) : bool :=
  match e with
  | GuiOpened => true
  | GuiClosed => false
  | _ => owned
  end.

Definition uiOwns (tr : list Event) : bool := foldl ownsAfter false tr.

(** Some child of the run [tr] was started while the UI owned the terminal. *)
Definition startedUnderUI (tr : list Event) : Prop :=
  exists before command after,
    tr = before ++ ChildStarted command :: after /\ uiOwns before = true.

(** The events that are lines of the log. *)
Definition isLogged (e : Event) : bool :=
  match e with Logged _ _ => true | _ => false end.

End Sys.

Module Gocui.
Import Sys.

Inductive Key :=
| KeyCtrlC
| KeyArrowDown
| KeyArrowUp
| KeyEnter
| KeyTab
| KeyEsc
| KeyRune (ch : ascii).

Definition key_eqb (k k' : Key) : bool :=
  match k, k' with
  | KeyCtrlC, KeyCtrlC | KeyArrowDown, KeyArrowDown | KeyArrowUp, KeyArrowUp
  | KeyEnter, KeyEnter | KeyTab, KeyTab | KeyEsc, KeyEsc => true
  | KeyRune c, KeyRune c' => Ascii.eqb c c'
  | _, _ => false
  end.

(** A view: what [Buffer()] returns, the line of the cursor, and whether the
    editor writes into it. The text painted in the list, the dashboard, the
    footer and the frame of the form is display only and is not kept. *)
Record View := mkView {
  Buffer : string;
  CursorY : Z;
  Editable : bool
}.

(** The parts of gocui left open: how [MoveCursor(dx, dy, writeMode)] moves
    inside a view, and what [DefaultEditor] does with a key. *)
Class Lib := {
  MoveCursor : View -> Z -> Z -> bool -> View;
  Edit : View -> Key -> View
}.

(** The views by name; [currentView] names the view with the focus, so that
    a handler and the Gui see the same view. *)
Record Gui := mkGui {
  views : gmap string View;
  currentView : option string
}.

Definition emptyGui : Gui := mkGui ∅ None.

Definition getView (g : Gui) (name : string) : option View := views g !! name.

Definition putView (name : string) (v : View) (g : Gui) : Gui :=
  mkGui (<[name := v]> (views g)) (currentView g).

(** [g.SetView]: the view when it exists, else a new empty view, reported by
    [true] (gocui's [ErrUnknownView]). The terminal is taken large enough
    for the coordinates to be valid. *)
Definition SetView (g : Gui) (name : string) : Gui * bool :=
  match getView g name with
  | Some _ => (g, false)
  | None => (putView name (mkView "" 0 false) g, true)
  end.

Definition SetCurrentView (g : Gui) (name : string) : Gui * option error :=
  match getView g name with
  | Some _ => (mkGui (views g) (Some name), None)
  | None => (g, Some ErrUnknownView)
  end.

Definition DeleteView (g : Gui) (name : string) : Gui :=
  mkGui (delete name (views g)) (currentView g).

Section Loop.
(** [St] is the state of the program outside the Gui. *)
Context {St : Type} `{Lib}.

(** A handler gets the Gui and the name of the view with the focus. *)
Definition Handler := Gui -> string -> St -> Gui * St * option error.

Record keybinding := mkKeybinding {
  viewName : string;
  key : Key;
  handler : Handler
}.

Definition matchView (kb : keybinding) (v : option string) : bool :=
  if String.eqb (viewName kb) "" then true
  else match v with
       | Some name => String.eqb (viewName kb) name
       | None => false
       end.

(** [execKeybindings]: every binding that matches the key and the view runs,
    in the order of registration, until one returns an error. *)
Fixpoint execKeybindings (kbs : list keybinding) (v : option string) (k : Key)
    (matched : bool) (g : Gui) (s : St) : Gui * St * (bool * option error) :=
  match kbs with
  | [] => (g, s, (matched, None))
  | kb :: kbs' =>
      if key_eqb (key kb) k && matchView kb v then
        match handler kb g (default "" v) s with
        | (g', s', Some err) => (g', s', (false, Some err))
        | (g', s', None) => execKeybindings kbs' v k true g' s'
        end
      else execKeybindings kbs' v k matched g s
  end.

(** [onKey]: the bindings first; a key bound nowhere goes to the editor of
    an editable view. *)
Definition onKey (kbs : list keybinding) (k : Key) (g : Gui) (s : St)
  : Gui * St * option error :=
  match execKeybindings kbs (currentView g) k false g s with
  | (g', s', (_, Some err)) => (g', s', Some err)
  | (g', s', (true, None)) => (g', s', None)
  | (g', s', (false, None)) =>
      match currentView g' with
      | Some name =>
          match getView g' name with
          | Some v =>
              if Editable v then (putView name (Edit v k) g', s', None)
              else (g', s', None)
          | None => (g', s', None)
          end
      | None => (g', s', None)
      end
  end.

(** [MainLoop]: lay out, then handle one key after the other and lay out
    again, until a handler returns an error: [inr], with the keys not yet
    read. With no key left the loop waits: [inl]. *)
Fixpoint eventLoop (layout : Gui -> Gui) (kbs : list keybinding)
    (keys : list Key) (g : Gui) (s : St) : (Gui + error * list Key) * St :=
  match keys with
  | [] => (inl g, s)
  | k :: keys' =>
      match onKey kbs k g s with
      | (_, s', Some err) => (inr (err, keys'), s')
      | (g', s', None) => eventLoop layout kbs keys' (layout g') s'
      end
  end.

Definition MainLoop (layout : Gui -> Gui) (kbs : list keybinding)
    (keys : list Key) (g : Gui) (s : St) : (Gui + error * list Key) * St :=
  eventLoop layout kbs keys (layout g) s.

End Loop.

Arguments Handler : clear implicits.
Arguments keybinding St : clear implicits.

End Gocui.

(* ===================================================================== *)
(** ** The gocui launcher that restarts its UI loop around the child *)
(* ===================================================================== *)

Module Launcher.
Import Sys Gocui.

Record Application := mkApplication {
  Name : string;
  Command : string
}.

Record Config := mkConfig {
  Applications : list Application
}.

(** [encoding/json] for [Config]: [MarshalIndent(conf, "", "  ")] and
    [Unmarshal(data, &config)], the latter from the value [config] holds. *)
Class Json := {
  MarshalIndent : Config -> string * option error;
  Unmarshal : string -> Config -> Config * option error
}.

(** The process: the package variables [applications] and [pendingApp], the
    files, the number of UIs opened and of children launched so far, and the
    events so far. *)
Record Process := mkProcess {
  applications : list Application;
  pendingApp : option Application;
  fs : FS;
  guis : nat;
  children : nat;
  trace : list Event
}.

Definition set_applications (apps : list Application) (p : Process) : Process :=
  mkProcess apps (pendingApp p) (fs p) (guis p) (children p) (trace p).
Definition set_pendingApp (a : option Application) (p : Process) : Process :=
  mkProcess (applications p) a (fs p) (guis p) (children p) (trace p).
Definition set_fs (f : FS) (p : Process) : Process :=
  mkProcess (applications p) (pendingApp p) f (guis p) (children p) (trace p).
Definition emit (e : Event) (p : Process) : Process :=
  mkProcess (applications p) (pendingApp p) (fs p) (guis p) (children p)
            (trace p ++ [e]).
Definition count_gui (p : Process) : Process :=
  mkProcess (applications p) (pendingApp p) (fs p) (S (guis p)) (children p)
            (trace p).
Definition count_child (p : Process) : Process :=
  mkProcess (applications p) (pendingApp p) (fs p) (guis p) (S (children p))
            (trace p).

Definition len {A} (l : list A) : Z := Z.of_nat (length l).

(** [log.Println(text, err)]. *)
Definition logln (text : string) (e : error) (p : Process) : Process :=
  emit (Logged text e) p.

(** *** The configuration file *)

Section WithJson.
Context `{Json}.

Definition loadConfig (fs : FS) (path : string) : Config * option error :=
  let config := mkConfig [] in
  match ReadFile fs path with
  | (_, Some err) => (config, Some err)
  | (file, None) => Unmarshal file config
  end.

Definition writeConfig (fs : FS) (path : string) (apps : list Application)
  : FS * option error :=
  let conf := mkConfig apps in
  match MarshalIndent conf with
  | (_, Some err) => (fs, Some err)
  | (file, None) => WriteFile fs path file
  end.

Definition defaultApplications : list Application :=
  [ mkApplication "LazyGit" "lazygit";
    mkApplication "LazyDocker" "lazydocker";
    mkApplication "LazySSH" "lazyssh" ].

(** [inr] is [log.Panicln]. *)
Definition createDefaultConfig (p : Process) : Process + Process :=
  let config := mkConfig defaultApplications in
  match MarshalIndent config with
  | (_, Some err) => inr (emit (Panicked "Error creating default config:" err) p)
  | (file, None) =>
      match WriteFile (fs p) "config.json" file with
      | (fs', Some err) =>
          inr (emit (Panicked "Error creating default config:" err)
                    (set_fs fs' p))
      | (fs', None) => inl (set_fs fs' p)
      end
  end.

End WithJson.

(** *** The child process *)

(** [runApplication]. The goroutine that waits for the child and the one
    that forwards SIGINT and SIGTERM to it end with [cmd.Wait]; what is left
    of them here is the result of the wait, which the outside decides. *)
Definition runApplication (env : Env) (app : Application) (p : Process) : Process :=
  let r := child env (children p) (Command app) in
  let p := count_child p in
  match r with
  | StartFailed err => logln "Error starting command:" err p
  | Waited err =>
      let p := emit ChildDone (emit (ChildStarted (Command app)) p) in
      match err with
      | None => p
      | Some err =>
          match err with
          | ExitError status =>
              if (Signal status =? SIGINT) || (Signal status =? SIGTERM)
              then p
              else logln "Error running command:" err p
          | _ => logln "Error running command:" err p
          end
      end
  end.

(** *** The views and the handlers *)

(** [renderList] and [renderDashboard] queue a repaint of the list and of the
    dashboard; the painted text is not kept in [View]. *)
Definition renderList (g : Gui) : Gui := g.
Definition renderDashboard (g : Gui) : Gui := g.

Definition setCursorY (y : Z) (v : View) : View :=
  mkView (Buffer v) y (Editable v).

(** [layout]: the first call creates the views, gives the focus to the list
    and puts its cursor on line 2, below the title and the blank line. The
    terminal is taken large enough for [SetView] and [SetCursor] to succeed,
    so that [layout] returns no error. *)
Definition layout (g : Gui) : Gui :=
  let '(g, created) := SetView g "list" in
  let g :=
    if created then
      let g := renderList g in
      let g := fst (SetCurrentView g "list") in
      match getView g "list" with
      | Some v => putView "list" (setCursorY 2 v) g
      | None => g
      end
    else g in
  let '(g, created) := SetView g "dashboard" in
  let g := if created then renderDashboard g else g in
  let '(g, _) := SetView g "footer" in
  g.

Definition quit : Handler Process :=
  fun g v p => (g, p, Some ErrQuit).

(** [getAppFromCursor]: the first two lines are the title and a blank line. *)
Definition getAppFromCursor (apps : list Application) (v : View)
  : option Application :=
  let y := CursorY v in
  let index := y - 2 in
  if (index >=? 0) && (index <? len apps) then apps !! Z.to_nat index
  else None.

(** [runApp] stores the application to run and returns [ErrRestart], which
    ends [MainLoop]. *)
Definition runApp : Handler Process :=
  fun g v p =>
    match getView g v with
    | Some view =>
        match getAppFromCursor (applications p) view with
        | None => (g, p, None)
        | Some app => (g, set_pendingApp (Some app) p, Some ErrRestart)
        end
    | None => (g, p, None)
    end.

Definition refreshDashboard : Handler Process :=
  fun g v p => (renderDashboard g, p, None).

Definition editableView : View := mkView "" 0 true.

Definition openAddModal : Handler Process :=
  fun g v p =>
    let '(g, _) := SetView g "add_modal" in
    let '(g, created) := SetView g "add_name" in
    let g := if created then putView "add_name" editableView g else g in
    let '(g, created) := SetView g "add_cmd" in
    let g := if created then putView "add_cmd" editableView g else g in
    let '(g, err) := SetCurrentView g "add_name" in
    (g, p, err).

Definition switchAddField : Handler Process :=
  fun g v p =>
    if String.eqb v "add_name" then
      let '(g, err) := SetCurrentView g "add_cmd" in (g, p, err)
    else
      let '(g, err) := SetCurrentView g "add_name" in (g, p, err).

Definition cancelAddModal : Handler Process :=
  fun g v p =>
    let g :=
      foldl (fun g name =>
               match getView g name with
               | Some _ => DeleteView g name
               | None => g
               end)
            g ["add_modal"; "add_name"; "add_cmd"] in
    let '(g, err) := SetCurrentView g "list" in
    (g, p, err).

(** [trimViewText]: the loop removes the last byte while it is a line feed
    or a carriage return; each turn shortens the text, so its length is
    fuel enough. *)
Definition isNewline (a : ascii) : bool :=
  Ascii.eqb a "010" || Ascii.eqb a "013".

Fixpoint lastByte (s : string) : option ascii :=
  match s with
  | EmptyString => None
  | String a r =>
      match r with
      | EmptyString => Some a
      | String _ _ => lastByte r
      end
  end.

Fixpoint dropLast (s : string) : string :=
  match s with
  | EmptyString => EmptyString
  | String a r =>
      match r with
      | EmptyString => EmptyString
      | String _ _ => String a (dropLast r)
      end
  end.

Fixpoint trimLoop (fuel : nat) (text : string) : string :=
  match fuel with
  | O => text
  | S fuel' =>
      match lastByte text with
      | Some last =>
          if isNewline last then trimLoop fuel' (dropLast text) else text
      | None => text
      end
  end.

Definition trimViewText (v : View) : string :=
  let text := Buffer v in
  trimLoop (String.length text) text.

Section WithLibs.
Context `{Json} `{Lib}.

Definition cursorDown : Handler Process :=
  fun g v p =>
    match getView g v with
    | Some view =>
        let y := CursorY view in
        let g :=
          if y <? len (applications p) + 1
          then putView v (MoveCursor view 0 1 false) g else g in
        (renderDashboard g, p, None)
    | None => (g, p, None)
    end.

Definition cursorUp : Handler Process :=
  fun g v p =>
    match getView g v with
    | Some view =>
        let y := CursorY view in
        let g :=
          if y >? 2
          then putView v (MoveCursor view 0 (-1) false) g else g in
        (renderDashboard g, p, None)
    | None => (g, p, None)
    end.

(** [saveNewApp] reads the two fields, appends to [applications], writes
    the file, closes the form and repaints. *)
Definition saveNewApp : Handler Process :=
  fun g v p =>
    match getView g "add_name" with
    | None => (g, p, Some ErrUnknownView)
    | Some nameV =>
        match getView g "add_cmd" with
        | None => (g, p, Some ErrUnknownView)
        | Some cmdV =>
            let name := trimViewText nameV in
            let cmd := trimViewText cmdV in
            if String.eqb name "" || String.eqb cmd "" then (g, p, None)
            else
              let p :=
                set_applications
                  (applications p ++ [mkApplication name cmd]) p in
              let p :=
                match writeConfig (fs p) "config.json" (applications p) with
                | (fs', Some err) =>
                    logln "Error writing config:" err (set_fs fs' p)
                | (fs', None) => set_fs fs' p
                end in
              let '(g, _, _) := cancelAddModal g "" p in
              let g := renderList g in
              let g := renderDashboard g in
              (g, p, None)
        end
    end.

(** The bindings [run] registers, in its order; registering one does not
    fail. *)
Definition keybindings : list (keybinding Process) :=
  [ mkKeybinding "" KeyCtrlC quit;
    mkKeybinding "list" KeyArrowDown cursorDown;
    mkKeybinding "list" KeyArrowUp cursorUp;
    mkKeybinding "list" KeyEnter runApp;
    mkKeybinding "list" (KeyRune "r") refreshDashboard;
    mkKeybinding "list" (KeyRune "a") openAddModal;
    mkKeybinding "add_name" KeyEnter switchAddField;
    mkKeybinding "add_cmd" KeyEnter saveNewApp;
    mkKeybinding "add_name" KeyTab switchAddField;
    mkKeybinding "add_cmd" KeyTab switchAddField;
    mkKeybinding "add_modal" KeyEsc cancelAddModal ].

(** [run] either still waits for a key when the keys are used up, or has
    returned an error, with the keys it did not read. [g.Close()] is
    deferred: it runs when [MainLoop] has returned. *)
Inductive RunResult :=
| Waiting (g : Gui)
| Returned (err : error) (rest : list Key).

Definition run (env : Env) (keys : list Key) (p : Process)
  : RunResult * Process :=
  match newGui env (guis p) with
  | Some text => (Returned (ErrOther text) keys, count_gui p)
  | None =>
      let p := emit GuiOpened (count_gui p) in
      match MainLoop layout keybindings keys emptyGui p with
      | (inl g, p) => (Waiting g, p)
      | (inr (err, rest), p) => (Returned err rest, emit GuiClosed p)
      end
  end.

(** How [main] ends on the keys given: still in the UI, returned, stopped by
    [log.Panicln], or the model out of fuel. *)
Inductive Status :=
| Interactive (g : Gui)
| Finished
| Crashed
| OutOfFuel.

(** The [for] loop of [main]. *)
Fixpoint mainLoop (fuel : nat) (env : Env) (keys : list Key) (p : Process)
  : Status * Process :=
  match fuel with
  | O => (OutOfFuel, p)
  | S fuel' =>
      match run env keys p with
      | (Waiting g, p) => (Interactive g, p)
      | (Returned err rest, p) =>
          if isRestart err then
            let p :=
              match pendingApp p with
              | Some app => runApplication env app (set_pendingApp None p)
              | None => p
              end in
            mainLoop fuel' env rest p
          else if negb (isQuit err) then (Crashed, emit (Panicked "" err) p)
          else (Finished, p)
      end
  end.

(** [main]: every turn of the loop that goes on has read a key, so one turn
    more than there are keys is fuel enough. *)
Definition main (env : Env) (keys : list Key) (p : Process) : Status * Process :=
  match
    (if fileExists (fs p) "config.json" then inl p else createDefaultConfig p)
  with
  | inr p => (Crashed, p)
  | inl p =>
      match loadConfig (fs p) "config.json" with
      | (_, Some err) => (Crashed, emit (Panicked "Error loading config:" err) p)
      | (config, None) =>
          let p := set_applications (Applications config) p in
          mainLoop (S (length keys)) env keys p
      end
  end.

End WithLibs.

(** *** Vocabulary of the properties *)

(** [p'] has the events of [p] and, after them, lines of the log only. *)
Definition quietly (p p' : Process) : Prop :=
  exists l, trace p' = trace p ++ l /\ forallb isLogged l = true.

Definition quietHandler (h : Handler Process) : Prop :=
  forall g v p, quietly p (snd (fst (h g v p))).

(** The outcomes of a child after which [runApplication] logs nothing: an
    exit with status 0, a death by SIGINT or SIGTERM. *)
Definition endsQuietly (r : ChildResult) : bool :=
  match r with
  | Waited None => true
  | Waited (Some (ExitError (Signaled sig))) =>
      (sig =? SIGINT) || (sig =? SIGTERM)
  | _ => false
  end.

Definition opensNoGui (e : Event) : bool :=
  match e with GuiOpened => false | _ => true end.

(** Every byte of [s] is a line feed or a carriage return. *)
Fixpoint allNewlines (s : string) : bool :=
  match s with
  | EmptyString => true
  | String a r => isNewline a && allNewlines r
  end.

End Launcher.

(* ===================================================================== *)
(** ** The older gocui launcher: the child runs inside the key handler *)
(* ===================================================================== *)

Module LauncherV1.
Import Sys Gocui.

(** [Config], [Application], [loadConfig], [createDefaultConfig], [quit],
    [getAppFromCursor] and the package variable [applications] read as in
    [Launcher]; this program has no [pendingApp], and the field of that name
    in [Process] is left alone. *)
Import Launcher.

Definition layout (g : Gui) : Gui :=
  let '(g, created) := SetView g "list" in
  if created then
    let g := fst (SetCurrentView g "list") in
    match getView g "list" with
    | Some v => putView "list" (setCursorY 2 v) g
    | None => g
    end
  else g.

Section WithLibs.
Context `{Json} `{Lib}.

Definition cursorDown : Handler Process :=
  fun g v p =>
    match getView g v with
    | Some view =>
        let y := CursorY view in
        if y <? len (applications p) + 1
        then (putView v (MoveCursor view 0 1 false) g, p, None)
        else (g, p, None)
    | None => (g, p, None)
    end.

Definition cursorUp : Handler Process :=
  fun g v p =>
    match getView g v with
    | Some view =>
        let y := CursorY view in
        if y >? 2
        then (putView v (MoveCursor view 0 (-1) false) g, p, None)
        else (g, p, None)
    | None => (g, p, None)
    end.

(** [runApp] executes the selected application with [cmd.Run], that is
    [Start] then [Wait], and then returns [ErrRestart]. *)
Definition runApp (env : Env) : Handler Process :=
  fun g v p =>
    match getView g v with
    | Some view =>
        match getAppFromCursor (applications p) view with
        | None => (g, p, None)
        | Some app =>
            let r := child env (children p) (Command app) in
            let p := count_child p in
            let p :=
              match r with
              | StartFailed err => logln "Error running command:" err p
              | Waited err =>
                  let p :=
                    emit ChildDone (emit (ChildStarted (Command app)) p) in
                  match err with
                  | Some err => logln "Error running command:" err p
                  | None => p
                  end
              end in
            (g, p, Some ErrRestart)
        end
    | None => (g, p, None)
    end.

Definition keybindings (env : Env) : list (keybinding Process) :=
  [ mkKeybinding "" KeyCtrlC quit;
    mkKeybinding "list" KeyArrowDown cursorDown;
    mkKeybinding "list" KeyArrowUp cursorUp;
    mkKeybinding "list" KeyEnter (runApp env) ].

Definition run (env : Env) (keys : list Key) (p : Process)
  : RunResult * Process :=
  match newGui env (guis p) with
  | Some text => (Returned (ErrOther text) keys, count_gui p)
  | None =>
      let p := emit GuiOpened (count_gui p) in
      match MainLoop layout (keybindings env) keys emptyGui p with
      | (inl g, p) => (Waiting g, p)
      | (inr (err, rest), p) => (Returned err rest, emit GuiClosed p)
      end
  end.

Fixpoint mainLoop (fuel : nat) (env : Env) (keys : list Key) (p : Process)
  : Status * Process :=
  match fuel with
  | O => (OutOfFuel, p)
  | S fuel' =>
      match run env keys p with
      | (Waiting g, p) => (Interactive g, p)
      | (Returned err rest, p) =>
          if isRestart err then mainLoop fuel' env rest p
          else if negb (isQuit err) then (Crashed, emit (Panicked "" err) p)
          else (Finished, p)
      end
  end.

Definition main (env : Env) (keys : list Key) (p : Process) : Status * Process :=
  match
    (if fileExists (fs p) "config.json" then inl p else createDefaultConfig p)
  with
  | inr p => (Crashed, p)
  | inl p =>
      match loadConfig (fs p) "config.json" with
      | (_, Some err) => (Crashed, emit (Panicked "Error loading config:" err) p)
      | (config, None) =>
          let p := set_applications (Applications config) p in
          mainLoop (S (length keys)) env keys p
      end
  end.

End WithLibs.

End LauncherV1.

(* ===================================================================== *)
(** ** Stand-ins for the libraries, to run the launchers on examples *)
(* ===================================================================== *)

(** The theorems on the launchers hold for every [Json] and every
    [Gocui.Lib]; the instances here only serve to evaluate them. *)
Module Sample.
Import GoStrings Sys Gocui Launcher.

(** A cursor that moves freely, and an editor that appends the rune typed
    to the single line of the view, which ends with a line feed. *)
Definition typeRune (c : ascii) (buffer : string) : string :=
  dropLast buffer +:+ String c LF.

#[export] Instance lib : Lib := {|
  MoveCursor v dx dy writeMode := setCursorY (CursorY v + dy) v;
  Edit v k :=
    match k with
    | KeyRune c => mkView (typeRune c (Buffer v)) (CursorY v) (Editable v)
    | _ => v
    end
|}.

(** An encoder in the layout of [MarshalIndent], escaping quotes and
    backslashes only, and a decoder that reads the string literals of such a
    text back in order. *)
Definition DQ : ascii := "034"%char.
Definition BS : ascii := "092"%char.

Fixpoint escape (s : string) : string :=
  match s with
  | EmptyString => EmptyString
  | String a r =>
      if Ascii.eqb a DQ || Ascii.eqb a BS
      then String BS (String a (escape r))
      else String a (escape r)
  end.

Definition quote (s : string) : string :=
  String DQ (escape s) +:+ String DQ "".

Definition encodeApp (a : Application) : string :=
  "    {" +:+ LF +:+
  "      " +:+ quote "name" +:+ ": " +:+ quote (Name a) +:+ "," +:+ LF +:+
  "      " +:+ quote "command" +:+ ": " +:+ quote (Command a) +:+ LF +:+
  "    }".

Fixpoint joinLines (l : list string) : string :=
  match l with
  | [] => ""
  | [x] => x
  | x :: l' => x +:+ "," +:+ LF +:+ joinLines l'
  end.

Definition encode (c : Config) : string :=
  match Applications c with
  | [] => "{" +:+ LF +:+ "  " +:+ quote "applications" +:+ ": []" +:+ LF +:+ "}"
  | apps =>
      "{" +:+ LF +:+ "  " +:+ quote "applications" +:+ ": [" +:+ LF +:+
      joinLines (map encodeApp apps) +:+ LF +:+ "  ]" +:+ LF +:+ "}"
  end.

(** [literals s cur esc]: [cur] is the literal being read, reversed, and
    [esc] tells that the last byte was a backslash. *)
Fixpoint literals (s : string) (cur : option string) (esc : bool) : list string :=
  match s with
  | EmptyString => []
  | String a r =>
      match cur with
      | None =>
          if Ascii.eqb a DQ then literals r (Some "") false
          else literals r None false
      | Some acc =>
          if esc then literals r (Some (String a acc)) false
          else if Ascii.eqb a BS then literals r cur true
          else if Ascii.eqb a DQ then revString "" acc :: literals r None false
          else literals r (Some (String a acc)) false
      end
  end.

Fixpoint decodeApps (toks : list string) : option (list Application) :=
  match toks with
  | [] => Some []
  | k1 :: n :: k2 :: c :: toks' =>
      if String.eqb k1 "name" && String.eqb k2 "command" then
        match decodeApps toks' with
        | Some apps => Some (mkApplication n c :: apps)
        | None => None
        end
      else None
  | _ => None
  end.

Definition decode (data : string) : option Config :=
  match literals data None false with
  | k :: toks =>
      if String.eqb k "applications"
      then match decodeApps toks with
           | Some apps => Some (mkConfig apps)
           | None => None
           end
      else None
  | [] => None
  end.

#[export] Instance json : Json := {|
  MarshalIndent c := (encode c, None);
  Unmarshal data config :=
    match decode data with
    | Some c => (c, None)
    | None => (config, Some (ErrOther "invalid character"))
    end
|}.

(** A process about to start on an empty disk. *)
Definition emptyDisk : Process :=
  mkProcess [] None (mkFS ∅ false) 0 0 [].

(** An outside where every UI opens and every child ends as [r]. *)
Definition always (r : ChildResult) : Env :=
  mkEnv (fun _ => None) (fun _ _ => r).

(** The UI with the form open and its two fields filled in. *)
Definition formWith (name cmd : string) : Gui :=
  putView "add_cmd" (mkView cmd 0 true)
    (putView "add_name" (mkView name 0 true) (layout emptyGui)).

End Sample.

(* ===================================================================== *)
(** ** More of Go's strings: slices, [Repeat], [Split], [Join] *)
(* ===================================================================== *)

Module GoText.
Import GoStrings.

(** The largest [int]. *)
Definition maxInt : Z := 2 ^ 63 - 1.

(** [len(s)], in bytes. *)
Definition lenS (s : string) : Z := Z.of_nat (String.length s).

Fixpoint takeBytes (n : nat) (s : string) : string :=
  match n, s with
  | O, _ => EmptyString
  | S n', String a r => String a (takeBytes n' r)
  | S _, EmptyString => EmptyString
  end.

(** [s[:n]]: a bound that is negative or beyond the length is a run-time
    panic, [None]. *)
Definition sliceTo (s : string) (n : Z) : option string :=
  if (n <? 0) || (n >? lenS s) then None
  else Some (takeBytes (Z.to_nat n) s).

Fixpoint repeatString (n : nat) (s : string) : string :=
  match n with
  | O => EmptyString
  | S n' => s +:+ repeatString n' s
  end.

(** The memory [strings.Repeat] is granted for its result: asking for more
    than [maxAlloc] bytes stops the program, by the panic of [makeslice]
    (len out of range) beyond 2^48 bytes, the limit of the 64-bit
    platforms, and before that by the out-of-memory error of the runtime
    where memory is short. The strings built by concatenation are as long
    as their parts together and are taken to fit. *)
Class Heap := {
  maxAlloc : Z;
  maxAlloc_range : 0 <= maxAlloc <= 2 ^ 48
}.

(** [strings.Repeat]: 0 and 1 copies need no memory; it panics on a
    negative count and when the length of the result overflows an [int],
    and then allocates the result in one piece. *)
Definition Repeat `{Heap} (s : string) (count : Z) : option string :=
  if count =? 0 then Some EmptyString
  else if count =? 1 then Some s
  else if count <? 0 then None
  else if lenS s * count >? maxInt then None
  else if lenS s * count =? 0 then Some EmptyString
  else if lenS s * count >? maxAlloc then None
  else Some (repeatString (Z.to_nat count) s).

(** [strings.Split(s, sep)] for a one-byte separator: the pieces between the
    separators, one piece more than there are separators. *)
Fixpoint splitByte (sep : ascii) (s : string) : list string :=
  match s with
  | EmptyString => [EmptyString]
  | String a r =>
      if Ascii.eqb a sep then EmptyString :: splitByte sep r
      else match splitByte sep r with
           | x :: l => String a x :: l
           | [] => [String a EmptyString]
           end
  end.

(** [strings.Join]. *)
Fixpoint Join (elems : list string) (sep : string) : string :=
  match elems with
  | [] => EmptyString
  | x :: rest =>
      match rest with
      | [] => x
      | _ :: _ => x +:+ sep +:+ Join rest sep
      end
  end.

(** The escape sequences of reverse video around a highlighted line,
    [\x1b[7m] and [\x1b[0m]. *)
Definition reverseOn : string := String "027"%char "[7m".
Definition reverseOff : string := String "027"%char "[0m".

(** A runtime of a 64-bit platform with memory to spare, to run the
    rendering on examples. *)
Definition heap64 : Heap :=
  {| maxAlloc := 2 ^ 48;
     maxAlloc_range := conj (Z.pow_nonneg 2 48 (Z.lt_le_incl 0 2 Z.lt_0_2))
                            (Z.le_refl (2 ^ 48)) |}.

End GoText.

(* ===================================================================== *)
(** ** main.go: the rendering of the dashboard *)
(* ===================================================================== *)

Module DashView.
Import GoStrings GoText Dash.

Section WithHeap.
Context `{Heap}.

Definition repeatSpace (n : Z) : option string := Repeat " " n.
Definition repeatChar (c : string) (n : Z) : option string := Repeat c n.

Definition padCenter (text : string) (width : Z) : option string :=
  if lenS text >=? width then sliceTo text width
  else
    let pad := width - lenS text in
    let left := Z.quot pad 2 in
    let right := pad - left in
    l ← repeatSpace left;
    r ← repeatSpace right;
    Some (l +:+ text +:+ r).

Definition padRight (text : string) (width : Z) : option string :=
  if lenS text >=? width then sliceTo text width
  else
    s ← repeatSpace (width - lenS text);
    Some (text +:+ s).

(** The loop of [renderPanelBlock] over the entries, from index [i]. *)
Fixpoint renderItems (items : list Item) (i : Z) (cursor : Z) (focused : bool)
    (width : Z) : option (list string) :=
  match items with
  | [] => Some []
  | it :: rest =>
      let here := focused && (i =? cursor) in
      let prefix := if here then "> " else "  " in
      let text := prefix +:+ Title it in
      text ← (if lenS text >? width then sliceTo text width else Some text);
      line ← padRight text width;
      let line :=
        if here then reverseOn +:+ line +:+ reverseOff else line in
      lines ← renderItems rest (i + 1) cursor focused width;
      Some (line :: lines)
  end.

(** [for len(lines) < n { lines = append(lines, repeatSpace(width)) }]. *)
Definition fillLines (n : Z) (width : Z) (lines : list string)
  : option (list string) :=
  if len lines <? n then
    blank ← repeatSpace width;
    Some (lines ++ replicate (Z.to_nat (n - len lines)) blank)
  else Some lines.

Definition renderPanelBlock (title : string) (items : list Item) (cursor : Z)
    (focused : bool) (width : Z) : option (list string) :=
  head ← padCenter title width;
  body ← renderItems items 0 cursor focused width;
  lines ← fillLines 4 width (head :: body);
  rule ← repeatChar "─" width;
  Some (lines ++ [rule]).

(** [for _, line := range strings.Split(body, "\n")]. *)
Fixpoint padAll (lines : list string) (width : Z) : option (list string) :=
  match lines with
  | [] => Some []
  | line :: rest =>
      l ← padRight line width;
      ls ← padAll rest width;
      Some (l :: ls)
  end.

Definition renderRightPane (title body : string) (width : Z)
  : option (list string) :=
  head ← padCenter "Details" width;
  blank ← repeatSpace width;
  active ←
    (if negb (String.eqb title "")
     then padRight ("Active: " +:+ title) width
     else padRight "Active: None" width);
  blank' ← repeatSpace width;
  text ←
    (if negb (String.eqb body "")
     then padAll (splitByte "010"%char body) width
     else Some []);
  fillLines 6 width ([head; blank; active; blank'] ++ text).

(** The rows of [View], [n] of them from row [i]: the left and the right
    cell of each, between bars. *)
Fixpoint viewRows (n : nat) (i : Z) (leftLines rightLines : list string)
    (leftW rightW : Z) : option (list string) :=
  match n with
  | O => Some []
  | S n' =>
      ll ← (if i <? len leftLines then index leftLines i
            else Repeat " " leftW);
      rr ← (if i <? len rightLines then index rightLines i
            else Some EmptyString);
      rr ← padRight rr rightW;
      rows ← viewRows n' (i + 1) leftLines rightLines leftW rightW;
      Some (("│" +:+ ll +:+ "│" +:+ rr +:+ "│") :: rows)
  end.

(** [View], on a copy of the model: a width of 0 reads as 120. *)
Definition View (m : Model) : option string :=
  let width := if width m =? 0 then 120 else width m in
  let leftW := 28 in
  let rightW := wrapInt (wrapInt (width - leftW) - 3) in
  let rightW := if rightW <? 20 then 20 else rightW in
  top ← renderPanelBlock "TUI Apps" (topItems m) (topCursor m)
          (focus m =? PanelTUI) leftW;
  mid ← renderPanelBlock "Common Directories" (midItems m) (midCursor m)
          (focus m =? PanelDirs) leftW;
  bottom ← renderPanelBlock "Shortcuts" (bottomItems m) (bottomCursor m)
             (focus m =? PanelShortcuts) leftW;
  let leftLines := top ++ mid ++ bottom in
  rightLines ← renderRightPane (rightTitle m) (rightBody m) rightW;
  let max := len leftLines in
  let max := if len rightLines >? max then len rightLines else max in
  rows ← viewRows (Z.to_nat max) 0 leftLines rightLines leftW rightW;
  ruleL ← Repeat "─" leftW;
  ruleR ← Repeat "─" rightW;
  let top := "┌" +:+ ruleL +:+ "┬" +:+ ruleR +:+ "┐" in
  let bottom := "└" +:+ ruleL +:+ "┴" +:+ ruleR +:+ "┘" in
  Some (top +:+ LF +:+ Join rows LF +:+ LF +:+ bottom).

(** ui_left.go and ui_right.go. *)
Definition RenderLeftPanelBlock := renderPanelBlock.
Definition RenderRightPaneWrapper := renderRightPane.

(** *** Vocabulary of the properties *)

(** The cell of an entry: its mark, two spaces or [> ] under the cursor of
    the focused panel, and its title, padded. *)
Definition cellOf (it : Item) (here : bool) (width : Z) : option string :=
  padRight ((if here then "> " else "  ") +:+ Title it) width.

End WithHeap.

(** A cell as it is shown: in reverse video when [here]. *)
Definition shown (here : bool) (cell : string) : string :=
  if here then reverseOn +:+ cell +:+ reverseOff else cell.


Definition paneHeight (body : string) : Z :=
  Z.max 6 (4 + (if String.eqb body "" then 0
                else len (splitByte "010"%char body))).



End DashView.

(* ===================================================================== *)
(** ** The two-panel list: its rendering *)
(* ===================================================================== *)

Module TabsView.
Import GoStrings GoText Tabs.

(** [repeat]: the loop appends [s] while [i < count], so a count of 0 or
    less gives the empty string. *)
Definition repeat (s : string) (count : Z) : string :=
  repeatString (Z.to_nat count) s.

Definition padCenter (text : string) (width : Z) : option string :=
  if lenS text >=? width then sliceTo text width
  else
    let padding := width - lenS text in
    let left := Z.quot padding 2 in
    let right := padding - left in
    Some (repeat " " left +:+ text +:+ repeat " " right).

Definition padRight (text : string) (width : Z) : option string :=
  if lenS text >=? width then sliceTo text width
  else Some (text +:+ repeat " " (width - lenS text)).

(** A cell of a content row: the text cut to the width, padded, and in
    reverse video under the cursor of the active panel. *)
Definition cell (text : string) (here : bool) (width : Z) : option string :=
  text ← (if lenS text >? width then sliceTo text width else Some text);
  content ← padRight text width;
  Some (if here then reverseOn +:+ content +:+ reverseOff else content).

Definition navContent (m : model) (i : Z) (navWidth : Z) : option string :=
  if i <? len (navItems m) then
    let here := (panel m =? NavigationPanel) && (navCursor m =? i) in
    let cursor := if here then ">" else " " in
    item ← Dash.index (navItems m) i;
    cell (cursor +:+ " " +:+ item) here navWidth
  else Some (repeat " " navWidth).

Definition mainContent (m : model) (i : Z) (mainWidth : Z) : option string :=
  if i <? len (choices m) then
    let here := (panel m =? MainPanel) && (mainCursor m =? i) in
    let cursor := if here then ">" else " " in
    let checked := if decide (i ∈ selected m) then "x" else " " in
    choice ← Dash.index (choices m) i;
    cell (cursor +:+ " [" +:+ checked +:+ "] " +:+ choice) here mainWidth
  else Some (repeat " " mainWidth).

(** The content rows, [n] of them from row [i], each ended by a line
    feed. *)
Fixpoint contentRows (n : nat) (i : Z) (m : model) (navWidth mainWidth : Z)
  : option string :=
  match n with
  | O => Some EmptyString
  | S n' =>
      nav ← navContent m i navWidth;
      main ← mainContent m i mainWidth;
      rows ← contentRows n' (i + 1) m navWidth mainWidth;
      Some ("│" +:+ nav +:+ "│" +:+ main +:+ "│" +:+ LF +:+ rows)
  end.

(** [map[Panel]string{...}[m.panel]]: a panel that is no key of the map
    reads as the empty string. *)
Definition panelName (p : Panel) : string :=
  if p =? NavigationPanel then "Navigation"
  else if p =? MainPanel then "Main"
  else "".

Definition statusText : string :=
  "Tab: Switch panels | ↑↓: Navigate | Space: Toggle | q: Quit".

(** [View], on a copy of the model: a width of 0 reads as 80 columns and 24
    lines. *)
Definition View (m : model) : option string :=
  let width := if width m =? 0 then 80 else Tabs.width m in
  let height := if Tabs.width m =? 0 then 24 else height m in
  let navWidth := 25 in
  let mainWidth := Dash.wrapInt (Dash.wrapInt (width - navWidth) - 3) in
  let mainHeight := Dash.wrapInt (height - 6) in
  let s :=
    "┌" +:+ repeat "─" navWidth +:+ "┬" +:+ repeat "─" mainWidth
    +:+ "┐" +:+ LF in
  navHead ← padCenter "Navigation" navWidth;
  mainHead ← padCenter "Grocery List" mainWidth;
  let s := s +:+ "│" +:+ navHead +:+ "│" +:+ mainHead +:+ "│" +:+ LF in
  let s :=
    s +:+ "├" +:+ repeat "─" navWidth +:+ "┼" +:+ repeat "─" mainWidth
    +:+ "┤" +:+ LF in
  rows ← contentRows (Z.to_nat mainHeight) 0 m navWidth mainWidth;
  let s := s +:+ rows in
  let s :=
    s +:+ "├" +:+ repeat "─" navWidth +:+ "┼" +:+ repeat "─" mainWidth
    +:+ "┤" +:+ LF in
  let panelText := "Active: " +:+ panelName (panel m) in
  status ← padRight panelText navWidth;
  help ← padRight statusText mainWidth;
  let s := s +:+ "│" +:+ status +:+ "│" +:+ help +:+ "│" +:+ LF in
  Some (s +:+ "└" +:+ repeat "─" navWidth +:+ "┴" +:+ repeat "─" mainWidth
        +:+ "┘").

End TabsView.

(* ===================================================================== *)
(** ** The restarting launcher, one key at a time *)
(* ===================================================================== *)

(** [Launcher.main] read as a machine: the start-up, the opening of a UI,
    and a step for each key while the UI waits. The properties relate it to
    [main] as the source has it. *)
Module Machine.
Import Sys Gocui Launcher.

Section WithLibs.
Context `{Json} `{Lib}.

(** The start of [main], up to its loop: the default configuration written
    when there is none, the configuration loaded. [inl] is the end by
    [log.Panicln]. *)
Definition boot (p : Process) : Status * Process + Process :=
  match
    (if fileExists (fs p) "config.json" then inl p else createDefaultConfig p)
  with
  | inr p => inl (Crashed, p)
  | inl p =>
      match loadConfig (fs p) "config.json" with
      | (_, Some err) =>
          inl (Crashed, emit (Panicked "Error loading config:" err) p)
      | (config, None) => inr (set_applications (Applications config) p)
      end
  end.

(** [run] up to the first wait for a key: [NewGui] and the first layout. *)
Definition openUI (env : Env) (p : Process) : Status * Process :=
  match newGui env (guis p) with
  | Some text => (Crashed, emit (Panicked "" (ErrOther text)) (count_gui p))
  | None => (Interactive (layout emptyGui), emit GuiOpened (count_gui p))
  end.

(** One key while the UI waits: the handlers, and when one returns an error
    the closing of the UI and what the loop of [main] does of the error. *)
Definition step (env : Env) (k : Key) (g : Gui) (p : Process)
  : Status * Process :=
  match onKey keybindings k g p with
  | (g', p', None) => (Interactive (layout g'), p')
  | (_, p', Some err) =>
      let p' := emit GuiClosed p' in
      if isRestart err then
        openUI env
          match pendingApp p' with
          | Some app => runApplication env app (set_pendingApp None p')
          | None => p'
          end
      else if negb (isQuit err) then (Crashed, emit (Panicked "" err) p')
      else (Finished, p')
  end.

(** The keys one after the other, as long as the UI waits. *)
Fixpoint serve (env : Env) (keys : list Key) (st : Status * Process)
  : Status * Process :=
  match keys with
  | [] => st
  | k :: keys' =>
      match st with
      | (Interactive g, p) => serve env keys' (step env k g p)
      | _ => st
      end
  end.

End WithLibs.

(** [p'] has the files of [p], but for config.json. *)
Definition otherFilesKept (p p' : Process) : Prop :=
  readOnly (fs p') = readOnly (fs p)
  /\ forall path, path <> "config.json" ->
                  files (fs p') !! path = files (fs p) !! path.

(** [p'] has the applications of [p], in their order, and maybe more after
    them. *)
Definition appsKept (p p' : Process) : Prop :=
  exists more, applications p' = applications p ++ more.

(** A handler that keeps a relation between the process before and after. *)
Definition keeps (R : Process -> Process -> Prop) (h : Handler Process) : Prop :=
  forall g v p, R p (snd (fst (h g v p))).

(** The focus is on the list or in a field of the form. *)
Definition focusOk (g : Gui) : Prop :=
  currentView g = Some "list"
  \/ currentView g = Some "add_name"
  \/ currentView g = Some "add_cmd".

(** The UI that waits for a key, if there is one. *)
Definition guiOf (st : Status * Process) : Gui :=
  match fst st with
  | Interactive g => g
  | _ => emptyGui
  end.

(** The list as [layout] makes it, a view the editor does not write
    into, with its cursor on line [y]. *)
Definition listView (y : Z) : View := mkView "" y false.

(** The list is there, and its cursor is on the line of an application, or
    on line 2 when there is none. *)
Definition listOk (g : Gui) (p : Process) : Prop :=
  exists y,
    getView g "list" = Some (listView y)
    /\ 2 <= y <= Z.max 2 (len (applications p) + 1).

(** The list shows the lines of [n] applications below its two lines of
    head: from each of these lines the cursor moves to the next one, and
    back, as [MoveCursor] is asked, without scrolling. *)
Definition showsLines `{Lib} (n : Z) : Prop :=
  (forall y, 2 <= y < n + 1 ->
             MoveCursor (listView y) 0 1 false = listView (y + 1))
  /\ (forall y, 2 < y <= n + 1 ->
                MoveCursor (listView y) 0 (-1) false = listView (y - 1)).

End Machine.

(* ===================================================================== *)
(** * Properties *)
(* ===================================================================== *)

(** ** Go's [strings] functions *)

Module GoStringsFacts.
Import GoStrings.

(** [cutByte] cuts at the first separator: the part before it has none. *)
Lemma cutByte_Some sep s p q :
  cutByte sep s = Some (p, q) ->
  s = p +:+ String sep q /\ hasByte sep p = false.
Proof.
  revert p q. induction s as [|a r IH]; intros p q; simpl; [discriminate|].
  destruct (Ascii.eqb a sep) eqn:E.
  - intros [= <- <-]. apply Ascii.eqb_eq in E. subst. auto.
  - destruct (cutByte sep r) as [[p' q']|]; [|discriminate].
    intros [= <- <-]. destruct (IH p' q' eq_refl) as [-> Hp].
    simpl. rewrite E. auto.
Qed.

Lemma cutByte_None sep s : cutByte sep s = None -> hasByte sep s = false.
Proof.
  induction s as [|a r IH]; simpl; [auto|].
  destruct (Ascii.eqb a sep); [discriminate|].
  destruct (cutByte sep r) as [[p q]|]; [discriminate|auto].
Qed.

Lemma cutByte_app sep p q :
  hasByte sep p = false -> cutByte sep (p +:+ String sep q) = Some (p, q).
Proof.
  induction p as [|a r IH]; simpl.
  - rewrite Ascii.eqb_refl. auto.
  - intros Hp. apply orb_false_iff in Hp as [-> Hr]. rewrite (IH Hr). auto.
Qed.

Lemma append_cons a r t : String a r +:+ t = String a (r +:+ t).
Proof. reflexivity. Qed.

Lemma append_nil_r s : s +:+ "" = s.
Proof. induction s as [|a r IH]; [auto|]. rewrite append_cons, IH. auto. Qed.

Lemma append_assoc s t u : (s +:+ t) +:+ u = s +:+ (t +:+ u).
Proof.
  induction s as [|a r IH]; [auto|]. rewrite !append_cons. f_equal. exact IH.
Qed.

Lemma dropBytes_length n s :
  String.length (dropBytes n s) = (String.length s - n)%nat.
Proof.
  revert s. induction n as [|n IH]; intros [|a r]; simpl; rewrite ?IH; lia.
Qed.

(** The length of the string is fuel enough for [trimWith]: what it returns
    starts with no rune that [width] finds. *)
Lemma trimWith_done width fuel s :
  width "" = O ->
  (String.length s <= fuel)%nat ->
  width (trimWith width fuel s) = O.
Proof.
  intros Hw. revert s. induction fuel as [|fuel IH]; intros s Hs;
    cbn [trimWith].
  - destruct s; [exact Hw | simpl in Hs; lia].
  - destruct (width s) as [|k] eqn:E; [exact E|].
    apply IH. rewrite dropBytes_length.
    destruct s; [congruence | simpl in *; lia].
Qed.

Lemma revString_revString s a b :
  revString a (revString b s) = revString (s +:+ a) b.
Proof.
  revert a b. induction s as [|c r IH]; intros a b; [reflexivity|].
  simpl revString at 2. rewrite IH. reflexivity.
Qed.

(** [TrimSpace] leaves no white space at either end. *)
Lemma TrimLeftSpace_done s : spaceWidth (TrimLeftSpace s) = O.
Proof. apply trimWith_done; auto. Qed.

Lemma TrimRightSpace_done s :
  spaceWidthRev (revString "" (TrimRightSpace s)) = O.
Proof.
  unfold TrimRightSpace. rewrite revString_revString, append_nil_r. simpl.
  apply trimWith_done; auto.
Qed.

Lemma TrimSpace_examples :
  TrimSpace "  Dev Projects " = "Dev Projects"
  /\ TrimSpace (" " +:+ LF) = ""
  /\ TrimSpace (String "194" (String "160" "x")) = "x".
Proof. repeat split. Qed.

End GoStringsFacts.

(** ** The three-panel dashboard *)

Module DashFacts.
Import GoStrings GoStringsFacts Dash.

Lemma initialModel_start :
  initialModel
  = startModel (topItems initialModel) (midItems initialModel)
               (bottomItems initialModel).
Proof. reflexivity. Qed.

(** [halfName] is the text after the first colon, trimmed, and the whole
    trimmed title when it has no colon. *)
Lemma halfName_cut title :
  halfName title
  = match cutByte ":" title with
    | Some (_, rest) => TrimSpace rest
    | None => TrimSpace title
    end.
Proof. unfold halfName, SplitN2. destruct (cutByte _ _) as [[p q]|]; auto. Qed.

Lemma halfName_after_colon p q :
  hasByte ":" p = false -> halfName (p +:+ String ":" q) = TrimSpace q.
Proof. intros Hp. rewrite halfName_cut, cutByte_app; auto. Qed.

(** Case analysis on the comparisons of the sources. *)
Ltac cases :=
  repeat match goal with
    | |- context [?a =? ?b] => destruct (Z.eqb_spec a b)
    | |- context [?a <? ?b] => destruct (Z.ltb_spec a b)
    | |- context [?a >? ?b] => rewrite (Z.gtb_ltb a b)
    | H : context [?a =? ?b] |- _ => destruct (Z.eqb_spec a b)
    | H : context [?a <? ?b] |- _ => destruct (Z.ltb_spec a b)
    | H : context [?a >? ?b] |- _ => rewrite (Z.gtb_ltb a b) in H
    end.

Lemma len_nil_iff {A} (l : list A) : len l = 0 <-> l = [].
Proof. unfold len. destruct l; simpl; split; (lia || congruence || auto). Qed.

Lemma len_nonneg {A} (l : list A) : 0 <= len l.
Proof. unfold len. lia. Qed.

Lemma index_in_range {A} (l : list A) (i : Z) :
  0 <= i < len l -> exists x, index l i = Some x.
Proof.
  unfold index, len. intros Hi.
  destruct (Z.ltb_spec i 0); [lia|].
  destruct (lookup_lt_is_Some_2 l (Z.to_nat i)) as [x Hx]; [lia|]. eauto.
Qed.

(** *** Activation *)

Lemma activate_start it rest mid bottom :
  activateCurrent (startModel (it :: rest) mid bottom)
  = Some (preview it (startModel (it :: rest) mid bottom)).
Proof. reflexivity. Qed.

(** The title of that preview is the fixed text [HTOP Preview: ] followed
    by the derived name of the entry, the text after the first colon of its
    display name, trimmed. *)
Lemma activate_first_title it rest mid bottom :
  rightTitle <$> activateCurrent (startModel (it :: rest) mid bottom)
  = Some ("HTOP Preview: " +:+ halfName (Title it)).
Proof. rewrite activate_start. reflexivity. Qed.

(** The body of that preview is the static block of [renderHTOPPreview]
    for the derived name. *)
Lemma activate_first_body it rest mid bottom :
  rightBody <$> activateCurrent (startModel (it :: rest) mid bottom)
  = Some (renderHTOPPreview (halfName (Title it))).
Proof. rewrite activate_start. reflexivity. Qed.

(** C1 fails on the code. Activating the first entry of [initialModel],
    named [TUI Apps: Clock] and described as [A terminal clock widget],
    gives the title [HTOP Preview: Clock] and, as body, the static block of
    [renderHTOPPreview]. The claim wants the title of the derived-name
    rule, [TUI Apps Preview: Clock], and the description as body;
    [TestInitialActivationTop] wants the title [TUI Apps: Clock] and the
    description as body. The code gives none of these: the category of the
    name is dropped for the constant [HTOP], and the description of an
    entry is read nowhere: an entry is activated as any entry with its
    name and another description is. *)
Theorem activate_first_breaks_test :
  (exists m',
      activateCurrent initialModel = Some m'
      /\ Title <$> index (topItems initialModel) (topCursor initialModel)
         = Some "TUI Apps: Clock"
      /\ Description <$> index (topItems initialModel) (topCursor initialModel)
         = Some "A terminal clock widget"
      /\ rightTitle m' = "HTOP Preview: Clock"
      /\ rightBody m'
         = "Preview: Clock" +:+ LF +:+
           "CPU  12%  [||        ]" +:+ LF +:+
           "Mem  47%  [||||      ]" +:+ LF +:+
           "Tasks 42 (threads: 6)" +:+ LF +:+
           "Up 1d 2h"
      /\ rightTitle m' <> "TUI Apps Preview: Clock"
      /\ rightTitle m' <> "TUI Apps: Clock"
      /\ rightBody m' <> "A terminal clock widget")
  /\ (exists m',
         activateCurrent
           (startModel [mkItem "Category: Widget" "A widget" ""] [] [])
         = Some m'
         /\ rightTitle m' = "HTOP Preview: Widget"
         /\ rightTitle m' <> "Category Preview: Widget"
         /\ rightBody m' <> "A widget")
  /\ (forall title d d' path rest mid bottom,
         activateCurrent (startModel (mkItem title d path :: rest) mid bottom)
         = Some (preview (mkItem title d' path)
                         (startModel (mkItem title d path :: rest) mid bottom))).
Proof.
  split; [|split].
  - eexists. split; [reflexivity|]. repeat split; discriminate.
  - eexists. split; [reflexivity|]. repeat split; discriminate.
  - intros. rewrite activate_start. reflexivity.
Qed.

(** *** Moving the cursor *)

Lemma navigateDown_focus m : focus (navigateDown m) = focus m.
Proof. unfold navigateDown. cases; reflexivity. Qed.

Lemma navigateDown_items p m : itemsOf p (navigateDown m) = itemsOf p m.
Proof. unfold navigateDown, itemsOf. cases; reflexivity. Qed.

Lemma navigateDown_cursor m :
  0 <= focus m < 3 ->
  cursorOf (focus m) (navigateDown m)
  = if cursorOf (focus m) m <? len (itemsOf (focus m) m) - 1
    then cursorOf (focus m) m + 1 else cursorOf (focus m) m.
Proof.
  intros Hf. unfold navigateDown, cursorOf, itemsOf,
    PanelTUI, PanelDirs, PanelShortcuts in *.
  destruct m as [f w h t mi b tc mc bc rt rb]; simpl in *.
  cases; simpl; cases; try lia; reflexivity.
Qed.

Lemma navigateDown_other p m :
  p <> focus m -> cursorOf p (navigateDown m) = cursorOf p m.
Proof.
  intros Hp. unfold navigateDown, cursorOf,
    PanelTUI, PanelDirs, PanelShortcuts in *.
  destruct m as [f w h t mi b tc mc bc rt rb]; simpl in *.
  cases; simpl; cases; try lia; reflexivity.
Qed.

(** [k] moves down from a cursor not beyond the last entry: the cursor
    advances by [k] and stops on the last entry. *)
Lemma navigateDown_iter k m :
  0 <= focus m < 3 ->
  cursorOf (focus m) m <= len (itemsOf (focus m) m) - 1 ->
  let m' := Nat.iter k navigateDown m in
  focus m' = focus m
  /\ (forall p, itemsOf p m' = itemsOf p m)
  /\ cursorOf (focus m) m'
     = Z.min (cursorOf (focus m) m + Z.of_nat k)
             (len (itemsOf (focus m) m) - 1).
Proof.
  intros Hf Hc. induction k as [|k IH].
  - simpl. repeat split; auto. lia.
  - rewrite Nat.iter_succ. cbv zeta in *.
    destruct IH as (IHf & IHi & IHc).
    set (mk := Nat.iter k navigateDown m) in *.
    split; [rewrite navigateDown_focus; auto|].
    split; [intros p; rewrite navigateDown_items; auto|].
    rewrite <- IHf, navigateDown_cursor by lia.
    rewrite IHf, IHi, IHc. cases; lia.
Qed.

(** C5: in a panel with entries, from any position of its cursor,
    [navigateDown] repeated as many times as the panel has entries leaves
    the cursor on the last entry, [len - 1]: it saturates and does not wrap. *)
Theorem navigateDown_saturates (m : Model) :
  0 <= focus m < 3 ->
  itemsOf (focus m) m <> [] ->
  0 <= cursorOf (focus m) m < len (itemsOf (focus m) m) ->
  cursorOf (focus m)
    (Nat.iter (length (itemsOf (focus m) m)) navigateDown m)
  = len (itemsOf (focus m) m) - 1.
Proof.
  intros Hf _ Hc.
  destruct (navigateDown_iter (length (itemsOf (focus m) m)) m Hf)
    as (_ & _ & ->); [lia|].
  unfold len in *. lia.
Qed.

Lemma navigateDown_saturates_initial :
  0 <= focus initialModel < 3
  /\ itemsOf (focus initialModel) initialModel <> []
  /\ cursorOf (focus initialModel)
       (Nat.iter (length (itemsOf (focus initialModel) initialModel))
          navigateDown initialModel)
     = len (itemsOf (focus initialModel) initialModel) - 1.
Proof.
  split; [cbv [focus initialModel PanelTUI]; lia|]. split; [discriminate|].
  apply (navigateDown_saturates initialModel);
    [cbv [focus initialModel PanelTUI]; lia | discriminate | vm_compute; intuition discriminate].
Defined.

(** *** Cycling the focus *)

Lemma wrapInt_small x : - 2 ^ 63 <= x < 2 ^ 63 -> wrapInt x = x.
Proof. intros Hx. unfold wrapInt. rewrite Z.mod_small; lia. Qed.

Lemma cycleFocus_focus m :
  0 <= focus m < 3 ->
  focus (cycleFocus m) = (focus m + 1) mod 3 /\ 0 <= focus (cycleFocus m) < 3.
Proof.
  intros Hf. unfold cycleFocus. simpl.
  rewrite wrapInt_small by lia. rewrite Z.rem_mod_nonneg by lia.
  split; [reflexivity|]. apply Z.mod_pos_bound. lia.
Qed.

(** C9: three applications of [cycleFocus] return the focus to the panel
    it was on, and an application of [cycleFocus] changes no cursor. *)
Theorem cycleFocus_three (m : Model) :
  0 <= focus m < 3 ->
  focus (cycleFocus (cycleFocus (cycleFocus m))) = focus m
  /\ topCursor (cycleFocus m) = topCursor m
  /\ midCursor (cycleFocus m) = midCursor m
  /\ bottomCursor (cycleFocus m) = bottomCursor m.
Proof.
  intros Hf. split; [|auto].
  destruct (cycleFocus_focus m Hf) as [E1 H1].
  destruct (cycleFocus_focus _ H1) as [E2 H2].
  destruct (cycleFocus_focus _ H2) as [E3 _].
  rewrite E3, E2, E1.
  assert (focus m = 0 \/ focus m = 1 \/ focus m = 2) as [->|[->| ->]] by lia;
    reflexivity.
Qed.

Lemma cycleFocus_three_initial :
  focus (cycleFocus (cycleFocus (cycleFocus initialModel)))
  = focus initialModel
  /\ topCursor (cycleFocus initialModel) = topCursor initialModel
  /\ midCursor (cycleFocus initialModel) = midCursor initialModel
  /\ bottomCursor (cycleFocus initialModel) = bottomCursor initialModel.
Proof. apply (cycleFocus_three initialModel). cbv [focus initialModel PanelTUI]. lia. Defined.

(** The focus visits the three panels in their order. *)
Lemma cycleFocus_order :
  focus (cycleFocus initialModel) = PanelDirs
  /\ focus (cycleFocus (cycleFocus initialModel)) = PanelShortcuts.
Proof. split; reflexivity. Qed.

(** *** The invariant of the cursors *)

Lemma cursorOk_bounds items c :
  cursorOk items c <-> 0 <= c <= Z.max 0 (len items - 1).
Proof.
  unfold cursorOk. pose proof (len_nil_iff items) as Hn.
  pose proof (len_nonneg items). split.
  - intros [H1 H2]. destruct items as [|x l].
    + rewrite (H2 eq_refl). unfold len. simpl. lia.
    + assert (0 <= c < len (x :: l)) by (apply H1; discriminate). lia.
  - intros Hc. split.
    + intros Hne. assert (len items <> 0) by tauto. lia.
    + intros ->. unfold len in Hc. simpl in Hc. lia.
Qed.

Lemma cursorsOk_start top mid bottom : cursorsOk (startModel top mid bottom).
Proof.
  unfold cursorsOk. rewrite !cursorOk_bounds. simpl.
  pose proof (len_nonneg top). pose proof (len_nonneg mid).
  pose proof (len_nonneg bottom). lia.
Qed.

Lemma cursorsOk_cycleFocus m : cursorsOk m -> cursorsOk (cycleFocus m).
Proof. auto. Qed.

Lemma cursorsOk_navigateUp m : cursorsOk m -> cursorsOk (navigateUp m).
Proof.
  unfold cursorsOk, navigateUp. rewrite !cursorOk_bounds.
  intros Hm. cases; simpl; rewrite ?cursorOk_bounds; lia.
Qed.

Lemma cursorsOk_navigateDown m : cursorsOk m -> cursorsOk (navigateDown m).
Proof.
  unfold cursorsOk, navigateDown. rewrite !cursorOk_bounds.
  intros Hm. cases; simpl; rewrite ?cursorOk_bounds; lia.
Qed.

(** Activation changes the title and the body of the detail pane only. *)
Lemma activateCurrent_frame m m' :
  activateCurrent m = Some m' ->
  focus m' = focus m
  /\ topItems m' = topItems m /\ midItems m' = midItems m
  /\ bottomItems m' = bottomItems m
  /\ topCursor m' = topCursor m /\ midCursor m' = midCursor m
  /\ bottomCursor m' = bottomCursor m.
Proof.
  unfold activateCurrent. intros Ha.
  repeat match type of Ha with
    | (if ?b then _ else _) = _ => destruct b
    | (mbind _ ?o) = _ => destruct o; simpl in Ha
    end; inversion Ha; subst; simpl; auto 10.
Qed.

(** With the cursors on entries no index is out of range: activation does
    not panic. *)
Lemma activateCurrent_total m :
  cursorsOk m -> exists m', activateCurrent m = Some m'.
Proof.
  unfold cursorsOk. rewrite !cursorOk_bounds. intros (Ht & Hm & Hb).
  unfold activateCurrent.
  cases; eauto;
    match goal with
    | |- context [index ?l ?i] =>
        destruct (index_in_range l i) as [it ->]; [lia|]; simpl; eauto
    end.
Qed.

Lemma cursorsOk_apply op m :
  cursorsOk m -> exists m', apply op m = Some m' /\ cursorsOk m'.
Proof.
  intros Hm. destruct op; simpl.
  - eauto using cursorsOk_cycleFocus.
  - eauto using cursorsOk_navigateUp.
  - eauto using cursorsOk_navigateDown.
  - destruct (activateCurrent_total m Hm) as [m' Ha].
    exists m'. split; [auto|].
    destruct (activateCurrent_frame _ _ Ha) as (_ & Et & Em & Eb & Ct & Cm & Cb).
    unfold cursorsOk. rewrite Et, Em, Eb, Ct, Cm, Cb. exact Hm.
Qed.

Lemma cursorsOk_applyAll ops m :
  cursorsOk m -> exists m', applyAll ops m = Some m' /\ cursorsOk m'.
Proof.
  revert m. induction ops as [|op ops IH]; intros m Hm; simpl; [eauto|].
  destruct (cursorsOk_apply op m Hm) as (m1 & -> & H1). simpl. auto.
Qed.

(** C6: whatever sequence of operations (cycle the focus, move up, move
    down, activate) is applied to the initial state, or to the start state
    over any entries, none of them panics and in the state reached every
    cursor is an index of the entries of its panel when the panel has some,
    and 0 when it has none. *)
Theorem cursor_invariant (ops : list Op) :
  (exists m, applyAll ops initialModel = Some m /\ cursorsOk m)
  /\ (forall top mid bottom,
         exists m,
           applyAll ops (startModel top mid bottom) = Some m /\ cursorsOk m).
Proof.
  split.
  - rewrite initialModel_start. apply cursorsOk_applyAll, cursorsOk_start.
  - intros. apply cursorsOk_applyAll, cursorsOk_start.
Qed.

(** X6: [Update] keeps the invariant of the cursors for every message of
    the bubbletea runtime, and does not panic from a state that has it. *)
Lemma cursorsOk_Update msg m :
  cursorsOk m -> exists m' cmd, Update msg m = Some (m', cmd) /\ cursorsOk m'.
Proof.
  intros Hm. destruct msg as [key|w h|]; simpl; eauto.
  repeat match goal with
    | |- context [if ?b then _ else _] => destruct b
    end; eauto using cursorsOk_navigateUp, cursorsOk_navigateDown.
  destruct (cursorsOk_apply Activate m Hm) as (m' & Ha & H'). simpl in Ha.
  rewrite Ha. simpl. eauto.
Qed.

Lemma cursorsOk_Update_enter :
  exists m' cmd,
    Update (KeyMsg "enter") initialModel = Some (m', cmd) /\ cursorsOk m'.
Proof.
  apply (cursorsOk_Update (KeyMsg "enter") initialModel).
  rewrite initialModel_start. apply cursorsOk_start.
Defined.

(** With no entry in the focused panel and its cursor not negative, the
    guard [cursor < len] fails and nothing is written. *)
Lemma activateCurrent_empty m :
  itemsOf (focus m) m = [] ->
  0 <= cursorOf (focus m) m ->
  activateCurrent m = Some m.
Proof.
  unfold itemsOf, cursorOf, activateCurrent. intros Hi Hc.
  destruct (focus m =? PanelTUI);
    [|destruct (focus m =? PanelDirs); [|destruct (focus m =? PanelShortcuts)]];
    rewrite ?Hi; unfold len; simpl; auto;
    match goal with
    | |- context [?c <? ?n] =>
        destruct (Z.ltb_spec c n); [simpl in *; lia | reflexivity]
    end.
Qed.

(** C8: when the focused panel has no entry, [activateCurrent] leaves the
    whole state as it was, the title and the body of the detail pane
    included. States are those of the data model, where a cursor is never
    negative. *)
Theorem activate_empty_noop (m : Model) :
  itemsOf (focus m) m = [] ->
  0 <= cursorOf (focus m) m ->
  activateCurrent m = Some m
  /\ (forall m', activateCurrent m = Some m' ->
      rightTitle m' = rightTitle m /\ rightBody m' = rightBody m).
Proof.
  intros Hi Hc. rewrite (activateCurrent_empty m Hi Hc).
  split; [reflexivity|]. intros m' [= <-]. auto.
Qed.

Lemma activate_empty_noop_start :
  activateCurrent (set_right "Clock" "12:00" (startModel [] [] []))
  = Some (set_right "Clock" "12:00" (startModel [] [] [])).
Proof.
  apply (activate_empty_noop (set_right "Clock" "12:00" (startModel [] [] [])));
    [reflexivity | cbv; discriminate].
Defined.

(** In the states the operations reach the cursor is not negative, so the
    same holds there without the side condition. *)
Lemma activate_empty_noop_reached m :
  cursorsOk m -> itemsOf (focus m) m = [] -> activateCurrent m = Some m.
Proof.
  intros Hm Hi. apply activateCurrent_empty; [exact Hi|].
  unfold cursorsOk in Hm. rewrite !cursorOk_bounds in Hm.
  unfold cursorOf. cases; lia.
Qed.

(** Every operation is a no-op on a panel without entries: the start state
    over three empty lists stays as it is, whatever is applied, but for the
    focus. *)
Lemma empty_panels_stay ops m :
  applyAll ops (startModel [] [] []) = Some m ->
  set_focus PanelTUI m = startModel [] [] [].
Proof.
  assert (forall m0 : Model,
            set_focus PanelTUI m0 = startModel [] [] [] ->
            applyAll ops m0 = Some m ->
            set_focus PanelTUI m = startModel [] [] []) as Hgen.
  { revert m. induction ops as [|op ops IH]; intros m m0 H0; simpl.
    - intros [= <-]. exact H0.
    - destruct m0 as [f w h t mi b tc mc bc rt rb].
      unfold set_focus, startModel in H0. simpl in H0.
      injection H0 as -> -> -> -> -> -> -> -> -> ->.
      destruct op; simpl;
        unfold cycleFocus, navigateUp, navigateDown, activateCurrent; simpl;
        repeat match goal with
          | |- context [if ?c then _ else _] => destruct c
          end; simpl; try discriminate; apply IH; reflexivity. }
  apply Hgen. reflexivity.
Qed.

End DashFacts.

(** ** The two-panel list *)

Module TabsFacts.
Import Tabs.

Ltac cases :=
  repeat match goal with
    | |- context [?a =? ?b] => destruct (Z.eqb_spec a b)
    | |- context [?a <? ?b] => destruct (Z.ltb_spec a b)
    | |- context [?a >=? ?b] => rewrite (Z.geb_leb a b)
    | |- context [?a <=? ?b] => destruct (Z.leb_spec a b)
    | |- context [?a >? ?b] => rewrite (Z.gtb_ltb a b)
    end.

Lemma inRange_initial : inRange initialModel.
Proof. unfold inRange, len. simpl. lia. Qed.

(** The down key saturates here as well: [k] presses from a cursor on an
    entry of the focused panel stop on its last entry. *)
Lemma moveDown_iter k m :
  inRange m ->
  let m' := Nat.iter k moveDown m in
  panel m' = panel m /\ navItems m' = navItems m /\ choices m' = choices m
  /\ inRange m'
  /\ (panel m = NavigationPanel ->
      navCursor m' = Z.min (navCursor m + Z.of_nat k) (len (navItems m) - 1))
  /\ (panel m = MainPanel ->
      mainCursor m' = Z.min (mainCursor m + Z.of_nat k) (len (choices m) - 1)).
Proof.
  intros Hm. induction k as [|k IH].
  - simpl. unfold inRange in Hm. repeat split; try tauto; lia.
  - rewrite Nat.iter_succ. cbv zeta in *.
    set (mk := Nat.iter k moveDown m) in *.
    destruct IH as (Ep & En & Ec & Hk & Hn & Hc).
    unfold inRange, moveDown, NavigationPanel, MainPanel in *.
    rewrite Ep, En, Ec in *.
    cases; simpl; rewrite ?Ep, ?En, ?Ec; repeat split; try lia.
Qed.

Lemma moveDown_saturates_main :
  mainCursor (Nat.iter (length (choices initialModel)) moveDown initialModel)
  = len (choices initialModel) - 1.
Proof. reflexivity. Qed.

(** The tab key toggles between the navigation and the main panel: two
    presses return the focus, three do not; with the cursors on entries it
    changes no cursor. *)
Lemma switchPanel_cursors m :
  inRange m ->
  navCursor (switchPanel m) = navCursor m
  /\ mainCursor (switchPanel m) = mainCursor m.
Proof.
  unfold inRange, switchPanel.
  destruct m as [p ni nc ch mc sel w h]; simpl. intros Hm.
  cases; simpl; lia.
Qed.

Lemma switchPanel_inRange m :
  inRange m ->
  switchPanel m
  = if panel m =? NavigationPanel then set_panel MainPanel m
    else if panel m =? MainPanel then set_panel NavigationPanel m
    else m.
Proof.
  unfold inRange, switchPanel.
  destruct m as [p ni nc ch mc sel w h]; simpl. intros Hm.
  cases; simpl; try reflexivity; lia.
Qed.

(** X4: with the cursors on entries and the focus on one of the two panels,
    two presses of tab give back the model as it was. *)
Lemma switchPanel_twice m :
  inRange m ->
  panel m = NavigationPanel \/ panel m = MainPanel ->
  switchPanel (switchPanel m) = m.
Proof.
  intros Hm Hp. rewrite (switchPanel_inRange m Hm).
  destruct m as [p ni nc ch mc sel w h]; simpl in *.
  destruct Hp as [-> | ->]; simpl; rewrite switchPanel_inRange; auto.
Qed.

Lemma switchPanel_twice_initial :
  switchPanel (switchPanel initialModel) = initialModel.
Proof.
  apply (switchPanel_twice initialModel); [exact inRange_initial|].
  right. reflexivity.
Defined.

Lemma switchPanel_thrice_initial :
  panel (switchPanel (switchPanel (switchPanel initialModel)))
  = NavigationPanel
  /\ panel initialModel = MainPanel.
Proof. split; reflexivity. Qed.

End TabsFacts.

(** ** The shell helper *)

Module ShellHelperFacts.
Import GoStrings ShellHelper.

Lemma eqb_empty_false s : s <> "" -> String.eqb s "" = false.
Proof. intros Hs. apply String.eqb_neq. exact Hs. Qed.

(** Unset reads as the empty string, which is blank. *)
Lemma Getenv_unset w key : environ w !! key = None -> Getenv w key = "".
Proof. unfold Getenv. intros ->. reflexivity. Qed.




(** X5: with the variable set to a value that is not blank and no directory
    at the path, nothing is started and the helper returns an error. *)
Lemma launchInDir_no_directory w dir :
  TrimSpace (Getenv w "GO_DASH_LAUNCH_IN_DIR") <> "" ->
  stat w dir <> Some true ->
  launchInDir w dir = ([], Some ("directory does not exist: " +:+ dir)).
Proof.
  unfold launchInDir. intros Hv Hd. rewrite (eqb_empty_false _ Hv). simpl.
  destruct (stat w dir) as [[|]|]; congruence.
Qed.

Lemma launchInDir_no_directory_sample :
  launchInDir
    (mkWorld {[ "GO_DASH_LAUNCH_IN_DIR" := "1" ]}
             (fun _ => None) (fun _ => None))
    "/nowhere"
  = ([], Some "directory does not exist: /nowhere").
Proof.
  apply (launchInDir_no_directory
           (mkWorld {[ "GO_DASH_LAUNCH_IN_DIR" := "1" ]}
                    (fun _ => None) (fun _ => None))
           "/nowhere");
    [vm_compute; discriminate | discriminate].
Defined.

End ShellHelperFacts.

(** ** The launcher that restarts its UI loop *)

Module LauncherFacts.
Import GoStrings GoStringsFacts Sys Gocui Launcher.

(** *** The add-entry form *)

Section AddForm.
Context `{Json}.

(** C10: when the name field or the command field is empty once its
    trailing line feeds and carriage returns are trimmed, [saveNewApp]
    changes nothing: the list of applications, the files, the log and the
    views are as before. *)
Theorem saveNewApp_blank_noop (g : Gui) (v : string) (p : Process) :
  (exists nameV, getView g "add_name" = Some nameV /\ trimViewText nameV = "")
  \/ (exists cmdV, getView g "add_cmd" = Some cmdV /\ trimViewText cmdV = "") ->
  fst (saveNewApp g v p) = (g, p).
Proof.
  unfold saveNewApp. intros [(nameV & -> & Hn) | (cmdV & -> & Hc)].
  - destruct (getView g "add_cmd"); [|reflexivity]. rewrite Hn. reflexivity.
  - destruct (getView g "add_name"); [|reflexivity]. rewrite Hc.
    rewrite orb_true_r. reflexivity.
Qed.

(** What [saveNewApp] does when both fields are filled in. *)
Lemma saveNewApp_filled g v p nameV cmdV :
  getView g "add_name" = Some nameV ->
  getView g "add_cmd" = Some cmdV ->
  trimViewText nameV <> "" ->
  trimViewText cmdV <> "" ->
  let apps :=
    applications p
    ++ [mkApplication (trimViewText nameV) (trimViewText cmdV)] in
  exists g',
    saveNewApp g v p
    = (g',
       match writeConfig (fs p) "config.json" apps with
       | (fs', Some err) =>
           logln "Error writing config:" err
                 (set_fs fs' (set_applications apps p))
       | (fs', None) => set_fs fs' (set_applications apps p)
       end,
       None).
Proof.
  intros Hn Hc Hne Hce. unfold saveNewApp. rewrite Hn, Hc.
  apply String.eqb_neq in Hne, Hce. rewrite Hne, Hce. simpl.
  destruct (cancelAddModal g "" _) as [[g' p'] e'] eqn:E. cbv zeta.
  eexists. reflexivity.
Qed.

(** C4: for any list of applications and any entry whose name and command
    are not empty, saving through the form and then loading the
    configuration file gives the list as it was, in its order, with the new
    entry appended at the end. The file can be written, and [encoding/json]
    reads back the configuration it has written. *)
Theorem saveNewApp_then_loadConfig
    (g : Gui) (v : string) (p : Process) (nameV cmdV : View) (data : string) :
  getView g "add_name" = Some nameV ->
  getView g "add_cmd" = Some cmdV ->
  trimViewText nameV <> "" ->
  trimViewText cmdV <> "" ->
  readOnly (fs p) = false ->
  let entry := mkApplication (trimViewText nameV) (trimViewText cmdV) in
  MarshalIndent (mkConfig (applications p ++ [entry])) = (data, None) ->
  Unmarshal data (mkConfig []) = (mkConfig (applications p ++ [entry]), None) ->
  let p' := snd (fst (saveNewApp g v p)) in
  snd (saveNewApp g v p) = None
  /\ applications p' = applications p ++ [entry]
  /\ loadConfig (fs p') "config.json"
     = (mkConfig (applications p ++ [entry]), None)
  /\ trace p' = trace p.
Proof.
  intros Hn Hc Hne Hce Hrw entry Hm Hu.
  destruct (saveNewApp_filled g v p nameV cmdV Hn Hc Hne Hce) as [g' ->].
  fold entry. cbv zeta. unfold writeConfig. rewrite Hm.
  unfold WriteFile. rewrite Hrw. simpl.
  repeat split.
  unfold loadConfig, ReadFile. simpl. rewrite lookup_insert_eq. exact Hu.
Qed.

End AddForm.

(** *** Trimming a field *)

Lemma lastByte_dropLast s a :
  lastByte s = Some a -> s = dropLast s +:+ String a "".
Proof.
  induction s as [|b r IH]; [discriminate|].
  destruct r as [|c r']; [intros [= ->]; reflexivity|].
  intros Hl. change (lastByte (String c r') = Some a) in Hl.
  change (String b (String c r')
          = String b (dropLast (String c r') +:+ String a "")).
  f_equal. apply IH. exact Hl.
Qed.

Lemma dropLast_length s :
  String.length (dropLast s) = pred (String.length s).
Proof.
  induction s as [|b r IH]; [auto|].
  destruct r as [|c r']; [reflexivity|].
  change (S (String.length (dropLast (String c r')))
          = S (String.length r')).
  rewrite IH. reflexivity.
Qed.

Lemma allNewlines_app s t :
  allNewlines (s +:+ t) = allNewlines s && allNewlines t.
Proof.
  induction s as [|a r IH]; [auto|].
  rewrite append_cons. simpl. rewrite IH, andb_assoc. auto.
Qed.

(** The loop of [trimViewText] ends within its fuel: it returns the text
    without its trailing line feeds and carriage returns, all of them. *)
Lemma trimLoop_spec fuel text :
  (String.length text <= fuel)%nat ->
  exists tail,
    text = trimLoop fuel text +:+ tail
    /\ allNewlines tail = true
    /\ forall a, lastByte (trimLoop fuel text) = Some a -> isNewline a = false.
Proof.
  revert text. induction fuel as [|fuel IH]; intros text Hlen; simpl.
  - destruct text; [|simpl in Hlen; lia]. exists "". repeat split.
    discriminate.
  - destruct (lastByte text) as [last|] eqn:El.
    + destruct (isNewline last) eqn:En.
      * destruct (IH (dropLast text)) as (tail & Et & Ht & Hl).
        { rewrite dropLast_length. lia. }
        exists (tail +:+ String last ""). repeat split; [| |exact Hl].
        -- rewrite <- append_assoc, <- Et. apply lastByte_dropLast. exact El.
        -- rewrite allNewlines_app, Ht. simpl. rewrite En. reflexivity.
      * exists "". repeat split.
        -- symmetry. apply append_nil_r.
        -- intros a. rewrite El. intros [= <-]. exact En.
    + exists "". repeat split.
      * symmetry. apply append_nil_r.
      * rewrite El. discriminate.
Qed.

Lemma trimViewText_spec v :
  exists tail,
    Buffer v = trimViewText v +:+ tail
    /\ allNewlines tail = true
    /\ forall a, lastByte (trimViewText v) = Some a -> isNewline a = false.
Proof. apply trimLoop_spec. auto. Qed.

(** X3: a field is blank, [trimViewText] returning the empty string, exactly
    when its buffer holds line feeds and carriage returns only. *)
Lemma trimViewText_blank v :
  trimViewText v = "" <-> allNewlines (Buffer v) = true.
Proof.
  destruct (trimViewText_spec v) as (tail & Eb & Ht & Hl). split.
  - intros E. rewrite Eb, E. exact Ht.
  - intros Hb. rewrite Eb, allNewlines_app in Hb.
    apply andb_true_iff in Hb as [Hb _].
    destruct (lastByte (trimViewText v)) as [a|] eqn:El.
    + specialize (Hl a eq_refl).
      rewrite (lastByte_dropLast _ _ El), allNewlines_app in Hb.
      simpl in Hb. rewrite Hl, andb_false_r in Hb. discriminate.
    + destruct (trimViewText v) as [|b r]; [reflexivity|].
      exfalso. clear -El. revert b El.
      induction r as [|c r IH]; intros b El; [discriminate|].
      apply (IH c). exact El.
Qed.

(** *** Traces *)

Lemma uiOwns_snoc tr e : uiOwns (tr ++ [e]) = ownsAfter (uiOwns tr) e.
Proof. unfold uiOwns. rewrite foldl_app. reflexivity. Qed.

Lemma uiOwns_logged tr l :
  forallb isLogged l = true -> uiOwns (tr ++ l) = uiOwns tr.
Proof.
  unfold uiOwns. rewrite foldl_app. generalize (foldl ownsAfter false tr).
  induction l as [|e l IH]; intros o; simpl; [auto|].
  intros Hl. apply andb_true_iff in Hl as [He Hl].
  destruct e; try discriminate. simpl. auto.
Qed.

(** A child started under the UI in a trace with one more event: it was
    there before, or the new event is the start. *)
Lemma startedUnderUI_snoc tr e :
  startedUnderUI (tr ++ [e])
  <-> startedUnderUI tr
      \/ (exists command, e = ChildStarted command) /\ uiOwns tr = true.
Proof.
  unfold startedUnderUI. split.
  - intros (before & command & after & E & Ho).
    destruct after as [|x after _] using rev_ind.
    + apply app_inj_tail in E as [-> ->]. right. eauto.
    + rewrite app_comm_cons, app_assoc in E.
      apply app_inj_tail in E as [-> ->]. left. eauto.
  - intros [(before & command & after & -> & Ho) | [[command ->] Ho]].
    + exists before, command, (after ++ [e]).
      rewrite <- app_assoc. simpl. auto.
    + exists tr, command, []. auto.
Qed.

Lemma startedUnderUI_nil : ~ startedUnderUI [].
Proof.
  intros (before & command & after & E & _).
  destruct before; discriminate.
Qed.

Lemma startedUnderUI_logged tr l :
  forallb isLogged l = true -> startedUnderUI (tr ++ l) -> startedUnderUI tr.
Proof.
  induction l as [|e l IH] using rev_ind; [rewrite app_nil_r; auto|].
  rewrite forallb_app. simpl. rewrite andb_true_r, app_assoc.
  intros Hl. apply andb_true_iff in Hl as [Hl He].
  rewrite startedUnderUI_snoc. intros [Hs | [[c ->] _]]; [auto|discriminate].
Qed.

Lemma quietly_refl p p' : trace p' = trace p -> quietly p p'.
Proof. intros E. exists []. rewrite app_nil_r. auto. Qed.

Lemma quietly_trans p1 p2 p3 : quietly p1 p2 -> quietly p2 p3 -> quietly p1 p3.
Proof.
  intros (l1 & E1 & H1) (l2 & E2 & H2). exists (l1 ++ l2).
  rewrite E2, E1, app_assoc, forallb_app, H1, H2. auto.
Qed.

Section Loop.
Context `{Lib}.

Lemma execKeybindings_quiet kbs v k matched g p :
  Forall (fun kb => quietHandler (handler kb)) kbs ->
  quietly p (snd (fst (execKeybindings kbs v k matched g p))).
Proof.
  intros Hk. revert matched g p.
  induction Hk as [|kb kbs Hkb _ IH]; intros matched g p; simpl.
  - apply quietly_refl. reflexivity.
  - destruct (key_eqb (key kb) k && matchView kb v); [|apply IH].
    specialize (Hkb g (default "" v) p).
    destruct (handler kb g (default "" v) p) as [[g' p'] [err|]]; simpl in *;
      [exact Hkb|].
    eapply quietly_trans; [exact Hkb | apply IH].
Qed.

Lemma onKey_quiet kbs k g p :
  Forall (fun kb => quietHandler (handler kb)) kbs ->
  quietly p (snd (fst (onKey kbs k g p))).
Proof.
  intros Hk. unfold onKey.
  pose proof (execKeybindings_quiet kbs (currentView g) k false g p Hk) as Hq.
  destruct (execKeybindings kbs (currentView g) k false g p)
    as [[g' p'] [[|] [err|]]]; simpl in *; try exact Hq.
  repeat case_match; exact Hq.
Qed.

(** [MainLoop] adds lines of the log only, and when it returns it has read
    a key. *)
Lemma eventLoop_quiet layout kbs keys g p :
  Forall (fun kb => quietHandler (handler kb)) kbs ->
  quietly p (snd (eventLoop layout kbs keys g p))
  /\ forall err rest,
       fst (eventLoop layout kbs keys g p) = inr (err, rest) ->
       (length rest < length keys)%nat.
Proof.
  intros Hk. revert g p.
  induction keys as [|k keys IH]; intros g p; simpl.
  - split; [apply quietly_refl; reflexivity | discriminate].
  - pose proof (onKey_quiet kbs k g p Hk) as Hq.
    destruct (onKey kbs k g p) as [[g' p'] [err|]]; simpl in *.
    + split; [exact Hq|]. intros err' rest [= _ <-]. lia.
    + destruct (IH (layout g') p') as [Hq' Hlen]. split.
      * eapply quietly_trans; eauto.
      * intros err rest E. specialize (Hlen err rest E). lia.
Qed.

End Loop.

(** *** The handlers and [run] *)

Section Run.
Context `{Json} `{Lib}.

Ltac quiet :=
  intros g v p; unfold quit, cursorDown, cursorUp, runApp, refreshDashboard,
    openAddModal, switchAddField, cancelAddModal;
  repeat case_match; simpl; apply quietly_refl; reflexivity.

Lemma quit_quiet : quietHandler quit.
Proof. quiet. Qed.
Lemma cursorDown_quiet : quietHandler cursorDown.
Proof. quiet. Qed.
Lemma cursorUp_quiet : quietHandler cursorUp.
Proof. quiet. Qed.
Lemma runApp_quiet : quietHandler runApp.
Proof. quiet. Qed.
Lemma refreshDashboard_quiet : quietHandler refreshDashboard.
Proof. quiet. Qed.
Lemma openAddModal_quiet : quietHandler openAddModal.
Proof. quiet. Qed.
Lemma switchAddField_quiet : quietHandler switchAddField.
Proof. quiet. Qed.
Lemma cancelAddModal_quiet : quietHandler cancelAddModal.
Proof. quiet. Qed.

Lemma saveNewApp_quiet : quietHandler saveNewApp.
Proof.
  intros g v p. unfold saveNewApp.
  destruct (getView g "add_name") as [nameV|];
    [|apply quietly_refl; reflexivity].
  destruct (getView g "add_cmd") as [cmdV|];
    [|apply quietly_refl; reflexivity].
  destruct (_ || _); [apply quietly_refl; reflexivity|].
  destruct (cancelAddModal g "" _) as [[g' p'] e'].
  destruct (writeConfig _ _ _) as [fs' [err|]]; simpl.
  - exists [Logged "Error writing config:" err]. auto.
  - apply quietly_refl. reflexivity.
Qed.

Lemma keybindings_quiet :
  Forall (fun kb => quietHandler (handler kb)) keybindings.
Proof.
  unfold keybindings.
  repeat constructor; simpl;
    auto using quit_quiet, cursorDown_quiet, cursorUp_quiet, runApp_quiet,
      refreshDashboard_quiet, openAddModal_quiet, switchAddField_quiet,
      cancelAddModal_quiet, saveNewApp_quiet.
Qed.

(** The events of one [run]: none when [NewGui] fails; else [GuiOpened],
    lines of the log and, once [MainLoop] has returned, [GuiClosed]. *)
Lemma run_trace env keys p :
  match run env keys p with
  | (Waiting _, p') =>
      exists l, forallb isLogged l = true
                /\ trace p' = trace p ++ GuiOpened :: l
  | (Returned err rest, p') =>
      (isRestart err = false /\ isQuit err = false /\ trace p' = trace p)
      \/ ((length rest < length keys)%nat
          /\ exists l, forallb isLogged l = true
                       /\ trace p' = trace p ++ GuiOpened :: l ++ [GuiClosed])
  end.
Proof.
  unfold run. destruct (newGui env (guis p)) as [text|]; [left; auto|].
  unfold MainLoop.
  destruct (eventLoop_quiet layout keybindings keys (layout emptyGui)
              (emit GuiOpened (count_gui p)) keybindings_quiet)
    as [(l & El & Hl) Hlen].
  destruct (eventLoop _ _ _ _ _) as [[g'|[err rest]] p']; simpl in *.
  - exists l. split; [auto|]. rewrite El, <- app_assoc. reflexivity.
  - right. split; [eapply Hlen; eauto|].
    exists l. split; [auto|]. rewrite El, <- !app_assoc. reflexivity.
Qed.

End Run.

(** *** The child *)

(** The events of [runApplication], by the outcome of the child. *)
Lemma runApplication_trace env app p :
  trace (runApplication env app p)
  = trace p
    ++ match child env (children p) (Command app) with
       | StartFailed err => [Logged "Error starting command:" err]
       | Waited None => [ChildStarted (Command app); ChildDone]
       | Waited (Some err) =>
           if endsQuietly (Waited (Some err))
           then [ChildStarted (Command app); ChildDone]
           else [ChildStarted (Command app); ChildDone;
                 Logged "Error running command:" err]
       end.
Proof.
  unfold runApplication.
  destruct (child env (children p) (Command app)) as [err|[err|]]; simpl;
    rewrite <- ?app_assoc; try reflexivity.
  destruct err as [| | |[code|sig]|text]; simpl; rewrite <- ?app_assoc;
    try reflexivity.
  destruct ((sig =? SIGINT) || (sig =? SIGTERM)); simpl;
    rewrite <- ?app_assoc; reflexivity.
Qed.

(** X2: whatever the child does, [runApplication] tells a death by SIGINT or
    SIGTERM from a failure: after such a death, as after an exit with status
    0, nothing is logged; any other error of [Wait] is logged once. *)
Theorem runApplication_classifies (env : Env) (app : Application) (p : Process) :
  match child env (children p) (Command app) with
  | Waited (Some err) =>
      trace (runApplication env app p)
      = trace p ++ [ChildStarted (Command app); ChildDone]
        ++ match err with
           | ExitError (Signaled sig) =>
               if (sig =? SIGINT) || (sig =? SIGTERM) then []
               else [Logged "Error running command:" err]
           | _ => [Logged "Error running command:" err]
           end
  | Waited None =>
      trace (runApplication env app p)
      = trace p ++ [ChildStarted (Command app); ChildDone]
  | StartFailed err =>
      trace (runApplication env app p)
      = trace p ++ [Logged "Error starting command:" err]
  end.
Proof.
  rewrite runApplication_trace.
  destruct (child env (children p) (Command app)) as [err|[err|]];
    try reflexivity.
  destruct err as [| | |[code|sig]|text]; try reflexivity.
  simpl. destruct ((sig =? SIGINT) || (sig =? SIGTERM)); reflexivity.
Qed.

(** *** The loop of [main] *)

(** With the UI closed, events that open no UI start no child under it. *)
Lemma closed_app tr l :
  ~ startedUnderUI tr -> uiOwns tr = false ->
  forallb opensNoGui l = true ->
  ~ startedUnderUI (tr ++ l) /\ uiOwns (tr ++ l) = false.
Proof.
  intros Hs Ho. induction l as [|e l IH] using rev_ind.
  - rewrite app_nil_r. auto.
  - rewrite forallb_app. simpl. rewrite andb_true_r.
    intros Hl. apply andb_true_iff in Hl as [Hl He].
    destruct (IH Hl) as [Hs' Ho']. rewrite app_assoc. split.
    + rewrite startedUnderUI_snoc. intros [?|[_ ?]]; [auto|congruence].
    + rewrite uiOwns_snoc, Ho'. destruct e; auto; discriminate.
Qed.

(** A session of the UI, with its lines of the log, starts no child. *)
Lemma session_app tr l :
  ~ startedUnderUI tr -> forallb isLogged l = true ->
  ~ startedUnderUI (tr ++ GuiOpened :: l)
  /\ ~ startedUnderUI (tr ++ GuiOpened :: l ++ [GuiClosed])
  /\ uiOwns (tr ++ GuiOpened :: l ++ [GuiClosed]) = false.
Proof.
  intros Hs Hl.
  assert (~ startedUnderUI (tr ++ GuiOpened :: l)) as H1.
  { change (GuiOpened :: l) with ([GuiOpened] ++ l). rewrite app_assoc.
    intros H1. apply startedUnderUI_logged in H1; [|auto].
    apply startedUnderUI_snoc in H1 as [?|[[c ?] _]]; [auto|discriminate]. }
  split; [exact H1|].
  change (GuiOpened :: l ++ [GuiClosed]) with ((GuiOpened :: l) ++ [GuiClosed]).
  rewrite app_assoc. split.
  - rewrite startedUnderUI_snoc. intros [?|[[c ?] _]]; [auto|discriminate].
  - rewrite uiOwns_snoc. reflexivity.
Qed.

Section Main.
Context `{Json} `{Lib}.

Lemma runApplication_closed env app p :
  ~ startedUnderUI (trace p) -> uiOwns (trace p) = false ->
  ~ startedUnderUI (trace (runApplication env app p))
  /\ uiOwns (trace (runApplication env app p)) = false.
Proof.
  intros Hs Ho. rewrite runApplication_trace. apply closed_app; auto.
  repeat case_match; reflexivity.
Qed.

Lemma mainLoop_handoff fuel env keys p :
  ~ startedUnderUI (trace p) -> uiOwns (trace p) = false ->
  ~ startedUnderUI (trace (snd (mainLoop fuel env keys p))).
Proof.
  revert keys p. induction fuel as [|fuel IH]; intros keys p Hs Ho; simpl;
    [exact Hs|].
  pose proof (run_trace env keys p) as Hr.
  destruct (run env keys p) as [[g|err rest] p']; simpl.
  - destruct Hr as (l & Hl & ->). apply session_app; auto.
  - assert (~ startedUnderUI (trace p') /\ uiOwns (trace p') = false)
      as [Hs' Ho'].
    { destruct Hr as [(_ & _ & ->) | (_ & l & Hl & ->)]; [auto|].
      apply session_app; auto. }
    destruct (isRestart err).
    + apply IH; destruct (pendingApp p'); auto;
        apply runApplication_closed; auto.
    + destruct (negb (isQuit err)); simpl; [|exact Hs'].
      apply (closed_app _ [Panicked "" err]); auto.
Qed.

(** X1: in every run of the restarting launcher, on any keys and whatever the
    outside answers, no child is started while the UI owns the terminal:
    each start comes after the [GuiClosed] of the UI before it. *)
Theorem main_handoff (env : Env) (keys : list Key)
    (apps : list Application) (pending : option Application) (disk : FS)
    (n k : nat) :
  ~ startedUnderUI
      (trace (snd (main env keys (mkProcess apps pending disk n k [])))).
Proof.
  set (p := mkProcess apps pending disk n k []).
  assert (~ startedUnderUI (trace p) /\ uiOwns (trace p) = false) as [Hs Ho].
  { split; [apply startedUnderUI_nil | reflexivity]. }
  unfold main.
  assert (forall q err text, trace q = trace p ->
            ~ startedUnderUI (trace (emit (Panicked text err) q))) as Hpanic.
  { intros q err text Hq. simpl. rewrite Hq.
    apply (closed_app _ [Panicked text err]); auto. }
  assert (forall q, trace q = trace p ->
            ~ startedUnderUI
                (trace (snd match loadConfig (fs q) "config.json" with
                            | (_, Some err) =>
                                (Crashed,
                                 emit (Panicked "Error loading config:" err) q)
                            | (config, None) =>
                                mainLoop (S (length keys)) env keys
                                  (set_applications (Applications config) q)
                            end))) as Hload.
  { intros q Hq. destruct (loadConfig (fs q) "config.json") as [config [err|]].
    - apply Hpanic; auto.
    - apply mainLoop_handoff; simpl; rewrite Hq; auto. }
  destruct (fileExists (fs p) "config.json"); [apply Hload; auto|].
  unfold createDefaultConfig.
  destruct (MarshalIndent _) as [file [err|]]; [apply Hpanic; auto|].
  destruct (WriteFile _ _ _) as [fs' [err|]]; [apply Hpanic; auto|].
  apply Hload. reflexivity.
Qed.

(** The fuel of [mainLoop] is never used up: [main] always ends in one of
    the three ways the program can. *)
Lemma mainLoop_fuel fuel env keys p :
  (length keys < fuel)%nat -> fst (mainLoop fuel env keys p) <> OutOfFuel.
Proof.
  revert keys p. induction fuel as [|fuel IH]; intros keys p Hf; [lia|].
  simpl. pose proof (run_trace env keys p) as Hr.
  destruct (run env keys p) as [[g|err rest] p']; simpl; [discriminate|].
  destruct Hr as [(-> & -> & _) | (Hlen & _)]; simpl; [discriminate|].
  destruct (isRestart err); [apply IH; lia|].
  destruct (negb (isQuit err)); discriminate.
Qed.

Theorem main_total (env : Env) (keys : list Key) (p : Process) :
  fst (main env keys p) <> OutOfFuel.
Proof.
  unfold main.
  assert (forall q,
            fst match loadConfig (fs q) "config.json" with
                | (_, Some err) =>
                    (Crashed, emit (Panicked "Error loading config:" err) q)
                | (config, None) =>
                    mainLoop (S (length keys)) env keys
                      (set_applications (Applications config) q)
                end <> OutOfFuel) as Hload.
  { intros q. destruct (loadConfig (fs q) "config.json") as [config [err|]];
      [discriminate|]. apply mainLoop_fuel. lia. }
  destruct (fileExists (fs p) "config.json"); [apply Hload|].
  destruct (createDefaultConfig p); [apply Hload | discriminate].
Qed.

(** After [ErrRestart] the loop runs the pending application and goes on
    with [run], whatever became of the child. *)
Lemma mainLoop_restart fuel env keys p rest p' app :
  run env keys p = (Returned ErrRestart rest, p') ->
  pendingApp p' = Some app ->
  mainLoop (S fuel) env keys p
  = mainLoop fuel env rest (runApplication env app (set_pendingApp None p')).
Proof. intros Hr Hp. simpl. rewrite Hr. simpl. rewrite Hp. reflexivity. Qed.

End Main.

Import Sample.

(** *** Examples on the default configuration *)

Lemma saveNewApp_blank_noop_sample :
  fst (saveNewApp (formWith ("htop" +:+ LF) LF) "add_cmd" emptyDisk)
  = (formWith ("htop" +:+ LF) LF, emptyDisk).
Proof.
  apply (saveNewApp_blank_noop (formWith ("htop" +:+ LF) LF) "add_cmd" emptyDisk).
  right. exists (mkView LF 0 true). split; reflexivity.
Defined.

Lemma saveNewApp_then_loadConfig_sample :
  let p := set_applications defaultApplications emptyDisk in
  let g := formWith ("htop" +:+ LF) ("htop -d 5" +:+ LF) in
  snd (saveNewApp g "add_cmd" p) = None
  /\ applications (snd (fst (saveNewApp g "add_cmd" p)))
     = defaultApplications ++ [mkApplication "htop" "htop -d 5"]
  /\ loadConfig (fs (snd (fst (saveNewApp g "add_cmd" p)))) "config.json"
     = (mkConfig (defaultApplications ++ [mkApplication "htop" "htop -d 5"]),
        None)
  /\ trace (snd (fst (saveNewApp g "add_cmd" p))) = [].
Proof.
  cbv zeta.
  apply (saveNewApp_then_loadConfig
           (formWith ("htop" +:+ LF) ("htop -d 5" +:+ LF)) "add_cmd"
           (set_applications defaultApplications emptyDisk)
           (mkView ("htop" +:+ LF) 0 true) (mkView ("htop -d 5" +:+ LF) 0 true)
           (encode (mkConfig (defaultApplications
                              ++ [mkApplication "htop" "htop -d 5"]))));
    try reflexivity; vm_compute; discriminate.
Defined.

(** The keys of the form, end to end: [a] opens it, the runes fill the
    name, Tab moves to the command, Enter saves; the entry is appended and
    it is the fourth line of the list that Enter launches next. *)
Lemma add_then_launch :
  let r := main (always (Waited None))
             [KeyRune "a"; KeyRune "x"; KeyTab; KeyRune "l"; KeyRune "s";
              KeyEnter; KeyArrowDown; KeyArrowDown; KeyArrowDown; KeyEnter]
             emptyDisk in
  applications (snd r) = defaultApplications ++ [mkApplication "x" "ls"]
  /\ trace (snd r)
     = [GuiOpened; GuiClosed; ChildStarted "ls"; ChildDone; GuiOpened]
  /\ loadConfig (fs (snd r)) "config.json"
     = (mkConfig (defaultApplications ++ [mkApplication "x" "ls"]), None).
Proof. vm_compute. auto. Qed.

End LauncherFacts.

(** ** The older launcher *)

Module LauncherV1Facts.
Import Sys Gocui Launcher Sample.

(** C2 fails in the older launcher: its [runApp] logs every error of
    [cmd.Run]. On the default configuration, Enter on the first line with a
    child that is killed by SIGINT: the death is logged as an error, and
    then the UI is opened again. The restarting launcher logs nothing on
    the same input. *)
Theorem v1_logs_interrupted_child :
  let env := always (Waited (Some (ExitError (Signaled SIGINT)))) in
  trace (snd (LauncherV1.main env [KeyEnter] emptyDisk))
  = [GuiOpened; ChildStarted "lazygit"; ChildDone;
     Logged "Error running command:" (ExitError (Signaled SIGINT));
     GuiClosed; GuiOpened]
  /\ (exists g, fst (LauncherV1.main env [KeyEnter] emptyDisk) = Interactive g)
  /\ trace (snd (Launcher.main env [KeyEnter] emptyDisk))
     = [GuiOpened; GuiClosed; ChildStarted "lazygit"; ChildDone; GuiOpened]
  /\ (exists g, fst (Launcher.main env [KeyEnter] emptyDisk) = Interactive g).
Proof.
  cbv zeta. split; [reflexivity|]. split; [eexists; reflexivity|].
  split; [reflexivity|]. eexists. reflexivity.
Qed.

(** The same for SIGTERM. *)
Lemma v1_logs_terminated_child :
  let env := always (Waited (Some (ExitError (Signaled SIGTERM)))) in
  trace (snd (LauncherV1.main env [KeyEnter] emptyDisk))
  = [GuiOpened; ChildStarted "lazygit"; ChildDone;
     Logged "Error running command:" (ExitError (Signaled SIGTERM));
     GuiClosed; GuiOpened]
  /\ trace (snd (Launcher.main env [KeyEnter] emptyDisk))
     = [GuiOpened; GuiClosed; ChildStarted "lazygit"; ChildDone; GuiOpened].
Proof. split; reflexivity. Qed.

(** C3 fails in the older launcher: its [runApp] runs the child inside the
    key handler, before [MainLoop] returns and the deferred [g.Close()]
    runs. On the default configuration, Enter on the first line: the child
    is started while the UI owns the terminal. *)
Theorem v1_starts_child_under_ui :
  trace (snd (LauncherV1.main (always (Waited None)) [KeyEnter] emptyDisk))
  = [GuiOpened; ChildStarted "lazygit"; ChildDone; GuiClosed; GuiOpened]
  /\ startedUnderUI
       (trace (snd (LauncherV1.main (always (Waited None)) [KeyEnter]
                      emptyDisk))).
Proof.
  split; [reflexivity|].
  exists [GuiOpened], "lazygit", [ChildDone; GuiClosed; GuiOpened].
  split; reflexivity.
Qed.

(** A failure of the child is logged and the UI opened again: on this the
    two launchers agree. *)
Lemma failed_child_is_logged :
  let env := always (Waited (Some (ExitError (Exited 1)))) in
  trace (snd (LauncherV1.main env [KeyEnter] emptyDisk))
  = [GuiOpened; ChildStarted "lazygit"; ChildDone;
     Logged "Error running command:" (ExitError (Exited 1));
     GuiClosed; GuiOpened]
  /\ trace (snd (Launcher.main env [KeyEnter] emptyDisk))
     = [GuiOpened; GuiClosed; ChildStarted "lazygit"; ChildDone;
        Logged "Error running command:" (ExitError (Exited 1)); GuiOpened].
Proof. split; reflexivity. Qed.

End LauncherV1Facts.

(** ** More of Go's strings *)

Module GoTextFacts.
Import GoStrings GoStringsFacts GoText.

Lemma lenS_nonneg s : 0 <= lenS s.
Proof. unfold lenS. lia. Qed.

Lemma lenS_app s t : lenS (s +:+ t) = lenS s + lenS t.
Proof.
  unfold lenS. induction s as [|a r IH].
  - change (EmptyString +:+ t) with t. simpl. lia.
  - rewrite append_cons. simpl String.length. lia.
Qed.

Lemma lenS_takeBytes n s : lenS (takeBytes n s) = Z.min (Z.of_nat n) (lenS s).
Proof.
  unfold lenS. revert s. induction n as [|n IH]; intros [|a r]; simpl;
    try lia.
  specialize (IH r). lia.
Qed.

Lemma lenS_repeatString n s : lenS (repeatString n s) = Z.of_nat n * lenS s.
Proof.
  induction n as [|n IH]; [reflexivity|].
  simpl repeatString. rewrite lenS_app, IH. lia.
Qed.

Lemma sliceTo_Some s n :
  0 <= n <= lenS s ->
  sliceTo s n = Some (takeBytes (Z.to_nat n) s)
  /\ lenS (takeBytes (Z.to_nat n) s) = n.
Proof.
  intros Hn. unfold sliceTo.
  destruct (Z.ltb_spec n 0); [lia|]. rewrite Z.gtb_ltb.
  destruct (Z.ltb_spec (lenS s) n); [lia|]. simpl.
  split; [reflexivity|]. rewrite lenS_takeBytes. lia.
Qed.

Lemma sliceTo_negative s n : n < 0 -> sliceTo s n = None.
Proof. intros Hn. unfold sliceTo. destruct (Z.ltb_spec n 0); [auto|lia]. Qed.

Lemma lenS_zero s : lenS s = 0 -> s = EmptyString.
Proof. destruct s; [reflexivity | unfold lenS; simpl; lia]. Qed.

Section WithHeap.
Context `{Heap}.

Lemma maxAlloc_maxInt : 0 <= maxAlloc <= maxInt.
Proof.
  pose proof maxAlloc_range as [H0 H1]. split; [exact H0|].
  apply (Z.le_trans _ _ _ H1). vm_compute. discriminate.
Qed.

(** [Repeat] gives [count] copies when the count is not negative and the
    result is within what the runtime allocates. *)
Lemma Repeat_Some s count :
  0 <= count -> lenS s * count <= maxAlloc ->
  Repeat s count = Some (repeatString (Z.to_nat count) s)
  /\ lenS (repeatString (Z.to_nat count) s) = count * lenS s.
Proof.
  intros Hc Hm. pose proof maxAlloc_maxInt as Hi.
  assert (lenS (repeatString (Z.to_nat count) s) = count * lenS s) as L.
  { rewrite lenS_repeatString, Z2Nat.id by lia. reflexivity. }
  split; [|exact L].
  unfold Repeat.
  destruct (Z.eqb_spec count 0) as [->|]; [reflexivity|].
  destruct (Z.eqb_spec count 1) as [->|].
  { simpl. rewrite append_nil_r. reflexivity. }
  destruct (Z.ltb_spec count 0); [lia|]. rewrite !Z.gtb_ltb.
  destruct (Z.ltb_spec maxInt (lenS s * count)); [lia|].
  destruct (Z.eqb_spec (lenS s * count) 0) as [E0|].
  - f_equal. symmetry. apply lenS_zero. lia.
  - destruct (Z.ltb_spec maxAlloc (lenS s * count)); [lia|]. reflexivity.
Qed.

Lemma Repeat_negative s count : count < 0 -> Repeat s count = None.
Proof.
  intros Hc. unfold Repeat.
  destruct (Z.eqb_spec count 0); [lia|]. destruct (Z.eqb_spec count 1); [lia|].
  destruct (Z.ltb_spec count 0); [reflexivity|lia].
Qed.

(** More than one copy, and more bytes than the runtime allocates. *)
Lemma Repeat_over s count :
  1 < count -> maxAlloc < lenS s * count -> Repeat s count = None.
Proof.
  intros Hc Hm. pose proof maxAlloc_maxInt as Hi. unfold Repeat.
  destruct (Z.eqb_spec count 0); [lia|]. destruct (Z.eqb_spec count 1); [lia|].
  destruct (Z.ltb_spec count 0); [lia|]. rewrite !Z.gtb_ltb.
  destruct (Z.ltb_spec maxInt (lenS s * count)); [reflexivity|].
  destruct (Z.eqb_spec (lenS s * count) 0); [lia|].
  destruct (Z.ltb_spec maxAlloc (lenS s * count)); [reflexivity|lia].
Qed.

End WithHeap.

Lemma splitByte_nonempty sep s : splitByte sep s <> [].
Proof.
  destruct s as [|a r]; simpl; [discriminate|].
  destruct (Ascii.eqb a sep); [discriminate|].
  destruct (splitByte sep r); discriminate.
Qed.

End GoTextFacts.

(** ** The rendering of the dashboard *)

Module DashViewFacts.
Import GoStrings GoStringsFacts GoText GoTextFacts Dash DashFacts DashView.

Section WithHeap.
Context `{Heap}.

Lemma repeatSpace_Some n :
  0 <= n <= maxAlloc ->
  repeatSpace n = Some (repeatString (Z.to_nat n) " ")
  /\ lenS (repeatString (Z.to_nat n) " ") = n.
Proof.
  intros Hn. unfold repeatSpace.
  destruct (Repeat_Some " " n) as [-> E]; [lia | unfold lenS; simpl; lia|].
  split; [reflexivity|]. rewrite E. unfold lenS. simpl. lia.
Qed.

(** X7: for every width from 0 up to what the runtime allocates,
    [padRight] returns exactly [width] bytes: the first [width] bytes of a
    text that long, else the text followed by spaces. A negative width is a
    run-time panic, and so is a padding of more bytes than the runtime
    allocates. *)
Theorem padRight_width (text : string) (width : Z) :
  (0 <= width <= maxAlloc ->
   exists s,
     padRight text width = Some s /\ lenS s = width
     /\ s = if lenS text >=? width
            then takeBytes (Z.to_nat width) text
            else text +:+ repeatString (Z.to_nat (width - lenS text)) " ")
  /\ (width < 0 -> padRight text width = None)
  /\ (1 < width - lenS text -> maxAlloc < width - lenS text ->
      padRight text width = None).
Proof.
  pose proof (lenS_nonneg text) as Ht. unfold padRight.
  split; [|split].
  - intros Hw. rewrite Z.geb_leb.
    destruct (Z.leb_spec width (lenS text)).
    + destruct (sliceTo_Some text width) as [-> E]; [lia|]. eauto.
    + destruct (repeatSpace_Some (width - lenS text)) as [-> E]; [lia|].
      simpl. eexists. split; [reflexivity|]. split; [|reflexivity].
      rewrite lenS_app, E. lia.
  - intros Hw. rewrite Z.geb_leb.
    destruct (Z.leb_spec width (lenS text)); [|lia].
    apply sliceTo_negative. exact Hw.
  - intros H1 Hm. rewrite Z.geb_leb.
    destruct (Z.leb_spec width (lenS text)); [lia|].
    unfold repeatSpace. rewrite Repeat_over; [reflexivity | lia |].
    change (lenS " ") with 1. lia.
Qed.

(** X8: for every width from 0 up to what the runtime allocates,
    [padCenter] returns exactly [width] bytes; a shorter text sits between
    spaces, as many on the right as on the left or one more. A negative
    width is a run-time panic, and so is a padding of more bytes on a side
    than the runtime allocates. *)
Theorem padCenter_width (text : string) (width : Z) :
  (0 <= width <= maxAlloc ->
   exists s,
     padCenter text width = Some s /\ lenS s = width
     /\ (lenS text < width ->
         exists l r : nat,
           s = repeatString l " " +:+ text +:+ repeatString r " "
           /\ (l <= r <= l + 1)%nat
           /\ Z.of_nat l + Z.of_nat r = width - lenS text))
  /\ (width < 0 -> padCenter text width = None)
  /\ (2 * maxAlloc + 4 <= width - lenS text -> padCenter text width = None).
Proof.
  pose proof (lenS_nonneg text) as Ht. unfold padCenter.
  split; [|split].
  - intros Hw. rewrite Z.geb_leb.
    destruct (Z.leb_spec width (lenS text)).
    + destruct (sliceTo_Some text width) as [-> E]; [lia|].
      eexists. split; [reflexivity|]. split; [exact E|]. lia.
    + set (pad := width - lenS text).
      assert (0 <= Z.quot pad 2 /\ 2 * Z.quot pad 2 <= pad
              /\ pad <= 2 * Z.quot pad 2 + 1) as Hq.
      { pose proof (Z.quot_pos pad 2). rewrite Z.quot_div_nonneg by lia.
        pose proof (Z.div_mod pad 2). pose proof (Z.mod_pos_bound pad 2).
        lia. }
      destruct (repeatSpace_Some (Z.quot pad 2)) as [-> El]; [lia|].
      destruct (repeatSpace_Some (pad - Z.quot pad 2)) as [-> Er]; [lia|].
      simpl. eexists. split; [reflexivity|]. split.
      * rewrite !lenS_app, El, Er. lia.
      * intros _. eexists _, _. split; [reflexivity|]. lia.
  - intros Hw. rewrite Z.geb_leb.
    destruct (Z.leb_spec width (lenS text)); [|lia].
    apply sliceTo_negative. exact Hw.
  - intros Hm. pose proof maxAlloc_range as Ha. rewrite Z.geb_leb.
    destruct (Z.leb_spec width (lenS text)); [lia|]. cbv zeta.
    set (pad := width - lenS text) in *.
    assert (maxAlloc + 2 <= Z.quot pad 2) as Hq.
    { rewrite Z.quot_div_nonneg by lia.
      pose proof (Z.div_mod pad 2). pose proof (Z.mod_pos_bound pad 2).
      lia. }
    unfold repeatSpace.
    rewrite (Repeat_over " " (Z.quot pad 2)); [reflexivity | lia |].
    change (lenS " ") with 1. lia.
Qed.

Lemma padRight_Some text width :
  0 <= width <= maxAlloc ->
  exists s, padRight text width = Some s /\ lenS s = width.
Proof.
  intros Hw. destruct (proj1 (padRight_width text width) Hw) as (s & E & L & _).
  eauto.
Qed.

(** Cutting a text to the width before padding it changes nothing. *)
Lemma padRight_cut text width :
  0 <= width <= maxAlloc ->
  exists text',
    (if lenS text >? width then sliceTo text width else Some text) = Some text'
    /\ padRight text' width = padRight text width.
Proof.
  intros Hw. pose proof (lenS_nonneg text). rewrite Z.gtb_ltb.
  destruct (Z.ltb_spec width (lenS text)); [|eauto].
  destruct (sliceTo_Some text width) as [E L]; [lia|]. rewrite E.
  eexists. split; [reflexivity|].
  unfold padRight. rewrite !Z.geb_leb, L.
  destruct (Z.leb_spec width width); [|lia].
  destruct (Z.leb_spec width (lenS text)); [|lia].
  rewrite E. destruct (sliceTo_Some (takeBytes (Z.to_nat width) text) width)
    as [-> _]; [lia|].
  f_equal. clear. generalize (Z.to_nat width) as n. intros n. revert text.
  induction n as [|n IH]; intros [|a r]; simpl; try reflexivity.
  rewrite IH. reflexivity.
Qed.

Lemma renderItems_shape items i cursor focused width :
  0 <= width <= maxAlloc ->
  exists body,
    renderItems items i cursor focused width = Some body
    /\ length body = length items
    /\ forall (j : nat) it,
         items !! j = Some it ->
         exists cell,
           cellOf it (focused && (i + Z.of_nat j =? cursor)) width = Some cell
           /\ body !! j
              = Some (shown (focused && (i + Z.of_nat j =? cursor)) cell).
Proof.
  intros Hw. revert i. induction items as [|it rest IH]; intros i.
  - exists []. repeat split. intros j it' Hj. discriminate.
  - cbn [renderItems]. cbv zeta.
    destruct (padRight_cut
                ((if focused && (i =? cursor) then "> " else "  ")
                 +:+ Title it) width Hw) as (text' & -> & Ecut).
    simpl. rewrite Ecut.
    destruct (padRight_Some
                ((if focused && (i =? cursor) then "> " else "  ")
                 +:+ Title it) width Hw) as (cell & Ec & _).
    rewrite Ec. simpl.
    destruct (IH (i + 1)) as (body & -> & Hl & Hb). simpl.
    eexists. split; [reflexivity|]. split; [simpl; lia|].
    intros [|j] it' Hj.
    + injection Hj as <-. exists cell. unfold cellOf.
      replace (i + Z.of_nat 0) with i by lia. split; [exact Ec|reflexivity].
    + destruct (Hb j it' Hj) as (c & E1 & E2).
      exists c. replace (i + Z.of_nat (S j)) with (i + 1 + Z.of_nat j) by lia.
      split; [exact E1 | exact E2].
Qed.

Lemma renderPanelBlock_block (title : string) (items : list Item)
    (cursor : Z) (focused : bool) (width : Z) :
  0 <= width -> 3 * width <= maxAlloc ->
  exists head body,
    renderPanelBlock title items cursor focused width
    = Some (head :: body
            ++ replicate (3 - length items) (repeatString (Z.to_nat width) " ")
            ++ [repeatString (Z.to_nat width) "─"])
    /\ padCenter title width = Some head
    /\ length body = length items
    /\ forall (j : nat) it,
         items !! j = Some it ->
         exists cell,
           cellOf it (focused && (Z.of_nat j =? cursor)) width = Some cell
           /\ lenS cell = width
           /\ body !! j
              = Some (shown (focused && (Z.of_nat j =? cursor)) cell).
Proof.
  intros Hw Hm. assert (0 <= width <= maxAlloc) as Hw' by lia.
  unfold renderPanelBlock.
  destruct (proj1 (padCenter_width title width) Hw') as (head & Eh & _).
  rewrite Eh. simpl.
  destruct (renderItems_shape items 0 cursor focused width Hw')
    as (body & -> & Hl & Hb). simpl.
  destruct (repeatSpace_Some width Hw') as [Es _].
  assert (repeatChar "─" width
          = Some (repeatString (Z.to_nat width) "─")) as Er.
  { unfold repeatChar. apply Repeat_Some; [lia|].
    change (lenS "─") with 3. lia. }
  exists head, body. split; [|split; [reflexivity|split; [exact Hl|]]].
  - unfold fillLines, len. simpl length.
    destruct (Z.ltb_spec (Z.of_nat (S (length body))) 4).
    + rewrite Es. simpl. rewrite Er. simpl. f_equal.
      rewrite <- app_assoc. f_equal. f_equal. f_equal. f_equal. lia.
    + simpl. rewrite Er. simpl. f_equal. f_equal. f_equal.
      replace (3 - length items)%nat with O by lia. reflexivity.
  - intros j it Hj. destruct (Hb j it Hj) as (cell & E1 & E2).
    rewrite Z.add_0_l in E1, E2. exists cell. split; [exact E1|].
    split; [|exact E2].
    unfold cellOf in E1.
    destruct (padRight_Some
                ((if focused && (Z.of_nat j =? cursor) then "> " else "  ")
                 +:+ Title it) width Hw') as (s & Ep & L).
    rewrite Ep in E1. injection E1 as <-. exact L.
Qed.

Lemma renderPanelBlock_over title items cursor focused width :
  1 < width -> maxAlloc < 3 * width ->
  renderPanelBlock title items cursor focused width = None.
Proof.
  intros Hw Hm. unfold renderPanelBlock.
  destruct (padCenter title width); simpl; [|reflexivity].
  destruct (renderItems items 0 cursor focused width); simpl; [|reflexivity].
  destruct (fillLines 4 width _); simpl; [|reflexivity].
  unfold repeatChar. rewrite Repeat_over; [reflexivity | lia |].
  change (lenS "─") with 3. lia.
Qed.

(** X9: for every width from 0 up whose rule, of three bytes a column, is
    within what the runtime allocates, [renderPanelBlock] gives the
    centered title, one line for each entry, blank lines up to four lines
    in all, and a rule. The line of an entry is its cell of [width] bytes,
    and it is in reverse video and marked exactly when the panel is focused
    and the entry is the one under the cursor. With a rule beyond what the
    runtime allocates, [renderPanelBlock] panics. *)
Theorem renderPanelBlock_shape (title : string) (items : list Item)
    (cursor : Z) (focused : bool) (width : Z) :
  0 <= width ->
  (3 * width <= maxAlloc ->
   exists head body,
     renderPanelBlock title items cursor focused width
     = Some (head :: body
             ++ replicate (3 - length items)
                  (repeatString (Z.to_nat width) " ")
             ++ [repeatString (Z.to_nat width) "─"])
     /\ padCenter title width = Some head
     /\ length body = length items
     /\ forall (j : nat) it,
          items !! j = Some it ->
          exists cell,
            cellOf it (focused && (Z.of_nat j =? cursor)) width = Some cell
            /\ lenS cell = width
            /\ body !! j
               = Some (shown (focused && (Z.of_nat j =? cursor)) cell))
  /\ (1 < width -> maxAlloc < 3 * width ->
      renderPanelBlock title items cursor focused width = None).
Proof.
  intros Hw. split.
  - exact (renderPanelBlock_block title items cursor focused width Hw).
  - apply renderPanelBlock_over.
Qed.


Lemma padAll_shape lines width :
  0 <= width <= maxAlloc ->
  exists ls,
    padAll lines width = Some ls
    /\ length ls = length lines
    /\ Forall (fun l => lenS l = width) ls.
Proof.
  intros Hw. induction lines as [|line rest IH]; simpl.
  - exists []. repeat split. constructor.
  - destruct (padRight_Some line width Hw) as (l & -> & L). simpl.
    destruct IH as (ls & -> & Hl & Hf). simpl.
    eexists. split; [reflexivity|]. split; [simpl; lia|].
    constructor; auto.
Qed.

Lemma fillLines_shape n width lines :
  0 <= width <= maxAlloc ->
  Forall (fun l => lenS l = width) lines ->
  exists more,
    fillLines n width lines = Some (lines ++ more)
    /\ len (lines ++ more) = Z.max n (len lines)
    /\ Forall (fun l => lenS l = width) (lines ++ more).
Proof.
  intros Hw Hf. unfold fillLines.
  destruct (Z.ltb_spec (len lines) n).
  - destruct (repeatSpace_Some width Hw) as [-> L]. simpl.
    eexists. split; [reflexivity|]. split.
    + unfold len in *. rewrite length_app, length_replicate. lia.
    + apply Forall_app. split; [exact Hf|].
      apply Forall_replicate. exact L.
  - exists []. rewrite app_nil_r. split; [reflexivity|].
    split; [lia | exact Hf].
Qed.

Lemma renderRightPane_pane title body width :
  0 <= width <= maxAlloc ->
  exists lines,
    renderRightPane title body width = Some lines
    /\ len lines = paneHeight body
    /\ Forall (fun l => lenS l = width) lines
    /\ lines !! 2%nat
       = padRight (if String.eqb title "" then "Active: None"
                   else "Active: " +:+ title) width.
Proof.
  intros Hw. unfold renderRightPane.
  destruct (proj1 (padCenter_width "Details" width) Hw) as (head & -> & Lh & _).
  destruct (repeatSpace_Some width Hw) as [-> Lb]. simpl.
  set (act := if negb (String.eqb title "")
              then padRight ("Active: " +:+ title) width
              else padRight "Active: None" width).
  assert (act = padRight (if String.eqb title "" then "Active: None"
                          else "Active: " +:+ title) width) as Ea.
  { unfold act. destruct (String.eqb title ""); reflexivity. }
  destruct (padRight_Some (if String.eqb title "" then "Active: None"
                           else "Active: " +:+ title) width Hw)
    as (active & Eact & La).
  rewrite Ea, Eact. simpl.
  set (text := if negb (String.eqb body "")
               then padAll (splitByte "010" body) width else Some []).
  assert (exists ls, text = Some ls
                     /\ len ls = (if String.eqb body "" then 0
                                  else len (splitByte "010" body))
                     /\ Forall (fun l => lenS l = width) ls)
    as (ls & -> & Ll & Hf).
  { unfold text. destruct (String.eqb body ""); simpl.
    - exists []. repeat split. constructor.
    - destruct (padAll_shape (splitByte "010" body) width Hw)
        as (ls & -> & Hl & Hf).
      exists ls. unfold len. rewrite Hl. auto. }
  simpl.
  destruct (fillLines_shape 6 width
              (head :: repeatString (Z.to_nat width) " " :: active
               :: repeatString (Z.to_nat width) " " :: ls) Hw)
    as (more & -> & Ln & Hl).
  { repeat constructor; auto. }
  eexists. split; [reflexivity|]. split; [|split; [exact Hl|]].
  - rewrite Ln. unfold paneHeight, len in *. simpl length. lia.
  - reflexivity.
Qed.

Lemma renderRightPane_over title body width :
  1 < width -> maxAlloc < width -> renderRightPane title body width = None.
Proof.
  intros Hw Hm. unfold renderRightPane.
  destruct (padCenter "Details" width); simpl; [|reflexivity].
  unfold repeatSpace. rewrite Repeat_over; [reflexivity | lia |].
  change (lenS " ") with 1. lia.
Qed.

(** X10: for every width from 0 up to what the runtime allocates,
    [renderRightPane] gives six lines or more, four and one for each line
    of the body, each of exactly [width] bytes; the third names the active
    entry, or [None] when there is none. With a width beyond what the
    runtime allocates, [renderRightPane] panics. *)
Theorem renderRightPane_shape (title body : string) (width : Z) :
  0 <= width ->
  (width <= maxAlloc ->
   exists lines,
     renderRightPane title body width = Some lines
     /\ len lines = paneHeight body
     /\ Forall (fun l => lenS l = width) lines
     /\ lines !! 2%nat
        = padRight (if String.eqb title "" then "Active: None"
                    else "Active: " +:+ title) width)
  /\ (1 < width -> maxAlloc < width ->
      renderRightPane title body width = None).
Proof.
  intros Hw. split.
  - intros Hm. apply renderRightPane_pane. lia.
  - apply renderRightPane_over.
Qed.







End WithHeap.

(** *** Examples on a 64-bit runtime *)

#[local] Existing Instance heap64.

Lemma padRight_width_sample :
  padRight "Clock" 8 = Some "Clock   "
  /\ padRight "Calendar" 3 = Some "Cal"
  /\ padRight "Clock" (-1) = None
  /\ padRight "Clock" (2 ^ 62) = None.
Proof.
  split; [|split; [|split]].
  - destruct (proj1 (padRight_width "Clock" 8)) as (s & -> & _ & ->);
      [vm_compute; split; discriminate | reflexivity].
  - destruct (proj1 (padRight_width "Calendar" 3)) as (s & -> & _ & ->);
      [vm_compute; split; discriminate | reflexivity].
  - apply (proj1 (proj2 (padRight_width "Clock" (-1)))). lia.
  - apply (proj2 (proj2 (padRight_width "Clock" (2 ^ 62))));
      vm_compute; reflexivity.
Defined.

Lemma padCenter_width_sample :
  padCenter "hi" 7 = Some "  hi   "
  /\ padCenter "hi" (-2) = None
  /\ padCenter "hi" (2 ^ 62) = None.
Proof.
  split; [|split].
  - destruct (proj1 (padCenter_width "hi" 7)) as (s & E & _);
      [vm_compute; split; discriminate|]. rewrite E. f_equal.
    vm_compute in E. congruence.
  - apply (proj1 (proj2 (padCenter_width "hi" (-2)))). lia.
  - apply (proj2 (proj2 (padCenter_width "hi" (2 ^ 62)))).
    vm_compute. discriminate.
Defined.

Lemma renderPanelBlock_shape_sample :
  (exists head body,
      renderPanelBlock "Shortcuts" (bottomItems initialModel) 1 true 12
      = Some (head :: body
              ++ replicate (3 - 3) (repeatString (Z.to_nat 12) " ")
              ++ [repeatString (Z.to_nat 12) "─"])
      /\ padCenter "Shortcuts" 12 = Some head
      /\ length body = 3%nat
      /\ forall (j : nat) it,
           bottomItems initialModel !! j = Some it ->
           exists cell,
             cellOf it (true && (Z.of_nat j =? 1)) 12 = Some cell
             /\ lenS cell = 12
             /\ body !! j = Some (shown (true && (Z.of_nat j =? 1)) cell))
  /\ renderPanelBlock "Shortcuts" (bottomItems initialModel) 1 true (2 ^ 62)
     = None.
Proof.
  split.
  - apply (proj1 (renderPanelBlock_shape "Shortcuts"
                    (bottomItems initialModel) 1 true 12 ltac:(lia))).
    vm_compute. discriminate.
  - apply (proj2 (renderPanelBlock_shape "Shortcuts"
                    (bottomItems initialModel) 1 true (2 ^ 62) ltac:(lia)));
      vm_compute; reflexivity.
Defined.

Lemma renderRightPane_shape_sample :
  (exists lines,
      renderRightPane "" "" 20 = Some lines
      /\ len lines = paneHeight ""
      /\ Forall (fun l => lenS l = 20) lines
      /\ lines !! 2%nat = padRight "Active: None" 20)
  /\ renderRightPane "" "" (2 ^ 62) = None.
Proof.
  split.
  - apply (proj1 (renderRightPane_shape "" "" 20 ltac:(lia))).
    vm_compute. discriminate.
  - apply (proj2 (renderRightPane_shape "" "" (2 ^ 62) ltac:(lia)));
      vm_compute; reflexivity.
Defined.


End DashViewFacts.

(** ** More on the three-panel dashboard *)

Module DashMoreFacts.
Import GoStrings Dash DashFacts.

Lemma navigateUp_focus m : focus (navigateUp m) = focus m.
Proof. unfold navigateUp. cases; reflexivity. Qed.

Lemma navigateUp_items p m : itemsOf p (navigateUp m) = itemsOf p m.
Proof. unfold navigateUp, itemsOf. cases; reflexivity. Qed.

Lemma navigateUp_cursor m :
  0 <= focus m < 3 ->
  cursorOf (focus m) (navigateUp m)
  = if cursorOf (focus m) m >? 0
    then cursorOf (focus m) m - 1 else cursorOf (focus m) m.
Proof.
  intros Hf. unfold navigateUp, cursorOf,
    PanelTUI, PanelDirs, PanelShortcuts in *.
  destruct m as [f w h t mi b tc mc bc rt rb]; simpl in *.
  cases; simpl; cases; try lia; reflexivity.
Qed.

Lemma navigateUp_iter k m :
  0 <= focus m < 3 ->
  0 <= cursorOf (focus m) m ->
  let m' := Nat.iter k navigateUp m in
  focus m' = focus m
  /\ cursorOf (focus m) m' = Z.max 0 (cursorOf (focus m) m - Z.of_nat k).
Proof.
  intros Hf Hc. induction k as [|k IH].
  - simpl. split; [reflexivity | lia].
  - rewrite Nat.iter_succ. cbv zeta in *. destruct IH as (IHf & IHc).
    set (mk := Nat.iter k navigateUp m) in *.
    split; [rewrite navigateUp_focus; auto|].
    rewrite <- IHf, navigateUp_cursor by lia.
    rewrite IHf, IHc. cases; lia.
Qed.

(** X12: in the focused panel, [navigateUp] repeated at least as many times
    as the cursor is far from the top leaves the cursor on 0: it saturates
    and does not wrap to the last entry. *)
Theorem navigateUp_saturates (m : Model) (k : nat) :
  0 <= focus m < 3 ->
  0 <= cursorOf (focus m) m <= Z.of_nat k ->
  cursorOf (focus m) (Nat.iter k navigateUp m) = 0.
Proof.
  intros Hf Hc.
  destruct (navigateUp_iter k m Hf) as (_ & ->); lia.
Qed.

Lemma navigateUp_saturates_initial :
  cursorOf (focus initialModel)
    (Nat.iter 5 navigateUp (Nat.iter 2 navigateDown initialModel))
  = 0.
Proof.
  apply (navigateUp_saturates (Nat.iter 2 navigateDown initialModel) 5);
    vm_compute; intuition discriminate.
Defined.

(** X13: a move down that moved is undone by a move up, and a move up that
    moved by a move down: between the first and the last entry the two are
    inverse. *)
Theorem navigateUp_navigateDown (m : Model) :
  0 <= focus m < 3 ->
  (0 <= cursorOf (focus m) m < len (itemsOf (focus m) m) - 1 ->
   navigateUp (navigateDown m) = m)
  /\ (0 < cursorOf (focus m) m <= len (itemsOf (focus m) m) - 1 ->
      navigateDown (navigateUp m) = m).
Proof.
  intros Hf. unfold navigateUp, navigateDown, cursorOf, itemsOf,
    PanelTUI, PanelDirs, PanelShortcuts in *.
  destruct m as [f w h t mi b tc mc bc rt rb]; simpl in *.
  split; intros Hc; cases; simpl in *; cases; simpl; try lia;
    unfold set_topCursor, set_midCursor, set_bottomCursor; simpl;
    f_equal; lia.
Qed.

Lemma navigateUp_navigateDown_initial :
  navigateUp (navigateDown initialModel) = initialModel.
Proof.
  assert (0 <= focus initialModel < 3) as Hf
    by (vm_compute; intuition discriminate).
  apply (proj1 (navigateUp_navigateDown initialModel Hf)).
  vm_compute. intuition discriminate.
Defined.

(** X14: on every panel, activation shows the entry under the cursor of the
    focused panel: the title and the body of the detail pane are those of
    its preview, and nothing else changes. Activating again changes
    nothing more. *)
Theorem activate_selected (m : Model) (it : Item) :
  0 <= focus m < 3 ->
  index (itemsOf (focus m) m) (cursorOf (focus m) m) = Some it ->
  activateCurrent m = Some (preview it m)
  /\ activateCurrent (preview it m) = Some (preview it m).
Proof.
  intros Hf. unfold itemsOf, cursorOf, activateCurrent,
    PanelTUI, PanelDirs, PanelShortcuts in *.
  assert (forall (l : list Item) c x, index l c = Some x -> (c <? len l) = true)
    as Hin.
  { intros l c x. unfold index, len. destruct (Z.ltb_spec c 0); [discriminate|].
    intros Hl. apply lookup_lt_Some in Hl. apply Z.ltb_lt. lia. }
  destruct m as [f w h t mi b tc mc bc rt rb]; simpl in *.
  destruct (Z.eqb_spec f 0);
    [|destruct (Z.eqb_spec f 1); [|destruct (Z.eqb_spec f 2); [|lia]]];
    intros Hi; rewrite (Hin _ _ _ Hi), Hi; simpl; split; reflexivity.
Qed.

Lemma activate_selected_dirs :
  activateCurrent (navigateDown (cycleFocus initialModel))
  = Some (preview (mkItem "Work" "" "/home/you/work")
            (navigateDown (cycleFocus initialModel)))
  /\ activateCurrent
       (preview (mkItem "Work" "" "/home/you/work")
          (navigateDown (cycleFocus initialModel)))
     = Some (preview (mkItem "Work" "" "/home/you/work")
               (navigateDown (cycleFocus initialModel))).
Proof.
  apply (activate_selected (navigateDown (cycleFocus initialModel))
           (mkItem "Work" "" "/home/you/work"));
    [vm_compute; intuition discriminate | reflexivity].
Defined.

(** X15: no message changes the entries of a panel; a message that makes
    [Update] return the quit command leaves the model as it is; the cursors
    and the focus stay as they are on every message that is not a key. *)
Theorem Update_frame (msg : Msg) (m m' : Model) (cmd : Cmd) :
  Update msg m = Some (m', cmd) ->
  (topItems m' = topItems m /\ midItems m' = midItems m
   /\ bottomItems m' = bottomItems m)
  /\ (cmd = CmdQuit -> m' = m)
  /\ ((forall key, msg <> KeyMsg key) ->
      focus m' = focus m /\ topCursor m' = topCursor m
      /\ midCursor m' = midCursor m /\ bottomCursor m' = bottomCursor m
      /\ rightTitle m' = rightTitle m /\ rightBody m' = rightBody m).
Proof.
  unfold Update. destruct msg as [key|w h|]; cbv beta iota.
  - assert (forall P : Prop, (forall k, KeyMsg key <> KeyMsg k) -> P) as Hkey.
    { intros P Hk. destruct (Hk key eq_refl). }
    destruct (keyIs key ["ctrl+c"; "q"]).
    { intros [= <- <-]. repeat split; auto; apply Hkey. }
    destruct (keyIs key ["tab"]).
    { intros [= <- <-]. split; [auto|]. split; [discriminate | apply Hkey]. }
    destruct (keyIs key ["up"; "k"]).
    { intros [= <- <-]. split; [|split; [discriminate | apply Hkey]].
      unfold navigateUp. cases; auto. }
    destruct (keyIs key ["down"; "j"]).
    { intros [= <- <-]. split; [|split; [discriminate | apply Hkey]].
      unfold navigateDown. cases; auto. }
    destruct (keyIs key ["enter"; " "]).
    { destruct (activateCurrent m) as [m1|] eqn:Ea; simpl; [|discriminate].
      intros [= <- <-].
      destruct (activateCurrent_frame _ _ Ea) as (_ & Et & Em & Eb & _).
      split; [auto|]. split; [discriminate | apply Hkey]. }
    intros [= <- <-]. split; [auto|]. split; [discriminate | apply Hkey].
  - intros [= <- <-]. split; [auto|]. split; [discriminate|]. intros _.
    repeat split.
  - intros [= <- <-]. split; [auto|]. split; [discriminate|]. intros _.
    repeat split.
Qed.

Lemma Update_frame_quit :
  (topItems initialModel = topItems initialModel
   /\ midItems initialModel = midItems initialModel
   /\ bottomItems initialModel = bottomItems initialModel)
  /\ (CmdQuit = CmdQuit -> initialModel = initialModel)
  /\ ((forall key, KeyMsg "q" <> KeyMsg key) ->
      focus initialModel = focus initialModel
      /\ topCursor initialModel = topCursor initialModel
      /\ midCursor initialModel = midCursor initialModel
      /\ bottomCursor initialModel = bottomCursor initialModel
      /\ rightTitle initialModel = rightTitle initialModel
      /\ rightBody initialModel = rightBody initialModel).
Proof.
  apply (Update_frame (KeyMsg "q") initialModel initialModel CmdQuit).
  reflexivity.
Defined.

End DashMoreFacts.

(** ** More on the two-panel list *)

Module TabsMoreFacts.
Import GoStrings GoStringsFacts GoText GoTextFacts Tabs TabsFacts TabsView.

Lemma inRange_fields m m' :
  navItems m' = navItems m -> choices m' = choices m ->
  navCursor m' = navCursor m -> mainCursor m' = mainCursor m ->
  inRange m -> inRange m'.
Proof. unfold inRange. intros -> -> -> ->. auto. Qed.

Lemma inRange_moveUp m : inRange m -> inRange (moveUp m).
Proof.
  unfold inRange, moveUp. destruct m as [p ni nc ch mc sel w h]; simpl.
  intros Hm. cases; simpl; lia.
Qed.

Lemma inRange_moveDown m : inRange m -> inRange (moveDown m).
Proof. intros Hm. apply (moveDown_iter 1 m Hm). Qed.

Lemma inRange_switchPanel m : inRange m -> inRange (switchPanel m).
Proof.
  intros Hm. rewrite (switchPanel_inRange m Hm).
  repeat case_match; exact Hm.
Qed.

Lemma inRange_toggle m : inRange m -> inRange (toggle m).
Proof. unfold toggle. intros Hm. repeat case_match; exact Hm. Qed.

(** X16: [Update] keeps both cursors on entries, whatever the message: what
    holds of [initialModel] holds of every model the program reaches. *)
Theorem Update_inRange (msg : Dash.Msg) (m : model) :
  inRange m -> inRange (fst (Update msg m)).
Proof.
  intros Hm. unfold Update. destruct msg as [key|w h|]; simpl;
    [|exact Hm|exact Hm].
  repeat match goal with
    | |- context [if ?b then _ else _] => destruct b
    end; simpl;
    auto using inRange_moveUp, inRange_moveDown, inRange_switchPanel,
      inRange_toggle.
Qed.

Lemma Update_inRange_initial :
  inRange (fst (Update (Dash.KeyMsg "down") initialModel)).
Proof.
  apply (Update_inRange (Dash.KeyMsg "down") initialModel inRange_initial).
Defined.

(** X17: on the main panel, Enter or space selects the entry under the
    cursor when it is not selected and unselects it when it is, leaves the
    other entries as they are, and pressed twice gives back the model. *)
Theorem toggle_twice (m : model) :
  panel m = MainPanel ->
  (mainCursor m ∈ selected (toggle m) <-> mainCursor m ∉ selected m)
  /\ (forall i, i <> mainCursor m ->
                i ∈ selected (toggle m) <-> i ∈ selected m)
  /\ toggle (toggle m) = m.
Proof.
  destruct m as [p ni nc ch mc sel w h]; simpl. intros ->.
  unfold toggle; simpl.
  destruct (decide (mc ∈ sel)) as [Hin|Hout]; simpl.
  - split; [(set_unfold; intuition congruence)|]. split; [(set_unfold; intuition congruence)|].
    rewrite decide_False by (set_unfold; intuition congruence). unfold set_selected. simpl.
    f_equal. apply (proj2 (set_eq _ _)).
    intros x. destruct (decide (x = mc)); (set_unfold; intuition congruence).
  - split; [(set_unfold; intuition congruence)|]. split; [(set_unfold; intuition congruence)|].
    rewrite decide_True by (set_unfold; intuition congruence). unfold set_selected. simpl.
    f_equal. apply (proj2 (set_eq _ _)).
    intros x. destruct (decide (x = mc)); (set_unfold; intuition congruence).
Qed.

Lemma toggle_twice_initial :
  (mainCursor initialModel ∈ selected (toggle initialModel)
   <-> mainCursor initialModel ∉ selected initialModel)
  /\ (forall i, i <> mainCursor initialModel ->
                i ∈ selected (toggle initialModel)
                <-> i ∈ selected initialModel)
  /\ toggle (toggle initialModel) = initialModel.
Proof. apply (toggle_twice initialModel). reflexivity. Defined.

(** X18: tab brings the cursor of the panel it moves to back on an entry:
    when that panel has entries and its cursor is not negative, the cursor
    is an index of its entries after the key, beyond the end or not
    before. *)
Theorem switchPanel_clamps (m : model) :
  (panel m = NavigationPanel ->
   choices m <> [] -> 0 <= mainCursor m ->
   panel (switchPanel m) = MainPanel
   /\ 0 <= mainCursor (switchPanel m) < len (choices m)
   /\ mainCursor (switchPanel m)
      = Z.min (mainCursor m) (len (choices m) - 1))
  /\ (panel m = MainPanel ->
      navItems m <> [] -> 0 <= navCursor m ->
      panel (switchPanel m) = NavigationPanel
      /\ 0 <= navCursor (switchPanel m) < len (navItems m)
      /\ navCursor (switchPanel m)
         = Z.min (navCursor m) (len (navItems m) - 1)).
Proof.
  unfold switchPanel, NavigationPanel, MainPanel.
  destruct m as [p ni nc ch mc sel w h]; simpl.
  split; intros -> Hne Hc; simpl.
  - assert (0 < len ch) by (unfold len; destruct ch; simpl; [congruence|lia]).
    cases; simpl; lia.
  - assert (0 < len ni) by (unfold len; destruct ni; simpl; [congruence|lia]).
    cases; simpl; lia.
Qed.

Lemma switchPanel_clamps_sample :
  panel (switchPanel (set_mainCursor 9 (set_panel NavigationPanel initialModel)))
  = MainPanel
  /\ 0 <= mainCursor (switchPanel (set_mainCursor 9
                                    (set_panel NavigationPanel initialModel)))
     < len (choices initialModel)
  /\ mainCursor (switchPanel (set_mainCursor 9
                                (set_panel NavigationPanel initialModel)))
     = Z.min 9 (len (choices initialModel) - 1).
Proof.
  apply (proj1 (switchPanel_clamps
                  (set_mainCursor 9 (set_panel NavigationPanel initialModel))));
    [reflexivity | discriminate | simpl; lia].
Defined.

(** *** The rendering *)









End TabsMoreFacts.

(** ** The restarting launcher as a machine *)

Module MachineFacts.
Import GoStrings Sys Gocui Launcher LauncherFacts Machine.

Section WithLibs.
Context `{Json} `{Lib}.

Lemma serve_stopped env keys st :
  (forall g, fst st <> Interactive g) -> serve env keys st = st.
Proof.
  intros Hst. destruct keys as [|k keys]; [reflexivity|].
  destruct st as [[g| | |] p]; simpl; try reflexivity.
  destruct (Hst g). reflexivity.
Qed.

Lemma serve_app env keys more st :
  serve env (keys ++ more) st = serve env more (serve env keys st).
Proof.
  revert st. induction keys as [|k keys IH]; intros st; [reflexivity|].
  destruct st as [[g| | |] p]; simpl; try apply IH;
    symmetry; apply serve_stopped; discriminate.
Qed.

(** What the loop of [main] does of the result of [MainLoop], with [fuel]
    turns left. *)
Lemma mainLoop_run fuel env keys p :
  mainLoop (S fuel) env keys p
  = match newGui env (guis p) with
    | Some text =>
        (Crashed, emit (Panicked "" (ErrOther text)) (count_gui p))
    | None =>
        match eventLoop layout keybindings keys (layout emptyGui)
                (emit GuiOpened (count_gui p)) with
        | (inl g, p') => (Interactive g, p')
        | (inr (err, rest), p') =>
            let p' := emit GuiClosed p' in
            if isRestart err then
              mainLoop fuel env rest
                match pendingApp p' with
                | Some app => runApplication env app (set_pendingApp None p')
                | None => p'
                end
            else if negb (isQuit err)
                 then (Crashed, emit (Panicked "" err) p')
                 else (Finished, p')
        end
    end.
Proof.
  simpl. unfold run, MainLoop.
  destruct (newGui env (guis p)) as [text|]; [reflexivity|].
  destruct (eventLoop _ _ _ _ _) as [[g|[err rest]] p']; reflexivity.
Qed.

Lemma eventLoop_serve fuel env keys g p :
  (forall ks q, (length ks < fuel)%nat ->
                mainLoop fuel env ks q = serve env ks (openUI env q)) ->
  (length keys <= fuel)%nat ->
  match eventLoop layout keybindings keys g p with
  | (inl g', p') => (Interactive g', p')
  | (inr (err, rest), p') =>
      let p' := emit GuiClosed p' in
      if isRestart err then
        mainLoop fuel env rest
          match pendingApp p' with
          | Some app => runApplication env app (set_pendingApp None p')
          | None => p'
          end
      else if negb (isQuit err)
           then (Crashed, emit (Panicked "" err) p')
           else (Finished, p')
  end
  = serve env keys (Interactive g, p).
Proof.
  intros IH. revert g p. induction keys as [|k keys IHk]; intros g p Hlen;
    [reflexivity|].
  simpl in Hlen. cbn [eventLoop serve]. unfold step.
  destruct (onKey keybindings k g p) as [[g' p'] [err|]].
  - cbv zeta. destruct (isRestart err).
    + apply IH. lia.
    + destruct (negb (isQuit err)); symmetry; apply serve_stopped; discriminate.
  - apply IHk. lia.
Qed.

Lemma mainLoop_serve fuel env keys p :
  (length keys < fuel)%nat ->
  mainLoop fuel env keys p = serve env keys (openUI env p).
Proof.
  revert keys p. induction fuel as [|fuel IH]; intros keys p Hlen; [lia|].
  rewrite mainLoop_run. unfold openUI.
  destruct (newGui env (guis p)) as [text|].
  - symmetry. apply serve_stopped. discriminate.
  - apply eventLoop_serve; [exact IH | lia].
Qed.

Lemma main_serve env keys p :
  main env keys p
  = match boot p with
    | inl st => st
    | inr p' => serve env keys (openUI env p')
    end.
Proof.
  unfold main, boot.
  destruct (if fileExists (fs p) "config.json" then inl p
            else createDefaultConfig p) as [q|q]; [|reflexivity].
  destruct (loadConfig (fs q) "config.json") as [config [err|]];
    [reflexivity|].
  apply mainLoop_serve. lia.
Qed.

Lemma boot_crashed p st : boot p = inl st -> fst st = Crashed.
Proof.
  unfold boot.
  destruct (if fileExists (fs p) "config.json" then inl p
            else createDefaultConfig p) as [q|q]; [|intros [= <-]; reflexivity].
  destruct (loadConfig (fs q) "config.json") as [config [err|]];
    [intros [= <-]; reflexivity | discriminate].
Qed.


Lemma main_serve_app env keys more p :
  main env (keys ++ more) p = serve env more (main env keys p).
Proof.
  rewrite !main_serve. destruct (boot p) as [st|q] eqn:Eb.
  - symmetry. apply serve_stopped.
    rewrite (boot_crashed p st Eb). discriminate.
  - apply serve_app.
Qed.

(** X21: keys typed later are handled from where the earlier keys left the
    program: [main] on [keys ++ more] is [main] on [keys] followed by the
    steps of [more], and nothing more when [main] on [keys] has ended. *)
Theorem main_app (env : Env) (keys more : list Key) (p : Process) :
  main env (keys ++ more) p = serve env more (main env keys p)
  /\ ((forall g, fst (main env keys p) <> Interactive g) ->
      main env (keys ++ more) p = main env keys p).
Proof.
  split; [apply main_serve_app|].
  intros Hst. rewrite main_serve_app. apply serve_stopped. exact Hst.
Qed.

(** One more key after [keys] left the UI waiting. *)
Lemma main_snoc env keys k p g p' :
  main env keys p = (Interactive g, p') ->
  main env (keys ++ [k]) p = step env k g p'.
Proof. intros E. rewrite main_serve_app, E. reflexivity. Qed.

(** *** The keys *)

Lemma onKey_ctrlC g p : onKey keybindings KeyCtrlC g p = (g, p, Some ErrQuit).
Proof. reflexivity. Qed.

(** X22: whenever the UI waits for a key, in the list or in the form,
    Ctrl+C ends the program: the UI is closed, [main] returns, and nothing
    else happens. *)
Theorem ctrlC_finishes (env : Env) (keys : list Key) (p : Process)
    (g : Gui) (p' : Process) :
  main env keys p = (Interactive g, p') ->
  main env (keys ++ [KeyCtrlC]) p = (Finished, emit GuiClosed p').
Proof.
  intros E. rewrite (main_snoc env keys KeyCtrlC p g p' E).
  unfold step. rewrite onKey_ctrlC. reflexivity.
Qed.


(** The UI as [run] opens it: the list has the focus, its cursor is on the
    line of the first application, and the form is closed. *)
Lemma layout_fresh :
  currentView (layout emptyGui) = Some "list"
  /\ getView (layout emptyGui) "list" = Some (mkView "" 2 false)
  /\ getView (layout emptyGui) "add_modal" = None
  /\ getView (layout emptyGui) "add_name" = None
  /\ getView (layout emptyGui) "add_cmd" = None.
Proof. repeat split. Qed.


(** Enter in the list off the lines of the applications does nothing. *)
Lemma onKey_enter_nothing g p v :
  currentView g = Some "list" ->
  getView g "list" = Some v ->
  getAppFromCursor (applications p) v = None ->
  onKey keybindings KeyEnter g p = (g, p, None).
Proof.
  intros Hc Hv Ha. unfold onKey. rewrite Hc. simpl.
  unfold runApp. rewrite Hv, Ha. reflexivity.
Qed.

(** *** The form *)

Lemma closeView_views g name :
  views match getView g name with
        | Some _ => DeleteView g name
        | None => g
        end = delete name (views g)
  /\ currentView match getView g name with
                 | Some _ => DeleteView g name
                 | None => g
                 end = currentView g.
Proof.
  unfold getView. destruct (views g !! name) eqn:E; simpl; [auto|].
  rewrite delete_id by exact E. auto.
Qed.

(** [cancelAddModal] removes the three views of the form, leaves the other
    views, and gives the focus to the list when there is one. *)
Lemma cancelAddModal_gui g v p :
  let g' := fst (fst (cancelAddModal g v p)) in
  getView g' "add_modal" = None
  /\ getView g' "add_name" = None
  /\ getView g' "add_cmd" = None
  /\ (forall n, n <> "add_modal" -> n <> "add_name" -> n <> "add_cmd" ->
                getView g' n = getView g n)
  /\ (is_Some (getView g "list") -> currentView g' = Some "list").
Proof.
  unfold cancelAddModal. cbn [foldl].
  destruct (closeView_views g "add_modal") as [V1 _].
  set (g1 := match getView g "add_modal" with
             | Some _ => DeleteView g "add_modal" | None => g end) in *.
  destruct (closeView_views g1 "add_name") as [V2 _].
  set (g2 := match getView g1 "add_name" with
             | Some _ => DeleteView g1 "add_name" | None => g1 end) in *.
  destruct (closeView_views g2 "add_cmd") as [V3 _].
  set (g3 := match getView g2 "add_cmd" with
             | Some _ => DeleteView g2 "add_cmd" | None => g2 end) in *.
  assert (forall n, getView g3 n
                    = delete "add_cmd"
                        (delete "add_name" (delete "add_modal" (views g)))
                      !! n) as V.
  { intros n. unfold getView. rewrite V3, V2, V1. reflexivity. }
  assert (forall n, getView (fst (SetCurrentView g3 "list")) n = getView g3 n)
    as Vs.
  { intros n. unfold SetCurrentView. destruct (getView g3 "list"); reflexivity. }
  destruct (SetCurrentView g3 "list") as [g4 err] eqn:E4. simpl in *.
  repeat split.
  - rewrite Vs, V. rewrite lookup_delete_ne, lookup_delete_ne by discriminate.
    apply lookup_delete_eq.
  - rewrite Vs, V. rewrite lookup_delete_ne by discriminate.
    apply lookup_delete_eq.
  - rewrite Vs, V. apply lookup_delete_eq.
  - intros n N1 N2 N3. rewrite Vs, V.
    rewrite !lookup_delete_ne by congruence. reflexivity.
  - intros [l Hl]. unfold SetCurrentView in E4.
    assert (getView g3 "list" = Some l) as Hl3.
    { rewrite V, !lookup_delete_ne by discriminate. exact Hl. }
    rewrite Hl3 in E4. injection E4 as <- _. reflexivity.
Qed.

(** The UI [saveNewApp] leaves when it saves is the one [cancelAddModal]
    leaves. *)
Lemma saveNewApp_gui g v p nameV cmdV :
  getView g "add_name" = Some nameV ->
  getView g "add_cmd" = Some cmdV ->
  trimViewText nameV <> "" ->
  trimViewText cmdV <> "" ->
  exists q, fst (fst (saveNewApp g v p)) = fst (fst (cancelAddModal g "" q)).
Proof.
  intros Hn Hc Hne Hce. unfold saveNewApp. rewrite Hn, Hc.
  apply String.eqb_neq in Hne, Hce. rewrite Hne, Hce. simpl.
  destruct (cancelAddModal g "" _) as [[g' p'] e'] eqn:E. cbv zeta.
  eexists. rewrite E. reflexivity.
Qed.

(** X25: when [saveNewApp] saves, it closes the form: the three views of
    the form are gone, the other views are as they were, and the focus is
    back on the list. *)
Theorem saveNewApp_closes_form (g : Gui) (v : string) (p : Process)
    (nameV cmdV : View) :
  getView g "add_name" = Some nameV ->
  getView g "add_cmd" = Some cmdV ->
  trimViewText nameV <> "" ->
  trimViewText cmdV <> "" ->
  let g' := fst (fst (saveNewApp g v p)) in
  getView g' "add_modal" = None
  /\ getView g' "add_name" = None
  /\ getView g' "add_cmd" = None
  /\ (forall n, n <> "add_modal" -> n <> "add_name" -> n <> "add_cmd" ->
                getView g' n = getView g n)
  /\ (is_Some (getView g "list") -> currentView g' = Some "list").
Proof.
  intros Hn Hc Hne Hce.
  destruct (saveNewApp_gui g v p nameV cmdV Hn Hc Hne Hce) as [q E].
  cbv zeta. rewrite E. apply cancelAddModal_gui.
Qed.

(** X26: when the configuration cannot be written, [saveNewApp] still
    adds the entry to the applications in memory, writes one line to the
    log, and returns no error. The files are what the failed write left:
    no file other than config.json is changed, and config.json is as before
    (the encoding failed, or the file could not be opened) or holds the
    first bytes of the new configuration, maybe none (the file was
    truncated and the write or the closing failed). *)
Theorem saveNewApp_write_fails (g : Gui) (v : string) (p : Process)
    (nameV cmdV : View) (fs' : FS) (err : error) :
  getView g "add_name" = Some nameV ->
  getView g "add_cmd" = Some cmdV ->
  trimViewText nameV <> "" ->
  trimViewText cmdV <> "" ->
  let entry := mkApplication (trimViewText nameV) (trimViewText cmdV) in
  writeConfig (fs p) "config.json" (applications p ++ [entry])
  = (fs', Some err) ->
  let p' := snd (fst (saveNewApp g v p)) in
  snd (saveNewApp g v p) = None
  /\ applications p' = applications p ++ [entry]
  /\ trace p' = trace p ++ [Logged "Error writing config:" err]
  /\ fs p' = fs'
  /\ (forall path, path <> "config.json" ->
                   files fs' !! path = files (fs p) !! path)
  /\ (files fs' !! "config.json" = files (fs p) !! "config.json"
      \/ exists data n,
           MarshalIndent (mkConfig (applications p ++ [entry])) = (data, None)
           /\ files fs' !! "config.json" = Some (substring 0 n data)).
Proof.
  intros Hn Hc Hne Hce entry Hw.
  destruct (LauncherFacts.saveNewApp_filled g v p nameV cmdV Hn Hc Hne Hce)
    as [g' ->].
  fold entry. cbv zeta. rewrite Hw. do 4 (split; [reflexivity|]).
  unfold writeConfig in Hw.
  destruct (MarshalIndent (mkConfig (applications p ++ [entry])))
    as [data [e|]] eqn:Em.
  - injection Hw as <- _. auto.
  - unfold WriteFile in Hw. destruct (readOnly (fs p)); [|discriminate].
    destruct (torn (fs p)) as [n|]; injection Hw as <- _; [|auto].
    simpl. split.
    + intros path Hp. apply lookup_insert_ne. congruence.
    + right. exists data, n. split; [reflexivity|]. apply lookup_insert_eq.
Qed.

(** *** The start *)


(** *** What a run keeps *)

Section Kept.
Variable R : Process -> Process -> Prop.
Hypothesis R_same :
  forall p p', applications p' = applications p -> fs p' = fs p -> R p p'.
Hypothesis R_trans : forall p1 p2 p3, R p1 p2 -> R p2 p3 -> R p1 p3.
Hypothesis R_save : keeps R saveNewApp.

Lemma keybindings_keep : Forall (fun kb => keeps R (handler kb)) keybindings.
Proof.
  unfold keybindings. repeat constructor; simpl; try exact R_save;
    intros g v p; unfold quit, cursorDown, cursorUp, runApp, refreshDashboard,
      openAddModal, switchAddField, cancelAddModal;
    repeat case_match; simpl; apply R_same; reflexivity.
Qed.

Lemma execKeybindings_keeps kbs v k matched g p :
  Forall (fun kb => keeps R (handler kb)) kbs ->
  R p (snd (fst (execKeybindings kbs v k matched g p))).
Proof.
  intros Hk. revert matched g p.
  induction Hk as [|kb kbs Hkb _ IH]; intros matched g p; simpl.
  - apply R_same; reflexivity.
  - destruct (key_eqb (key kb) k && matchView kb v); [|apply IH].
    specialize (Hkb g (default "" v) p).
    destruct (handler kb g (default "" v) p) as [[g' p'] [err|]]; simpl in *;
      [exact Hkb|].
    eapply R_trans; [exact Hkb | apply IH].
Qed.

Lemma onKey_keeps k g p : R p (snd (fst (onKey keybindings k g p))).
Proof.
  unfold onKey.
  pose proof (execKeybindings_keeps keybindings (currentView g) k false g p
                keybindings_keep) as Hq.
  destruct (execKeybindings keybindings (currentView g) k false g p)
    as [[g' p'] [[|] [err|]]]; simpl in *; try exact Hq.
  repeat case_match; exact Hq.
Qed.

Lemma runApplication_keeps env app p : R p (runApplication env app p).
Proof.
  apply R_same; unfold runApplication; repeat case_match; reflexivity.
Qed.

Lemma openUI_keeps env p : R p (snd (openUI env p)).
Proof. unfold openUI. case_match; apply R_same; reflexivity. Qed.

Lemma step_keeps env k g p : R p (snd (step env k g p)).
Proof.
  unfold step. pose proof (onKey_keeps k g p) as Hq.
  destruct (onKey keybindings k g p) as [[g' p'] [err|]]; simpl in *;
    [|exact Hq].
  eapply R_trans; [exact Hq|]. cbv zeta.
  destruct (isRestart err).
  - simpl. destruct (pendingApp p') as [app|].
    + eapply R_trans; [|apply openUI_keeps].
      eapply R_trans; [|apply runApplication_keeps].
      apply R_same; reflexivity.
    + eapply R_trans; [|apply openUI_keeps]. apply R_same; reflexivity.
  - destruct (negb (isQuit err)); apply R_same; reflexivity.
Qed.

Lemma serve_keeps env keys st : R (snd st) (snd (serve env keys st)).
Proof.
  revert st. induction keys as [|k keys IH]; intros [s p]; simpl.
  - apply R_same; reflexivity.
  - destruct s; try (apply R_same; reflexivity).
    eapply R_trans; [apply step_keeps | apply IH].
Qed.

End Kept.

Lemma otherFilesKept_fs p p' : fs p' = fs p -> otherFilesKept p p'.
Proof. intros E. unfold otherFilesKept. rewrite E. auto. Qed.

Lemma otherFilesKept_same p p' :
  applications p' = applications p -> fs p' = fs p -> otherFilesKept p p'.
Proof. intros _. apply otherFilesKept_fs. Qed.

Lemma otherFilesKept_trans p1 p2 p3 :
  otherFilesKept p1 p2 -> otherFilesKept p2 p3 -> otherFilesKept p1 p3.
Proof.
  intros [E1 H1] [E2 H2]. split; [congruence|].
  intros path Hp. rewrite H2, H1 by exact Hp. reflexivity.
Qed.

Lemma WriteFile_otherFiles disk path data :
  readOnly (fst (WriteFile disk path data)) = readOnly disk
  /\ forall path', path' <> path ->
       files (fst (WriteFile disk path data)) !! path' = files disk !! path'.
Proof.
  unfold WriteFile. destruct (readOnly disk) eqn:Er;
    [destruct (torn disk)|]; simpl; (split; [auto|]); intros path' Hp;
    try reflexivity; apply lookup_insert_ne; congruence.
Qed.

Lemma writeConfig_otherFiles disk path apps :
  readOnly (fst (writeConfig disk path apps)) = readOnly disk
  /\ forall path', path' <> path ->
       files (fst (writeConfig disk path apps)) !! path' = files disk !! path'.
Proof.
  unfold writeConfig. destruct (MarshalIndent _) as [file [err|]];
    [simpl; auto | apply WriteFile_otherFiles].
Qed.

Lemma saveNewApp_otherFiles : keeps otherFilesKept saveNewApp.
Proof.
  intros g v p. unfold saveNewApp.
  destruct (getView g "add_name") as [nameV|];
    [|apply otherFilesKept_fs; reflexivity].
  destruct (getView g "add_cmd") as [cmdV|];
    [|apply otherFilesKept_fs; reflexivity].
  destruct (_ || _); [apply otherFilesKept_fs; reflexivity|].
  destruct (cancelAddModal g "" _) as [[g' p'] e'].
  match goal with
  | |- context [writeConfig ?d ?f ?a] =>
      pose proof (writeConfig_otherFiles d f a) as Hw;
      destruct (writeConfig d f a) as [fs' [err|]]
  end; exact Hw.
Qed.

Lemma boot_otherFiles p :
  otherFilesKept p match boot p with inl st => snd st | inr p' => p' end.
Proof.
  unfold boot. destruct (fileExists (fs p) "config.json").
  - destruct (loadConfig (fs p) "config.json") as [config [err|]];
      apply otherFilesKept_fs; reflexivity.
  - unfold createDefaultConfig.
    destruct (MarshalIndent _) as [file [err|]];
      [apply otherFilesKept_fs; reflexivity|].
    pose proof (WriteFile_otherFiles (fs p) "config.json" file) as Hw.
    destruct (WriteFile (fs p) "config.json" file) as [fs' [err|]];
      simpl in Hw; [exact Hw|].
    destruct (loadConfig _ _) as [config [err|]]; exact Hw.
Qed.

(** X28: the launcher itself writes config.json only. Whatever the keys,
    the writes of [main], of [createDefaultConfig] and of [saveNewApp],
    those that fail included, leave every other file and whether the files
    can be written as they were. What the launched commands do to the
    files is outside the model: a child changes no file here. *)
Theorem main_writes_config_only (env : Env) (keys : list Key) (p : Process) :
  otherFilesKept p (snd (main env keys p)).
Proof.
  rewrite main_serve. pose proof (boot_otherFiles p) as Hb.
  destruct (boot p) as [st|q]; [exact Hb|].
  eapply otherFilesKept_trans; [exact Hb|].
  eapply otherFilesKept_trans;
    [apply (openUI_keeps otherFilesKept otherFilesKept_same)|].
  apply (serve_keeps otherFilesKept otherFilesKept_same otherFilesKept_trans
           saveNewApp_otherFiles).
Qed.

Lemma appsKept_same p p' :
  applications p' = applications p -> fs p' = fs p -> appsKept p p'.
Proof. intros E _. exists []. rewrite E, app_nil_r. reflexivity. Qed.

Lemma appsKept_trans p1 p2 p3 :
  appsKept p1 p2 -> appsKept p2 p3 -> appsKept p1 p3.
Proof.
  intros [m1 E1] [m2 E2]. exists (m1 ++ m2).
  rewrite E2, E1, app_assoc. reflexivity.
Qed.

Lemma saveNewApp_apps : keeps appsKept saveNewApp.
Proof.
  intros g v p. unfold saveNewApp.
  destruct (getView g "add_name") as [nameV|];
    [|apply appsKept_same; reflexivity].
  destruct (getView g "add_cmd") as [cmdV|];
    [|apply appsKept_same; reflexivity].
  destruct (_ || _); [apply appsKept_same; reflexivity|].
  destruct (cancelAddModal g "" _) as [[g' p'] e'].
  destruct (writeConfig _ _ _) as [fs' [err|]]; simpl;
    eexists; reflexivity.
Qed.

(** X29: once the UI is open, the applications loaded stay in the list, at
    their places, whatever is typed after: an entry is only ever added at
    the end, so the line of an application never changes. *)
Theorem main_keeps_applications (env : Env) (keys more : list Key)
    (p : Process) (g : Gui) (p1 : Process) :
  main env keys p = (Interactive g, p1) ->
  appsKept p1 (snd (main env (keys ++ more) p)).
Proof.
  intros E. rewrite main_serve_app, E.
  apply (serve_keeps appsKept appsKept_same appsKept_trans saveNewApp_apps
           env more (Interactive g, p1)).
Qed.

(** *** What holds whenever the UI waits *)

(** [I] holds of every state in which the UI waits, provided [Ok] holds of
    the process at the end; [Ok] passes from a process to those before
    it. *)
Section Invariant.
Variable I : Gui -> Process -> Prop.
Variable Ok : Process -> Prop.
Hypothesis Ok_back : forall p p', appsKept p p' -> Ok p' -> Ok p.
Hypothesis I_fresh : forall p, I (layout emptyGui) p.
Hypothesis I_layout : forall g p, I g p -> I (layout g) p.
Hypothesis I_handlers :
  Forall (fun kb => forall g v p,
            Ok p -> I g p ->
            I (fst (fst (handler kb g v p))) (snd (fst (handler kb g v p))))
         keybindings.
Hypothesis I_edit :
  forall g p name w u,
    I g p -> currentView g = Some name -> getView g name = Some w ->
    Editable w = true -> I (putView name u g) p.

Lemma execKeybindings_inv kbs v k matched g p :
  Forall (fun kb => keeps appsKept (handler kb)) kbs ->
  Forall (fun kb => forall g v p,
            Ok p -> I g p ->
            I (fst (fst (handler kb g v p))) (snd (fst (handler kb g v p))))
         kbs ->
  Ok (snd (fst (execKeybindings kbs v k matched g p))) ->
  I g p ->
  I (fst (fst (execKeybindings kbs v k matched g p)))
    (snd (fst (execKeybindings kbs v k matched g p))).
Proof.
  intros Hkeep Hk. revert matched g p.
  induction Hk as [|kb kbs Hkb _ IH]; intros matched g p Hok Hl.
  - exact Hl.
  - assert (Ok p) as Hp.
    { eapply Ok_back; [|exact Hok].
      apply (execKeybindings_keeps appsKept appsKept_same appsKept_trans).
      exact Hkeep. }
    apply Forall_cons_1 in Hkeep as [_ Hkeep]. simpl in *.
    destruct (key_eqb (key kb) k && matchView kb v);
      [|exact (IH Hkeep _ _ _ Hok Hl)].
    specialize (Hkb g (default "" v) p Hp Hl).
    destruct (handler kb g (default "" v) p) as [[g' p'] [err|]]; simpl in *;
      [exact Hkb|].
    exact (IH Hkeep _ _ _ Hok Hkb).
Qed.

Lemma onKey_inv k g p :
  Ok (snd (fst (onKey keybindings k g p))) ->
  I g p ->
  I (fst (fst (onKey keybindings k g p))) (snd (fst (onKey keybindings k g p))).
Proof.
  intros Hok Hl. unfold onKey in *.
  pose proof (execKeybindings_inv keybindings (currentView g) k false g p
                (keybindings_keep appsKept appsKept_same saveNewApp_apps)
                I_handlers) as Hq.
  destruct (execKeybindings keybindings (currentView g) k false g p)
    as [[g' p'] [[|] [err|]]]; simpl in *; try exact (Hq Hok Hl).
  destruct (currentView g') as [name|] eqn:Ec; [|exact (Hq Hok Hl)].
  destruct (getView g' name) as [w|] eqn:Ew; [|exact (Hq Hok Hl)].
  destruct (Editable w) eqn:Ee; [|exact (Hq Hok Hl)]. simpl in *.
  exact (I_edit g' p' name w _ (Hq Hok Hl) Ec Ew Ee).
Qed.

Lemma step_inv env k g p g' p' :
  step env k g p = (Interactive g', p') -> Ok p' -> I g p -> I g' p'.
Proof.
  unfold step. pose proof (onKey_inv k g p) as Hq.
  destruct (onKey keybindings k g p) as [[g1 p1] [err|]]; simpl in *.
  - destruct (isRestart err).
    + unfold openUI. destruct (newGui env _); [discriminate|].
      intros [= <- <-] _ _. apply I_fresh.
    + destruct (negb (isQuit err)); discriminate.
  - intros [= <- <-] Hok Hl. apply I_layout, Hq; assumption.
Qed.

Lemma serve_inv env keys g p g' p' :
  serve env keys (Interactive g, p) = (Interactive g', p') ->
  Ok p' -> I g p -> I g' p'.
Proof.
  revert g p. induction keys as [|k keys IH]; intros g p; simpl.
  - intros [= <- <-] _ Hl. exact Hl.
  - destruct (step env k g p) as [s q] eqn:Es. destruct s as [g1| | |].
    + intros E Hok Hl. apply (IH g1 q E Hok).
      apply (step_inv env k g p g1 q Es); [|exact Hl].
      apply (Ok_back q p'); [|exact Hok].
      pose proof (serve_keeps appsKept appsKept_same appsKept_trans
                    saveNewApp_apps env keys (Interactive g1, q)) as Hk.
      rewrite E in Hk. exact Hk.
    + rewrite serve_stopped by discriminate. discriminate.
    + rewrite serve_stopped by discriminate. discriminate.
    + rewrite serve_stopped by discriminate. discriminate.
Qed.

Lemma main_inv env keys p g p' :
  main env keys p = (Interactive g, p') -> Ok p' -> I g p'.
Proof.
  rewrite main_serve. destruct (boot p) as [st|q] eqn:Eb.
  - intros ->. apply boot_crashed in Eb. discriminate.
  - unfold openUI. destruct (newGui env (guis q)).
    + rewrite serve_stopped by discriminate. discriminate.
    + intros E Hok. exact (serve_inv env keys _ _ g p' E Hok (I_fresh _)).
Qed.

End Invariant.

(** *** The focus *)

Lemma currentView_SetView g name :
  currentView (fst (SetView g name)) = currentView g.
Proof. unfold SetView. destruct (getView g name); reflexivity. Qed.

Lemma focusOk_SetCurrentView g name :
  name = "list" \/ name = "add_name" \/ name = "add_cmd" ->
  focusOk g -> focusOk (fst (SetCurrentView g name)).
Proof.
  intros Hn Hf. unfold SetCurrentView. destruct (getView g name); [|exact Hf].
  unfold focusOk. simpl. destruct Hn as [->| [->| ->]]; auto.
Qed.

Lemma focusOk_same g g' : currentView g' = currentView g -> focusOk g -> focusOk g'.
Proof. unfold focusOk. intros ->. auto. Qed.

Lemma focusOk_layout g : focusOk g -> focusOk (layout g).
Proof.
  intros Hf. unfold layout.
  assert (focusOk
            (let (g0, created) := SetView g "list" in
             if created
             then match getView (fst (SetCurrentView (renderList g0) "list"))
                          "list" with
                  | Some v =>
                      putView "list" (setCursorY 2 v)
                        (fst (SetCurrentView (renderList g0) "list"))
                  | None => fst (SetCurrentView (renderList g0) "list")
                  end
             else g0)) as H1.
  { pose proof (currentView_SetView g "list") as E0.
    destruct (SetView g "list") as [g0 c0]. simpl in E0.
    destruct c0; [|exact (focusOk_same g g0 E0 Hf)].
    assert (focusOk (fst (SetCurrentView (renderList g0) "list"))) as H2.
    { apply focusOk_SetCurrentView; [auto|]. exact (focusOk_same g g0 E0 Hf). }
    destruct (getView _ "list"); [|exact H2].
    exact (focusOk_same _ _ eq_refl H2). }
  destruct (SetView g "list") as [g0 c0].
  match type of H1 with focusOk ?x => set (gl := x) in * end.
  pose proof (currentView_SetView gl "dashboard") as E1.
  destruct (SetView gl "dashboard") as [g1 c1]. simpl in E1.
  pose proof (currentView_SetView (if c1 then renderDashboard g1 else g1)
                "footer") as E2.
  destruct (SetView (if c1 then renderDashboard g1 else g1) "footer")
    as [g2 c2]. simpl in E2.
  apply (focusOk_same gl); [|exact H1].
  rewrite E2, <- E1. destruct c1; reflexivity.
Qed.

Lemma cancelAddModal_focusOk g v p :
  focusOk g -> focusOk (fst (fst (cancelAddModal g v p))).
Proof.
  intros Hf. unfold cancelAddModal. cbn [foldl].
  destruct (closeView_views g "add_modal") as [_ C1].
  set (g1 := match getView g "add_modal" with
             | Some _ => DeleteView g "add_modal" | None => g end) in *.
  destruct (closeView_views g1 "add_name") as [_ C2].
  set (g2 := match getView g1 "add_name" with
             | Some _ => DeleteView g1 "add_name" | None => g1 end) in *.
  destruct (closeView_views g2 "add_cmd") as [_ C3].
  set (g3 := match getView g2 "add_cmd" with
             | Some _ => DeleteView g2 "add_cmd" | None => g2 end) in *.
  assert (focusOk g3) as H3.
  { apply (focusOk_same g); [congruence | exact Hf]. }
  pose proof (focusOk_SetCurrentView g3 "list" (or_introl eq_refl) H3) as H4.
  destruct (SetCurrentView g3 "list") as [g4 e4]. exact H4.
Qed.

Lemma keybindings_focusOk :
  Forall (fun kb => forall g v (p : Process),
            focusOk g -> focusOk (fst (fst (handler kb g v p))))
         keybindings.
Proof.
  unfold keybindings. repeat apply List.Forall_cons; try apply List.Forall_nil;
    simpl; intros g v p Hf.
  - exact Hf.
  - unfold cursorDown. destruct (getView g v); [|exact Hf]. simpl.
    destruct (_ <? _); exact Hf.
  - unfold cursorUp. destruct (getView g v); [|exact Hf]. simpl.
    destruct (_ >? _); exact Hf.
  - unfold runApp. repeat case_match; exact Hf.
  - exact Hf.
  - unfold openAddModal.
    pose proof (currentView_SetView g "add_modal") as E1.
    destruct (SetView g "add_modal") as [g1 c1]. simpl in E1.
    pose proof (currentView_SetView g1 "add_name") as E2.
    destruct (SetView g1 "add_name") as [g2 c2]. simpl in E2.
    set (g2' := if c2 then putView "add_name" editableView g2 else g2).
    assert (currentView g2' = currentView g2) as E2'.
    { unfold g2'. destruct c2; reflexivity. }
    pose proof (currentView_SetView g2' "add_cmd") as E3.
    destruct (SetView g2' "add_cmd") as [g3 c3]. simpl in E3.
    set (g3' := if c3 then putView "add_cmd" editableView g3 else g3).
    assert (focusOk g3') as H3.
    { apply (focusOk_same g); [|exact Hf].
      unfold g3'. destruct c3; simpl; congruence. }
    pose proof (focusOk_SetCurrentView g3' "add_name"
                  (or_intror (or_introl eq_refl)) H3) as H4.
    destruct (SetCurrentView g3' "add_name") as [g4 e4]. exact H4.
  - unfold switchAddField. destruct (String.eqb v "add_name").
    + pose proof (focusOk_SetCurrentView g "add_cmd"
                    (or_intror (or_intror eq_refl)) Hf) as H4.
      destruct (SetCurrentView g "add_cmd") as [g4 e4]. exact H4.
    + pose proof (focusOk_SetCurrentView g "add_name"
                    (or_intror (or_introl eq_refl)) Hf) as H4.
      destruct (SetCurrentView g "add_name") as [g4 e4]. exact H4.
  - unfold saveNewApp.
    destruct (getView g "add_name") as [nameV|]; [|exact Hf].
    destruct (getView g "add_cmd") as [cmdV|]; [|exact Hf].
    destruct (_ || _); [exact Hf|].
    match goal with
    | |- context [cancelAddModal g "" ?q] =>
        pose proof (cancelAddModal_focusOk g "" q Hf) as Hc;
        destruct (cancelAddModal g "" q) as [[g' p'] e']
    end.
    exact Hc.
  - unfold switchAddField. destruct (String.eqb v "add_name").
    + pose proof (focusOk_SetCurrentView g "add_cmd"
                    (or_intror (or_intror eq_refl)) Hf) as H4.
      destruct (SetCurrentView g "add_cmd") as [g4 e4]. exact H4.
    + pose proof (focusOk_SetCurrentView g "add_name"
                    (or_intror (or_introl eq_refl)) Hf) as H4.
      destruct (SetCurrentView g "add_name") as [g4 e4]. exact H4.
  - unfold switchAddField. destruct (String.eqb v "add_name").
    + pose proof (focusOk_SetCurrentView g "add_cmd"
                    (or_intror (or_intror eq_refl)) Hf) as H4.
      destruct (SetCurrentView g "add_cmd") as [g4 e4]. exact H4.
    + pose proof (focusOk_SetCurrentView g "add_name"
                    (or_intror (or_introl eq_refl)) Hf) as H4.
      destruct (SetCurrentView g "add_name") as [g4 e4]. exact H4.
  - apply cancelAddModal_focusOk, Hf.
Qed.

Lemma main_focusOk env keys p g p' :
  main env keys p = (Interactive g, p') -> focusOk g.
Proof.
  intros E.
  refine (main_inv (fun g _ => focusOk g) (fun _ => True) _ _ _ _ _
            env keys p g p' E Logic.I).
  - auto.
  - intros _. left. reflexivity.
  - intros g0 _. apply focusOk_layout.
  - eapply Forall_impl; [exact keybindings_focusOk|].
    intros kb Hkb g0 v p0 _. apply Hkb.
  - intros g0 _ name w u Hf _ _ _. exact Hf.
Qed.

(** With the focus on the list or in a field, no binding matches Esc. *)
Lemma execKeybindings_esc g p :
  focusOk g ->
  execKeybindings keybindings (currentView g) KeyEsc false g p
  = (g, p, (false, None)).
Proof. intros [-> | [-> | ->]]; reflexivity. Qed.

(** *** The cursor of the list *)

Lemma listOk_views g g' p p' :
  getView g' "list" = getView g "list" ->
  applications p' = applications p ->
  listOk g p -> listOk g' p'.
Proof.
  intros Ev Ea (y & Hl & Hy). exists y.
  rewrite Ev, Ea. auto.
Qed.

Lemma listOk_grow g p a :
  listOk g p -> listOk g (set_applications (applications p ++ [a]) p).
Proof.
  intros (y & Hl & Hy). exists y. split; [exact Hl|].
  simpl. unfold len in *. rewrite length_app. simpl. lia.
Qed.

Lemma getView_putView_ne g name w n :
  n <> name -> getView (putView name w g) n = getView g n.
Proof.
  intros Hn. unfold getView, putView. simpl.
  apply lookup_insert_ne. congruence.
Qed.

Lemma getView_SetView_ne g name n :
  n <> name -> getView (fst (SetView g name)) n = getView g n.
Proof.
  intros Hn. unfold SetView. destruct (getView g name); simpl; [reflexivity|].
  apply getView_putView_ne, Hn.
Qed.

Lemma getView_SetCurrentView g name n :
  getView (fst (SetCurrentView g name)) n = getView g n.
Proof. unfold SetCurrentView. destruct (getView g name); reflexivity. Qed.

Lemma listOk_fresh p : listOk (layout emptyGui) p.
Proof. exists 2. split; [reflexivity|]. lia. Qed.

Lemma listOk_layout g p : listOk g p -> listOk (layout g) p.
Proof.
  intros Hl. refine (listOk_views g _ p p _ eq_refl Hl).
  destruct Hl as (y & Hl & _).
  assert (SetView g "list" = (g, false)) as E0.
  { unfold SetView. rewrite Hl. reflexivity. }
  unfold layout. rewrite E0. cbv beta iota.
  pose proof (getView_SetView_ne g "dashboard" "list") as E1.
  destruct (SetView g "dashboard") as [g1 c1]. simpl in E1.
  pose proof (getView_SetView_ne (if c1 then renderDashboard g1 else g1)
                "footer" "list") as E2.
  destruct (SetView (if c1 then renderDashboard g1 else g1) "footer")
    as [g2 c2]. simpl in E2.
  rewrite E2, <- E1 by discriminate. destruct c1; reflexivity.
Qed.

Section Cursor.
Variable n : Z.
Hypothesis Hshows : showsLines n.

Lemma cursorDown_listOk g v p :
  len (applications p) <= n ->
  listOk g p ->
  listOk (fst (fst (cursorDown g v p))) (snd (fst (cursorDown g v p))).
Proof.
  intros Hn Hl. unfold cursorDown. destruct (getView g v) as [view|] eqn:Ev;
    [|exact Hl]. simpl.
  destruct (CursorY view <? len (applications p) + 1) eqn:Ey; [|exact Hl].
  unfold renderDashboard. destruct (decide (v = "list")) as [->|Hv].
  - destruct Hl as (y & Hl & Hy). rewrite Hl in Ev. injection Ev as <-.
    simpl in Ey. apply Z.ltb_lt in Ey.
    rewrite (proj1 Hshows y) by lia.
    exists (y + 1). split; [|lia].
    unfold getView, putView. simpl. apply lookup_insert_eq.
  - refine (listOk_views g _ p p _ eq_refl Hl).
    apply getView_putView_ne. congruence.
Qed.

Lemma cursorUp_listOk g v p :
  len (applications p) <= n ->
  listOk g p ->
  listOk (fst (fst (cursorUp g v p))) (snd (fst (cursorUp g v p))).
Proof.
  intros Hn Hl. unfold cursorUp. destruct (getView g v) as [view|] eqn:Ev;
    [|exact Hl]. simpl.
  destruct (CursorY view >? 2) eqn:Ey; [|exact Hl].
  unfold renderDashboard. destruct (decide (v = "list")) as [->|Hv].
  - destruct Hl as (y & Hl & Hy). rewrite Hl in Ev. injection Ev as <-.
    simpl in Ey. apply Z.gtb_lt in Ey.
    rewrite (proj2 Hshows y) by lia.
    exists (y - 1). split; [|lia].
    unfold getView, putView. simpl. apply lookup_insert_eq.
  - refine (listOk_views g _ p p _ eq_refl Hl).
    apply getView_putView_ne. congruence.
Qed.

Lemma openAddModal_listOk g v p :
  listOk g p ->
  listOk (fst (fst (openAddModal g v p))) (snd (fst (openAddModal g v p))).
Proof.
  intros Hl. unfold openAddModal.
  pose proof (getView_SetView_ne g "add_modal" "list") as E1.
  destruct (SetView g "add_modal") as [g1 c1]. simpl in E1.
  pose proof (getView_SetView_ne g1 "add_name" "list") as E2.
  destruct (SetView g1 "add_name") as [g2 c2]. simpl in E2.
  set (g2' := if c2 then putView "add_name" editableView g2 else g2).
  assert (getView g2' "list" = getView g2 "list") as E2'.
  { unfold g2'. destruct c2; [|reflexivity].
    apply getView_putView_ne. discriminate. }
  pose proof (getView_SetView_ne g2' "add_cmd" "list") as E3.
  destruct (SetView g2' "add_cmd") as [g3 c3]. simpl in E3.
  set (g3' := if c3 then putView "add_cmd" editableView g3 else g3).
  assert (getView g3' "list" = getView g3 "list") as E3'.
  { unfold g3'. destruct c3; [|reflexivity].
    apply getView_putView_ne. discriminate. }
  pose proof (getView_SetCurrentView g3' "add_name" "list") as E4.
  destruct (SetCurrentView g3' "add_name") as [g4 e4]. simpl in *.
  refine (listOk_views g _ p p _ eq_refl Hl).
  rewrite E4, E3', E3, E2', E2, E1 by discriminate. reflexivity.
Qed.

Lemma switchAddField_listOk g v p :
  listOk g p ->
  listOk (fst (fst (switchAddField g v p)))
         (snd (fst (switchAddField g v p))).
Proof.
  intros Hl. unfold switchAddField. destruct (String.eqb v "add_name").
  - pose proof (getView_SetCurrentView g "add_cmd" "list") as E.
    destruct (SetCurrentView g "add_cmd") as [g' e]. simpl in *.
    exact (listOk_views g g' p p E eq_refl Hl).
  - pose proof (getView_SetCurrentView g "add_name" "list") as E.
    destruct (SetCurrentView g "add_name") as [g' e]. simpl in *.
    exact (listOk_views g g' p p E eq_refl Hl).
Qed.

Lemma cancelAddModal_listOk g v p :
  listOk g p ->
  listOk (fst (fst (cancelAddModal g v p)))
         (snd (fst (cancelAddModal g v p))).
Proof.
  intros Hl. destruct (cancelAddModal_gui g v p) as (_ & _ & _ & Ho & _).
  refine (listOk_views g _ p _ _ _ Hl).
  - apply Ho; discriminate.
  - unfold cancelAddModal. repeat case_match; reflexivity.
Qed.

Lemma saveNewApp_listOk g v p :
  listOk g p ->
  listOk (fst (fst (saveNewApp g v p))) (snd (fst (saveNewApp g v p))).
Proof.
  intros Hl. unfold saveNewApp.
  destruct (getView g "add_name") as [nameV|]; [|exact Hl].
  destruct (getView g "add_cmd") as [cmdV|]; [|exact Hl].
  destruct (_ || _); [exact Hl|].
  match goal with
  | |- context [cancelAddModal g "" ?q] =>
      destruct (cancelAddModal_gui g "" q) as (_ & _ & _ & Ho & _);
      destruct (cancelAddModal g "" q) as [[g' p'] e'] eqn:E
  end.
  simpl in Ho. cbv zeta. unfold renderList, renderDashboard. cbn [fst snd].
  apply (listOk_grow g p (mkApplication (trimViewText nameV)
                                        (trimViewText cmdV))) in Hl.
  refine (listOk_views g _ _ _ _ _ Hl).
  - apply Ho; discriminate.
  - destruct (writeConfig _ _ _) as [fs' [err|]]; reflexivity.
Qed.

Lemma keybindings_listOk :
  Forall (fun kb => forall g v p,
            len (applications p) <= n ->
            listOk g p ->
            listOk (fst (fst (handler kb g v p)))
                   (snd (fst (handler kb g v p))))
         keybindings.
Proof.
  unfold keybindings.
  repeat apply List.Forall_cons; try apply List.Forall_nil; simpl;
    intros g v p Hn Hl;
    auto using cursorDown_listOk, cursorUp_listOk, openAddModal_listOk,
      switchAddField_listOk, cancelAddModal_listOk, saveNewApp_listOk.
  unfold runApp. repeat case_match; exact Hl.
Qed.

Lemma main_listOk env keys p g p' :
  main env keys p = (Interactive g, p') ->
  len (applications p') <= n ->
  listOk g p'.
Proof.
  apply (main_inv listOk (fun p => len (applications p) <= n)).
  - intros p0 p1 [more E] Hn. rewrite E in Hn. unfold len in *.
    rewrite length_app in Hn. lia.
  - apply listOk_fresh.
  - apply listOk_layout.
  - exact keybindings_listOk.
  - intros g0 p0 name w u Hl _ Hw He.
    refine (listOk_views g0 _ p0 p0 _ eq_refl Hl).
    apply getView_putView_ne. intros <-.
    destruct Hl as (y & Hl & _). rewrite Hl in Hw. injection Hw as <-.
    discriminate.
Qed.

End Cursor.

(** X30: whenever the UI waits for a key, the list is there and its cursor
    is on line 2 or on the line of an application; with an application in
    the list, the cursor is on one, so that Enter in the list launches it.
    The list is taken to show the lines of its applications, so that the
    cursor moves between them without scrolling. *)
Theorem list_cursor_on_application (env : Env) (keys : list Key)
    (p : Process) (g : Gui) (p' : Process) :
  main env keys p = (Interactive g, p') ->
  showsLines (len (applications p')) ->
  exists v,
    getView g "list" = Some v
    /\ 2 <= CursorY v <= Z.max 2 (len (applications p') + 1)
    /\ (applications p' <> [] ->
        is_Some (getAppFromCursor (applications p') v)).
Proof.
  intros E Hm.
  destruct (main_listOk (len (applications p')) Hm env keys p g p' E)
    as (y & Hl & Hy); [lia|].
  exists (listView y). split; [exact Hl|]. split; [exact Hy|].
  intros Ha. unfold getAppFromCursor. simpl.
  assert (0 < len (applications p')) as Hlen.
  { unfold len. destruct (applications p'); [congruence | simpl; lia]. }
  replace (y - 2 >=? 0) with true by (symmetry; apply Z.geb_le; lia).
  replace (y - 2 <? len (applications p')) with true
    by (symmetry; apply Z.ltb_lt; lia).
  simpl. apply lookup_lt_is_Some. unfold len in *. lia.
Qed.

(** X24: Esc closes nothing. Whenever the UI waits for a key, the focus is
    on the list or in a field of the form, and no binding matches Esc
    there: the binding of [cancelAddModal] is on the view add_modal, which
    never has the focus. The key runs no handler and returns no error;
    every view stays, the form too, and the focus stays where it is. *)
Theorem esc_keeps_form (env : Env) (keys : list Key) (p : Process)
    (g : Gui) (p' : Process) :
  main env keys p = (Interactive g, p') ->
  focusOk g
  /\ execKeybindings keybindings (currentView g) KeyEsc false g p'
     = (g, p', (false, None))
  /\ exists g',
       onKey keybindings KeyEsc g p' = (g', p', None)
       /\ currentView g' = currentView g
       /\ forall n, is_Some (getView g' n) <-> is_Some (getView g n).
Proof.
  intros E. pose proof (main_focusOk env keys p g p' E) as Hf.
  split; [exact Hf|]. split; [apply execKeybindings_esc, Hf|].
  unfold onKey. rewrite (execKeybindings_esc g p' Hf).
  destruct (currentView g) as [name|] eqn:Ec;
    [|exists g; repeat split; auto; tauto].
  destruct (getView g name) as [w|] eqn:Ew;
    [|exists g; repeat split; auto; tauto].
  destruct (Editable w);
    [|exists g; repeat split; auto; tauto].
  eexists. split; [reflexivity|]. split; [exact Ec|].
  intros n. unfold getView, putView in *. simpl.
  destruct (decide (n = name)) as [->|Hn].
  - rewrite lookup_insert_eq, Ew. split; eauto.
  - rewrite lookup_insert_ne by congruence. tauto.
Qed.

End WithLibs.

Import Sample.

(** *** Examples on an empty disk *)

Lemma main_app_sample :
  main (always (Waited None)) ([KeyCtrlC] ++ [KeyEnter]) emptyDisk
  = main (always (Waited None)) [KeyCtrlC] emptyDisk.
Proof.
  apply (proj2 (main_app (always (Waited None)) [KeyCtrlC] [KeyEnter]
                  emptyDisk)).
  intros g. vm_compute. discriminate.
Defined.

Lemma ctrlC_finishes_sample :
  let st := main (always (Waited None)) [KeyRune "a"] emptyDisk in
  main (always (Waited None)) ([KeyRune "a"] ++ [KeyCtrlC]) emptyDisk
  = (Finished, emit GuiClosed (snd st)).
Proof.
  cbv zeta.
  apply (ctrlC_finishes (always (Waited None)) [KeyRune "a"] emptyDisk
           (guiOf (main (always (Waited None)) [KeyRune "a"] emptyDisk))).
  vm_compute. reflexivity.
Defined.


Lemma esc_keeps_form_sample :
  let st := main (always (Waited None)) [KeyRune "a"; KeyRune "x"] emptyDisk in
  focusOk (guiOf st)
  /\ execKeybindings keybindings (currentView (guiOf st)) KeyEsc false
       (guiOf st) (snd st)
     = (guiOf st, snd st, (false, None))
  /\ exists g',
       onKey keybindings KeyEsc (guiOf st) (snd st) = (g', snd st, None)
       /\ currentView g' = currentView (guiOf st)
       /\ forall n, is_Some (getView g' n) <-> is_Some (getView (guiOf st) n).
Proof.
  cbv zeta.
  apply (esc_keeps_form (always (Waited None)) [KeyRune "a"; KeyRune "x"]
           emptyDisk).
  vm_compute. reflexivity.
Defined.

Lemma saveNewApp_closes_form_sample :
  let g := formWith ("htop" +:+ LF) ("htop -d 5" +:+ LF) in
  let g' := fst (fst (saveNewApp g "add_cmd" emptyDisk)) in
  getView g' "add_modal" = None
  /\ getView g' "add_name" = None
  /\ getView g' "add_cmd" = None
  /\ (forall n, n <> "add_modal" -> n <> "add_name" -> n <> "add_cmd" ->
                getView g' n = getView g n)
  /\ (is_Some (getView g "list") -> currentView g' = Some "list").
Proof.
  cbv zeta.
  apply (saveNewApp_closes_form
           (formWith ("htop" +:+ LF) ("htop -d 5" +:+ LF)) "add_cmd" emptyDisk
           (mkView ("htop" +:+ LF) 0 true) (mkView ("htop -d 5" +:+ LF) 0 true));
    try reflexivity; vm_compute; discriminate.
Defined.

Lemma saveNewApp_write_fails_sample :
  let g := formWith ("htop" +:+ LF) ("htop -d 5" +:+ LF) in
  let p := mkProcess defaultApplications None (mkDisk ∅ true (Some 1%nat))
             0 0 [] in
  let apps := defaultApplications ++ [mkApplication "htop" "htop -d 5"] in
  let fs' := mkDisk {[ "config.json" := "{" ]} true (Some 1%nat) in
  let err := ErrOther "no space left on device" in
  let p' := snd (fst (saveNewApp g "add_cmd" p)) in
  snd (saveNewApp g "add_cmd" p) = None
  /\ applications p' = apps
  /\ trace p' = [] ++ [Logged "Error writing config:" err]
  /\ fs p' = fs'
  /\ (forall path, path <> "config.json" ->
                   files fs' !! path = (∅ : gmap string string) !! path)
  /\ (files fs' !! "config.json" = (∅ : gmap string string) !! "config.json"
      \/ exists data n,
           MarshalIndent (mkConfig apps) = (data, None)
           /\ files fs' !! "config.json" = Some (substring 0 n data)).
Proof.
  cbv zeta.
  apply (saveNewApp_write_fails
           (formWith ("htop" +:+ LF) ("htop -d 5" +:+ LF)) "add_cmd"
           (mkProcess defaultApplications None (mkDisk ∅ true (Some 1%nat))
              0 0 [])
           (mkView ("htop" +:+ LF) 0 true) (mkView ("htop -d 5" +:+ LF) 0 true)
           (mkDisk {[ "config.json" := "{" ]} true (Some 1%nat))
           (ErrOther "no space left on device"));
    try reflexivity; vm_compute; discriminate.
Defined.


Lemma main_keeps_applications_sample :
  let env := always (Waited None) in
  let more := [KeyRune "a"; KeyRune "x"; KeyTab; KeyRune "l"; KeyRune "s";
               KeyEnter] in
  appsKept (snd (main env [KeyArrowDown] emptyDisk))
           (snd (main env ([KeyArrowDown] ++ more) emptyDisk)).
Proof.
  cbv zeta.
  apply (main_keeps_applications (always (Waited None)) [KeyArrowDown]
           [KeyRune "a"; KeyRune "x"; KeyTab; KeyRune "l"; KeyRune "s";
            KeyEnter]
           emptyDisk
           (guiOf (main (always (Waited None)) [KeyArrowDown] emptyDisk))).
  vm_compute. reflexivity.
Defined.

Lemma list_cursor_on_application_sample :
  let st := main (always (Waited None))
              [KeyArrowDown; KeyArrowDown; KeyArrowDown; KeyArrowDown;
               KeyArrowDown]
              emptyDisk in
  exists v,
    getView (guiOf st) "list" = Some v
    /\ 2 <= CursorY v <= Z.max 2 (len (applications (snd st)) + 1)
    /\ (applications (snd st) <> [] ->
        is_Some (getAppFromCursor (applications (snd st)) v)).
Proof.
  cbv zeta.
  apply (list_cursor_on_application (always (Waited None))
           [KeyArrowDown; KeyArrowDown; KeyArrowDown; KeyArrowDown;
            KeyArrowDown]
           emptyDisk).
  - vm_compute. reflexivity.
  - split; intros y _; reflexivity.
Defined.

End MachineFacts.
